(** * Campaign dispatch engine of the bulk-email service

    A shallow embedding of [backend/server.py]: the personalisation done by
    [send_single_email] and the batch loop, status bookkeeping and fault
    handling of [process_bulk_email_campaign], followed by the properties
    of the dispatch engine. *)

From Stdlib Require Import List Arith Bool Lia ZArith Permutation.
From Stdlib Require Import Strings.Ascii Strings.String Numbers.DecimalString.
Import ListNotations.

Open Scope list_scope.
Open Scope string_scope.

(* ================================================================== *)
(** ** Python strings *)

Module PyStr.

Definition lbrace : ascii := "{"%char.
Definition rbrace : ascii := "}"%char.

(** [s.startswith(p)]. *)
Fixpoint starts_with (p s : string) : bool :=
  match p with
  | EmptyString => true
  | String a p' =>
      match s with
      | EmptyString => false
      | String b s' => if Ascii.eqb a b then starts_with p' s' else false
      end
  end.

(** Whether [p] occurs somewhere in [s] ([p in s]). *)
Fixpoint occurs (p s : string) : bool :=
  starts_with p s ||
  match s with
  | EmptyString => false
  | String _ s' => occurs p s'
  end.

(** The scan of [str.replace] for a non-empty pattern: left to right,
    leftmost match first, matches do not overlap.  [skip] counts the
    characters of the current match that are still to be dropped. *)
Fixpoint replace_from (old new : string) (skip : nat) (s : string) : string :=
  match s with
  | EmptyString => EmptyString
  | String c s' =>
      match skip with
      | S k => replace_from old new k s'
      | O =>
          if starts_with old s
          then new ++ replace_from old new (String.length old - 1) s'
          else String c (replace_from old new 0 s')
      end
  end.

(** With an empty pattern [str.replace] puts [new] before every character
    and at the end. *)
Fixpoint interleave (new s : string) : string :=
  match s with
  | EmptyString => new
  | String c s' => new ++ String c (interleave new s')
  end.

(** [s.replace(old, new)]. *)
Definition py_replace (old new s : string) : string :=
  match old with
  | EmptyString => interleave new s
  | String _ _ => replace_from old new 0 s
  end.

(** The placeholder token of a key: the f-string [{{{{{key}}}}}]. *)
Definition placeholder (key : string) : string :=
  String lbrace (String lbrace (key ++ String rbrace (String rbrace EmptyString))).

(** No opening brace in [s]. *)
Fixpoint no_open (s : string) : bool :=
  match s with
  | EmptyString => true
  | String c s' => negb (Ascii.eqb c lbrace) && no_open s'
  end.

(** Neither brace in [s]. *)
Fixpoint no_brace (s : string) : bool :=
  match s with
  | EmptyString => true
  | String c s' =>
      negb (Ascii.eqb c lbrace) && negb (Ascii.eqb c rbrace) && no_brace s'
  end.

End PyStr.
Import PyStr.

(* ================================================================== *)
(** ** Data model (the pydantic models) *)

(** The values a metadata entry ([Dict[str, Any]]) holds, as far as the
    engine looks at them: it only ever calls [str] on a value.  Strings,
    integers, booleans and [None] are covered; floats and containers are
    left out. *)
Inductive pyval : Type :=
| PStr (s : string)
| PInt (z : Z)
| PBool (b : bool)
| PNone.

(** [str(value)]. *)
Definition py_str (v : pyval) : string :=
  match v with
  | PStr s => s
  | PInt z => NilZero.string_of_int (Z.to_int z)
  | PBool true => "True"
  | PBool false => "False"
  | PNone => "None"
  end.

(** Timestamps are readings of the clock. *)
Definition timestamp := nat.

Record Recipient : Type := mkRecipient {
  r_id : string;
  r_email : string;
  r_name : option string;
  r_metadata : option (list (string * pyval));
  r_campaign_id : option string;
  r_status : string;
  r_created_at : timestamp
}.

Record Campaign : Type := mkCampaign {
  c_id : string;
  c_name : string;
  c_subject : string;
  c_content : string;
  c_sender_name : string;
  c_status : string;
  c_total_recipients : Z;
  c_sent_count : Z;
  c_failed_count : Z;
  c_template_id : option string;
  c_ai_generated : bool;
  c_created_at : timestamp;
  c_updated_at : timestamp
}.

(** Truthiness of an [Optional[str]]: [None] and the empty string are
    falsy. *)
Definition truthy (o : option string) : bool :=
  match o with
  | Some (String _ _) => true
  | _ => false
  end.

(** [(recipient.metadata or {}).items()], in the dict's order. *)
Definition metadata_items (r : Recipient) : list (string * pyval) :=
  match r_metadata r with
  | Some items => items
  | None => []
  end.

(* ================================================================== *)
(** ** Personalisation ([send_single_email], first half) *)

(** The two texts the function rewrites side by side: content, subject. *)
Definition texts : Type := (string * string)%type.

Definition replace_both (old new : string) (t : texts) : texts :=
  (py_replace old new (fst t), py_replace old new (snd t)).

(** Lines 105-116: the name step under its guard, then one replacement
    per metadata entry. *)
Definition personalize_texts (r : Recipient) (c : Campaign) : texts :=
  let t0 := (c_content c, c_subject c) in
  let t1 :=
    if truthy (r_name r)
    then match r_name r with
         | Some n => replace_both "{{name}}" n t0
         | None => t0
         end
    else t0 in
  fold_left
    (fun t kv => replace_both (placeholder (fst kv)) (py_str (snd kv)) t)
    (metadata_items r) t1.

(** The same steps on one text. *)
Definition name_step (r : Recipient) (text : string) : string :=
  if truthy (r_name r)
  then match r_name r with
       | Some n => py_replace "{{name}}" n text
       | None => text
       end
  else text.

Definition metadata_steps (items : list (string * pyval)) (text : string)
  : string :=
  fold_left
    (fun t kv => py_replace (placeholder (fst kv)) (py_str (snd kv)) t)
    items text.

Definition personalize (r : Recipient) (text : string) : string :=
  metadata_steps (metadata_items r) (name_step r text).

(* ================================================================== *)
(** ** The message handed to the delivery provider *)

Record Mail : Type := mkMail {
  m_from : option string;
  m_to : string;
  m_subject : string;
  m_html : string
}.

Definition nl : string := String "010"%char EmptyString.
Definition dq : string := String "034"%char EmptyString.

Fixpoint spaces (n : nat) : string :=
  match n with
  | O => EmptyString
  | S k => String " "%char (spaces k)
  end.

Definition line (indent : nat) (text : string) : string :=
  spaces indent ++ text ++ nl.

(** The f-string of lines 123-136. *)
Definition html_content (personalized_content sender_name : string) : string :=
  nl
  ++ line 12 "<html>"
  ++ line 16 ("<body style=" ++ dq
              ++ "font-family: Arial, sans-serif; line-height: 1.6; color: #333;"
              ++ dq ++ ">")
  ++ line 20 ("<div style=" ++ dq
              ++ "max-width: 600px; margin: 0 auto; padding: 20px;"
              ++ dq ++ ">")
  ++ line 24 (py_replace nl "<br>" personalized_content)
  ++ line 24 ("<hr style=" ++ dq
              ++ "margin: 30px 0; border: none; border-top: 1px solid #eee;"
              ++ dq ++ ">")
  ++ line 24 ("<p style=" ++ dq ++ "font-size: 12px; color: #666;" ++ dq ++ ">")
  ++ line 28 ("Sent by " ++ sender_name ++ " | ")
  ++ line 28 ("<a href=" ++ dq ++ "#" ++ dq ++ " style=" ++ dq
              ++ "color: #666;" ++ dq ++ ">Unsubscribe</a>")
  ++ line 24 "</p>"
  ++ line 20 "</div>"
  ++ line 16 "</body>"
  ++ line 12 "</html>"
  ++ spaces 12.

(* ================================================================== *)
(** ** The world the engine runs in *)

Inductive level : Type := ERROR | INFO.

(** The [$set] document of a campaign update: the fields it names. *)
Record CampaignSet : Type := mkCampaignSet {
  set_status : option string;
  set_sent_count : option Z;
  set_failed_count : option Z;
  set_updated_at : option timestamp
}.

(** What a run does that can be observed from outside, in order. *)
Inductive Event : Type :=
| EvCampaignUpdate (cid : string) (upd : CampaignSet)
| EvRecipientUpdate (rid : string) (status : string)
| EvSend (m : Mail)
| EvSleep (seconds : nat)
| EvLog (lv : level) (msg : string).

(** The two collections in store order, the clock, the number of store
    operations and of provider calls issued so far, and the trace. *)
Record World : Type := mkWorld {
  campaigns : list Campaign;
  recipients : list Recipient;
  clock : timestamp;
  db_ops : nat;
  sg_calls : nat;
  trace : list Event
}.

(** An [Exception], by its message. *)
Definition exn : Type := string.

Inductive result (A : Type) : Type :=
| Returned (a : A)
| Raised (e : exn).
Arguments Returned {A} a.
Arguments Raised {A} e.

(** Computations: they change the world and return or raise.  What was
    written before a fault stays written. *)
Definition M (A : Type) : Type := World -> World * result A.

Definition ret {A} (a : A) : M A := fun w => (w, Returned a).

Definition bind {A B} (m : M A) (k : A -> M B) : M B :=
  fun w =>
    match m w with
    | (w1, Returned a) => k a w1
    | (w1, Raised e) => (w1, Raised e)
    end.

(** [try: m  except Exception as e: h e]. *)
Definition try_catch {A} (m : M A) (h : exn -> M A) : M A :=
  fun w =>
    match m w with
    | (w1, Returned a) => (w1, Returned a)
    | (w1, Raised e) => h e w1
    end.

Declare Scope monad_scope.
Delimit Scope monad_scope with monad.
Notation "x <- m ;; k" := (bind m (fun x => k))
  (at level 61, m at next level, right associativity) : monad_scope.
Notation "m ;; k" := (bind m (fun _ => k))
  (at level 61, right associativity) : monad_scope.
Open Scope monad_scope.

Definition emit (e : Event) : M unit :=
  fun w =>
    (mkWorld (campaigns w) (recipients w) (clock w) (db_ops w) (sg_calls w)
             (trace w ++ [e]),
     Returned tt).

(** [datetime.now(timezone.utc)]. *)
Definition now : M timestamp :=
  fun w =>
    (mkWorld (campaigns w) (recipients w) (S (clock w)) (db_ops w)
             (sg_calls w) (trace w),
     Returned (clock w)).

Definition log_error (msg : string) : M unit := emit (EvLog ERROR msg).
Definition log_info (msg : string) : M unit := emit (EvLog INFO msg).

(** [asyncio.sleep(seconds)]. *)
Definition sleep (seconds : nat) : M unit := emit (EvSleep seconds).

(** [update_one]: the first document that matches the filter. *)
Fixpoint update_first {A} (p : A -> bool) (f : A -> A) (l : list A) : list A :=
  match l with
  | [] => []
  | x :: t => if p x then f x :: t else x :: update_first p f t
  end.

Definition or_else {A} (o : option A) (d : A) : A :=
  match o with
  | Some a => a
  | None => d
  end.

Definition apply_set (upd : CampaignSet) (c : Campaign) : Campaign :=
  mkCampaign (c_id c) (c_name c) (c_subject c) (c_content c) (c_sender_name c)
    (or_else (set_status upd) (c_status c))
    (c_total_recipients c)
    (or_else (set_sent_count upd) (c_sent_count c))
    (or_else (set_failed_count upd) (c_failed_count c))
    (c_template_id c) (c_ai_generated c) (c_created_at c)
    (or_else (set_updated_at upd) (c_updated_at c)).

Definition with_status (status : string) (r : Recipient) : Recipient :=
  mkRecipient (r_id r) (r_email r) (r_name r) (r_metadata r)
    (r_campaign_id r) status (r_created_at r).

Definition with_email (email : string) (r : Recipient) : Recipient :=
  mkRecipient (r_id r) email (r_name r) (r_metadata r) (r_campaign_id r)
    (r_status r) (r_created_at r).

Definition has_campaign_id (cid : string) (c : Campaign) : bool :=
  String.eqb (c_id c) cid.

Definition has_recipient_id (rid : string) (r : Recipient) : bool :=
  String.eqb (r_id r) rid.

(** The filter [{"campaign_id": cid, "status": status}]. *)
Definition in_campaign_with_status (cid status : string) (r : Recipient)
  : bool :=
  match r_campaign_id r with
  | Some c => String.eqb c cid && String.eqb (r_status r) status
  | None => false
  end.

(** [l[i:j]] for [0 <= i <= j]. *)
Definition slice {A} (l : list A) (i j : nat) : list A :=
  firstn (j - i) (skipn i l).

(** The values of [range(start, stop, step)]: [fuel] bounds their
    number. *)
Fixpoint range_from (fuel i stop step : nat) : list nat :=
  match fuel with
  | O => []
  | S f => if (i <? stop)%nat then i :: range_from f (i + step) stop step else []
  end.

Definition range (start stop step : nat) : list nat :=
  range_from stop start stop step.

Definition batch_size : nat := 10.

(** What [sg.send] does with a message. *)
Inductive SendOutcome : Type :=
| Responded (status_code : Z)
| SendRaised (e : exn).

Definition sending_set (t : timestamp) : CampaignSet :=
  mkCampaignSet (Some "sending") None None (Some t).

Definition final_set (final_status : string) (sent_count failed_count : Z)
  (t : timestamp) : CampaignSet :=
  mkCampaignSet (Some final_status) (Some sent_count) (Some failed_count)
    (Some t).

Definition failed_set (t : timestamp) : CampaignSet :=
  mkCampaignSet (Some "failed") None None (Some t).

Section Engine.

(** The environment: the configured sender address, which store
    operations fault (by their number, with the message), and what the
    provider answers to its n-th call. *)
Variable sender_email : option string.
Variable db_fault : nat -> option exn.
Variable sg_send : nat -> Mail -> SendOutcome.

(** What validating an address as [EmailStr] gives: the address as the
    model holds it, or the complaint; and the text of a [ValidationError]
    with these complaints. *)
Variable validate_email : string -> exn + string.
Variable validation_message : list exn -> exn.

(** Every store operation goes through the driver, which may raise. *)
Definition db_call : M unit :=
  fun w =>
    let w1 := mkWorld (campaigns w) (recipients w) (clock w) (S (db_ops w))
                      (sg_calls w) (trace w) in
    match db_fault (db_ops w) with
    | Some e => (w1, Raised e)
    | None => (w1, Returned tt)
    end.

(** [db.campaigns.find_one({"id": cid})]. *)
Definition campaigns_find_one (cid : string) : M (option Campaign) :=
  db_call ;;
  fun w => (w, Returned (find (has_campaign_id cid) (campaigns w))).

(** [db.campaigns.update_one({"id": cid}, {"$set": upd})]. *)
Definition campaigns_update_one (cid : string) (upd : CampaignSet) : M unit :=
  db_call ;;
  fun w =>
    (mkWorld (update_first (has_campaign_id cid) (apply_set upd) (campaigns w))
             (recipients w) (clock w) (db_ops w) (sg_calls w)
             (trace w ++ [EvCampaignUpdate cid upd]),
     Returned tt).

(** [db.recipients.find({"campaign_id": cid, "status": status})], read to
    the end. *)
Definition recipients_find (cid status : string) : M (list Recipient) :=
  db_call ;;
  fun w =>
    (w, Returned (filter (in_campaign_with_status cid status) (recipients w))).

(** [db.recipients.update_one({"id": rid}, {"$set": {"status": status}})]. *)
Definition recipients_update_one (rid status : string) : M unit :=
  db_call ;;
  fun w =>
    (mkWorld (campaigns w)
             (update_first (has_recipient_id rid) (with_status status)
                           (recipients w))
             (clock w) (db_ops w) (sg_calls w)
             (trace w ++ [EvRecipientUpdate rid status]),
     Returned tt).

(** [sg.send(message)]: the status code of the response, or a fault. *)
Definition sg_client_send (message : Mail) : M Z :=
  fun w =>
    let w1 := mkWorld (campaigns w) (recipients w) (clock w) (db_ops w)
                      (S (sg_calls w)) (trace w ++ [EvSend message]) in
    match sg_send (sg_calls w) message with
    | Responded code => (w1, Returned code)
    | SendRaised e => (w1, Raised e)
    end.

Definition message_for (recipient : Recipient) (campaign : Campaign) : Mail :=
  let t := personalize_texts recipient campaign in
  mkMail sender_email (r_email recipient) (snd t)
         (html_content (fst t) (c_sender_name campaign)).

(** [send_single_email].  Personalising and building the [Mail] object
    are total here, so the faults the [try] catches are those of the
    provider call. *)
Definition send_single_email (recipient : Recipient) (campaign : Campaign)
  : M bool :=
  try_catch
    (code <- sg_client_send (message_for recipient campaign) ;;
     ret (code =? 202)%Z)
    (fun e =>
       log_error ("Failed to send email to " ++ r_email recipient ++ ": " ++ e) ;;
       ret false).

(** One task of [asyncio.gather(..., return_exceptions=True)]: a fault
    becomes the task's result. *)
Definition settle {A} (task : M A) : M (exn + A) :=
  fun w =>
    match task w with
    | (w1, Returned a) => (w1, Returned (inr a))
    | (w1, Raised e) => (w1, Returned (inl e))
    end.

(** The tasks have no suspension point of their own (the provider call is
    a blocking call), so they run one after the other in list order. *)
Fixpoint gather {A} (tasks : list (M A)) : M (list (exn + A)) :=
  match tasks with
  | [] => ret []
  | task :: rest =>
      x <- settle task ;;
      xs <- gather rest ;;
      ret (x :: xs)
  end.

(** Lines 194-212: the status write and the counter of each recipient of
    the batch.  The counters are (sent_count, failed_count). *)
Fixpoint record_results (pairs : list (Recipient * (exn + bool)))
  (counts : Z * Z) : M (Z * Z) :=
  match pairs with
  | [] => ret counts
  | (recipient, res) :: rest =>
      counts1 <-
        match res with
        | inl _ =>
            recipients_update_one (r_id recipient) "failed" ;;
            ret (fst counts, (snd counts + 1)%Z)
        | inr true =>
            recipients_update_one (r_id recipient) "sent" ;;
            ret ((fst counts + 1)%Z, snd counts)
        | inr false =>
            recipients_update_one (r_id recipient) "failed" ;;
            ret (fst counts, (snd counts + 1)%Z)
        end ;;
      record_results rest counts1
  end.

(** Lines 182-216: the loop over the batch starts [i]. *)
Fixpoint send_batches (selected : list Recipient) (campaign : Campaign)
  (starts : list nat) (counts : Z * Z) : M (Z * Z) :=
  match starts with
  | [] => ret counts
  | i :: rest =>
      let batch := slice selected i (i + batch_size) in
      let tasks := map (fun r => send_single_email r campaign) batch in
      results <- gather tasks ;;
      counts1 <- record_results (combine batch results) counts ;;
      (if (i + batch_size <? List.length selected)%nat then sleep 1 else ret tt) ;;
      send_batches selected campaign rest counts1
  end.

(** Line 175. *)
Definition select_recipients (test_mode : bool) (pending : list Recipient)
  : list Recipient :=
  if test_mode then slice pending 0 5 else pending.

Definition final_status_of (failed_count : Z) : string :=
  if (failed_count =? 0)%Z then "completed" else "completed_with_errors".

(** The [Recipient] that line 171 builds from a document.  A stored document holds a
    value of the Python type of each field; of the fields of the model
    only [email], an [EmailStr], asks for more than that type: the
    address is validated, and the model holds what the validator
    returns.  A document whose address does not validate raises a
    [ValidationError]. *)
Definition Recipient_of_doc (recipient_doc : Recipient) : M Recipient :=
  match validate_email (r_email recipient_doc) with
  | inl e => fun w => (w, Raised (validation_message [e]))
  | inr email => ret (with_email email recipient_doc)
  end.

(** Lines 169-171: the loop over the cursor, which builds the recipients
    one document after the other. *)
Fixpoint read_recipients (docs : list Recipient) : M (list Recipient) :=
  match docs with
  | [] => ret []
  | recipient_doc :: rest =>
      recipient <- Recipient_of_doc recipient_doc ;;
      recipients <- read_recipients rest ;;
      ret (recipient :: recipients)
  end.

(** Lines 153-232: the body of the [try].  The fields of [Campaign] are
    strings, integers, a boolean and timestamps without any validator, so
    the [Campaign] that line 159 builds from the document has the stored
    fields;
    the recipients are built from their documents by [read_recipients],
    whose fault, like any other of the body, goes to the handler. *)
Definition campaign_run (campaign_id : string) (test_mode : bool) : M unit :=
  campaign_doc <- campaigns_find_one campaign_id ;;
  match campaign_doc with
  | None => log_error ("Campaign " ++ campaign_id ++ " not found")
  | Some campaign =>
      t <- now ;;
      campaigns_update_one campaign_id (sending_set t) ;;
      recipients_cursor <- recipients_find campaign_id "pending" ;;
      pending <- read_recipients recipients_cursor ;;
      let selected := select_recipients test_mode pending in
      counts <- send_batches selected campaign
                  (range 0 (List.length selected) batch_size) (0%Z, 0%Z) ;;
      let final_status := final_status_of (snd counts) in
      t1 <- now ;;
      campaigns_update_one campaign_id
        (final_set final_status (fst counts) (snd counts) t1) ;;
      log_info ("Campaign " ++ campaign_id ++ " completed. Sent: "
                ++ py_str (PInt (fst counts)) ++ ", Failed: "
                ++ py_str (PInt (snd counts)))
  end.

(** Lines 234-239: the handler of the [except]. *)
Definition on_fault (campaign_id : string) (e : exn) : M unit :=
  log_error ("Error processing campaign " ++ campaign_id ++ ": " ++ e) ;;
  t <- now ;;
  campaigns_update_one campaign_id (failed_set t).

Definition process_bulk_email_campaign (campaign_id : string)
  (test_mode : bool) : M unit :=
  try_catch (campaign_run campaign_id test_mode) (on_fault campaign_id).

End Engine.

(* ================================================================== *)
(** ** Templates as text and placeholders *)

(** A template cut into literal text and placeholders. *)
Inductive segment : Type :=
| Lit (s : string)
| Hole (key : string).

Fixpoint flatten (segs : list segment) : string :=
  match segs with
  | [] => EmptyString
  | Lit s :: rest => s ++ flatten rest
  | Hole key :: rest => placeholder key ++ flatten rest
  end.

(** Literal text without an opening brace, keys without braces. *)
Definition segment_ok (seg : segment) : bool :=
  match seg with
  | Lit s => no_open s
  | Hole key => no_brace key
  end.

(** The replacements [send_single_email] makes, in its order: the name
    when it is truthy, then the metadata entries. *)
Definition bindings (r : Recipient) : list (string * string) :=
  (if truthy (r_name r)
   then match r_name r with
        | Some n => [("name", n)]
        | None => []
        end
   else [])
  ++ map (fun kv => (fst kv, py_str (snd kv))) (metadata_items r).

Fixpoint lookup (key : string) (bs : list (string * string)) : option string :=
  match bs with
  | [] => None
  | (k, v) :: rest => if String.eqb k key then Some v else lookup key rest
  end.

Definition binding_ok (kv : string * string) : bool :=
  no_brace (fst kv) && no_open (snd kv).

(** A placeholder with a binding becomes its value, one without stays. *)
Definition fill (bs : list (string * string)) (seg : segment) : segment :=
  match seg with
  | Lit s => Lit s
  | Hole key =>
      match lookup key bs with
      | Some v => Lit v
      | None => Hole key
      end
  end.

(* ================================================================== *)
(** ** The personaliser as the specification words it

    One pass over the template: where a placeholder [{{key}}] starts, it
    is replaced by [recipient.name] for the key [name] and by
    [str(metadata[key])] for any other key of the metadata; everything
    else is copied.  What a replacement puts in is not looked at again. *)

Definition spec_bindings (r : Recipient) : list (string * string) :=
  match r_name r with
  | Some n => [("name", n)]
  | None => []
  end
  ++ map (fun kv => (fst kv, py_str (snd kv)))
         (filter (fun kv => negb (String.eqb (fst kv) "name"))
                 (metadata_items r)).

Fixpoint binding_at (bs : list (string * string)) (s : string)
  : option (string * string) :=
  match bs with
  | [] => None
  | (k, v) :: rest =>
      if starts_with (placeholder k) s then Some (k, v) else binding_at rest s
  end.

Fixpoint spec_render_from (bs : list (string * string)) (skip : nat)
  (s : string) : string :=
  match s with
  | EmptyString => EmptyString
  | String c s' =>
      match skip with
      | S k => spec_render_from bs k s'
      | O =>
          match binding_at bs s with
          | Some (k, v) =>
              v ++ spec_render_from bs (String.length (placeholder k) - 1) s'
          | None => String c (spec_render_from bs 0 s')
          end
      end
  end.

Definition spec_render (r : Recipient) (template : string) : string :=
  spec_render_from (spec_bindings r) 0 template.

(** The replacements of a list of bindings, one after the other. *)
Definition replace_all (bs : list (string * string)) (text : string) : string :=
  fold_left (fun t kv => py_replace (placeholder (fst kv)) (snd kv) t) bs text.

(* ================================================================== *)
(** ** Reading a trace and a store *)

Definition campaign_writes (tr : list Event) : list (string * CampaignSet) :=
  flat_map (fun e => match e with
                     | EvCampaignUpdate cid upd => [(cid, upd)]
                     | _ => []
                     end) tr.

(** The campaign status values written, in order. *)
Definition status_writes (tr : list Event) : list string :=
  flat_map (fun cu => match set_status (snd cu) with
                      | Some s => [s]
                      | None => []
                      end) (campaign_writes tr).

(** The messages handed to the provider, in order. *)
Definition sends (tr : list Event) : list Mail :=
  flat_map (fun e => match e with
                     | EvSend m => [m]
                     | _ => []
                     end) tr.

(** Whether a provider call counts as a success: only a 202 does. *)
Definition send_ok (o : SendOutcome) : bool :=
  match o with
  | Responded code => (code =? 202)%Z
  | SendRaised _ => false
  end.

Definition status_of (ok : bool) : string :=
  if ok then "sent" else "failed".

(** The status write of one recipient on the recipient collection. *)
Definition mark (docs : list Recipient) (p : Recipient * bool)
  : list Recipient :=
  update_first (has_recipient_id (r_id (fst p)))
               (with_status (status_of (snd p))) docs.

Definition mark_all (pairs : list (Recipient * bool)) (docs : list Recipient)
  : list Recipient :=
  fold_left mark pairs docs.

Definition count_ok (oks : list bool) : Z :=
  Z.of_nat (List.length (filter (fun b => b) oks)).

Definition count_failed (oks : list bool) : Z :=
  Z.of_nat (List.length (filter negb oks)).

(** The successes of the sends to [selected], the first of them being the
    provider's call number [n]. *)
Fixpoint send_oks (sender_email : option string)
  (sg_send : nat -> Mail -> SendOutcome) (campaign : Campaign) (n : nat)
  (selected : list Recipient) : list bool :=
  match selected with
  | [] => []
  | r :: rest =>
      send_ok (sg_send n (message_for sender_email r campaign))
      :: send_oks sender_email sg_send campaign (S n) rest
  end.

(** The batches of the loop of lines 182-183. *)
Definition batches {A} (selected : list A) : list (list A) :=
  map (fun i => slice selected i (i + batch_size))
      (range 0 (List.length selected) batch_size).

(** The pending recipients of a campaign and the ones a run selects. *)
Definition pending_of (campaign_id : string) (w : World) : list Recipient :=
  filter (in_campaign_with_status campaign_id "pending") (recipients w).

Definition selected_of (campaign_id : string) (test_mode : bool) (w : World)
  : list Recipient :=
  select_recipients test_mode (pending_of campaign_id w).

(** Whether the address of a stored document validates, and the recipient
    that line 171 builds from the document when it does: the document
    with the address the validator returns. *)
Definition doc_valid (validate_email : string -> exn + string)
  (doc : Recipient) : bool :=
  match validate_email (r_email doc) with
  | inr _ => true
  | inl _ => false
  end.

Definition model_of (validate_email : string -> exn + string)
  (doc : Recipient) : Recipient :=
  match validate_email (r_email doc) with
  | inr email => with_email email doc
  | inl _ => doc
  end.

(** The provider calls of a trace in rounds: a round is a run of calls
    that no store write and no pause interrupts (the log entry of a call
    that raised does not end it). *)
Definition is_call (e : Event) : bool :=
  match e with
  | EvSend _ | EvLog _ _ => true
  | _ => false
  end.

Definition close_round (cur : list Mail) : list (list Mail) :=
  match cur with
  | [] => []
  | _ :: _ => [cur]
  end.

Fixpoint rounds_from (cur : list Mail) (tr : list Event) : list (list Mail) :=
  match tr with
  | [] => close_round cur
  | EvSend m :: rest => rounds_from (cur ++ [m])%list rest
  | EvLog _ _ :: rest => rounds_from cur rest
  | _ :: rest => (close_round cur ++ rounds_from [] rest)%list
  end.

Definition send_rounds (tr : list Event) : list (list Mail) :=
  rounds_from [] tr.

(** The pauses of a trace. *)
Definition sleeps (tr : list Event) : list nat :=
  flat_map (fun e => match e with
                     | EvSleep s => [s]
                     | _ => []
                     end) tr.

(** A step that leaves the campaign collection, the clock and the
    campaign writes of the trace as they are. *)
Definition quiet_step (w w' : World) : Prop :=
  campaigns w' = campaigns w
  /\ clock w' = clock w
  /\ campaign_writes (trace w') = campaign_writes (trace w).

Definition quiet {A} (m : M A) : Prop :=
  forall w w' r, m w = (w', r) -> quiet_step w w'.

(** No store operation faults. *)
Definition store_up (db_fault : nat -> option exn) : Prop :=
  forall n, db_fault n = None.

(** What [record_results] makes of a settled task: only a task that
    returned [True] counts as sent. *)
Definition settled_ok (x : exn + bool) : bool :=
  match x with
  | inr true => true
  | _ => false
  end.

(** The world after one more store operation was issued. *)
Definition bump (w : World) : World :=
  mkWorld (campaigns w) (recipients w) (clock w) (S (db_ops w)) (sg_calls w)
          (trace w).

(** [w'] is [w] after the recipients [sel] were sent to and recorded. *)
Definition processed (sender_email : option string)
  (sg_send : nat -> Mail -> SendOutcome) (campaign : Campaign)
  (sel : list Recipient) (w w' : World) : Prop :=
  campaigns w' = campaigns w
  /\ clock w' = clock w
  /\ recipients w'
     = mark_all (combine sel (send_oks sender_email sg_send campaign
                                       (sg_calls w) sel))
                (recipients w)
  /\ sg_calls w' = sg_calls w + List.length sel
  /\ sends (trace w')
     = (sends (trace w) ++ map (fun r => message_for sender_email r campaign) sel)%list
  /\ campaign_writes (trace w') = campaign_writes (trace w).

(** The campaign collection after a [$set] on the campaign [cid]. *)
Definition campaigns_after (cid : string) (upd : CampaignSet)
  (cs : list Campaign) : list Campaign :=
  update_first (has_campaign_id cid) (apply_set upd) cs.

(** How the body of the [try] can end, seen from the campaign collection
    and the campaign writes of the trace: the campaign is not there; a
    fault before [sending] was written; a fault after it; or the terminal
    write. *)
Inductive body_shape (db_fault : nat -> option exn) (cid : string) (w : World)
  : World -> result unit -> Prop :=
| body_not_found (w' : World) :
    db_fault (db_ops w) = None ->
    find (has_campaign_id cid) (campaigns w) = None ->
    campaigns w' = campaigns w ->
    campaign_writes (trace w') = campaign_writes (trace w) ->
    body_shape db_fault cid w w' (Returned tt)
| body_fault_early (w' : World) (e : exn) :
    db_fault (db_ops w) = Some e
    \/ (db_fault (db_ops w) = None /\ db_fault (S (db_ops w)) = Some e) ->
    campaigns w' = campaigns w ->
    campaign_writes (trace w') = campaign_writes (trace w) ->
    body_shape db_fault cid w w' (Raised e)
| body_fault_late (w' : World) (e : exn) :
    db_fault (db_ops w) = None ->
    db_fault (S (db_ops w)) = None ->
    find (has_campaign_id cid) (campaigns w) <> None ->
    campaigns w' = campaigns_after cid (sending_set (clock w)) (campaigns w) ->
    campaign_writes (trace w')
    = (campaign_writes (trace w) ++ [(cid, sending_set (clock w))])%list ->
    body_shape db_fault cid w w' (Raised e)
| body_done (w' : World) (sent_count failed_count : Z) :
    db_fault (db_ops w) = None ->
    db_fault (S (db_ops w)) = None ->
    find (has_campaign_id cid) (campaigns w) <> None ->
    campaigns w'
    = campaigns_after cid
        (final_set (final_status_of failed_count) sent_count failed_count
                   (S (clock w)))
        (campaigns_after cid (sending_set (clock w)) (campaigns w)) ->
    campaign_writes (trace w')
    = (campaign_writes (trace w)
       ++ [(cid, sending_set (clock w));
           (cid, final_set (final_status_of failed_count) sent_count
                           failed_count (S (clock w)))])%list ->
    body_shape db_fault cid w w' (Returned tt).

(** The world after the clock was read. *)
Definition tick (w : World) : World :=
  mkWorld (campaigns w) (recipients w) (S (clock w)) (db_ops w) (sg_calls w)
          (trace w).

(** Two campaign documents that differ at most in [status] and
    [updated_at]. *)
Definition same_but_status_time (c c' : Campaign) : Prop :=
  c_id c' = c_id c
  /\ c_name c' = c_name c
  /\ c_subject c' = c_subject c
  /\ c_content c' = c_content c
  /\ c_sender_name c' = c_sender_name c
  /\ c_total_recipients c' = c_total_recipients c
  /\ c_sent_count c' = c_sent_count c
  /\ c_failed_count c' = c_failed_count c
  /\ c_template_id c' = c_template_id c
  /\ c_ai_generated c' = c_ai_generated c
  /\ c_created_at c' = c_created_at c.

(** The status sequence of a run as the specification words it: first
    [sending], then exactly one terminal status. *)
Definition sending_then_terminal (written : list string) : Prop :=
  exists t, written = ["sending"; t]
            /\ (t = "completed" \/ t = "completed_with_errors" \/ t = "failed").

(* ================================================================== *)
(** ** Sample data *)

Module Sample.

Definition campaign : Campaign :=
  mkCampaign "c1" "Launch" "Hi {{name}}" "Dear {{name}} of {{city}}"
             "Mass Mailer" "draft" 3 0 0 None false 0 0.

Definition recipient (id name : string) : Recipient :=
  mkRecipient id (id ++ "@example.org") (Some name)
              (Some [("city", PStr "Lima")]) (Some "c1") "pending" 0.

Definition ana : Recipient := recipient "r1" "Ana".
Definition bo : Recipient := recipient "r2" "Bo".
Definition cy : Recipient := recipient "r3" "Cy".

(** One campaign, three pending recipients, nothing has happened yet. *)
Definition world : World := mkWorld [campaign] [ana; bo; cy] 100 0 0 [].

(** A store that holds no campaign at all. *)
Definition empty_world : World := mkWorld [] [] 100 0 0 [].

Definition store_ok : nat -> option exn := fun _ => None.
Definition store_down : nat -> option exn := fun _ => Some "store unavailable".

(** The store faults on its operation number [k] only. *)
Definition store_faults_at (k : nat) : nat -> option exn :=
  fun n => if (n =? k)%nat then Some "store unavailable" else None.

Definition provider_ok : nat -> Mail -> SendOutcome :=
  fun _ _ => Responded 202.

(** The provider raises on its call number 0 and accepts the others. *)
Definition provider_faults_first : nat -> Mail -> SendOutcome :=
  fun n _ => if (n =? 0)%nat then SendRaised "connection reset"
             else Responded 202.

(** The same, but the first call is answered with a 500. *)
Definition provider_rejects_first : nat -> Mail -> SendOutcome :=
  fun n _ => if (n =? 0)%nat then Responded 500 else Responded 202.

(** A recipient whose name is the empty string. *)
Definition blank : Recipient :=
  mkRecipient "r4" "r4@example.org" (Some EmptyString) None (Some "c1")
              "pending" 0.

(** A recipient without a name whose metadata has one value that is
    itself a placeholder. *)
Definition chained : Recipient :=
  mkRecipient "r5" "r5@example.org" None
              (Some [("a", PStr "{{b}}"); ("b", PStr "x")]) (Some "c1")
              "pending" 0.

(** A recipient without a name whose metadata names it, with a number
    among the values. *)
Definition by_metadata : Recipient :=
  mkRecipient "r6" "r6@example.org" None
              (Some [("name", PStr "Dee"); ("age", PInt 30)]) (Some "c1")
              "pending" 0.

(** The campaign after an earlier run, with three new pending
    recipients. *)
Definition campaign_rerun : Campaign :=
  mkCampaign "c1" "Launch" "Hi {{name}}" "Dear {{name}} of {{city}}"
             "Mass Mailer" "completed_with_errors" 8 4 1 None false 0 50.

Definition world_rerun : World :=
  mkWorld [campaign_rerun] [ana; bo; cy] 100 0 0 [].

(** A recipient without a name whose one metadata key holds braces, and
    one whose metadata names it with a value that is itself a
    placeholder. *)
Definition braced : Recipient :=
  mkRecipient "r9" "r9@example.org" None
              (Some [("name}} {{x", PStr "v")]) (Some "c1") "pending" 0.

Definition relayed : Recipient :=
  mkRecipient "r10" "r10@example.org" None
              (Some [("name", PStr "{{z}}"); ("z", PStr "q")]) (Some "c1")
              "pending" 0.

(** A validator that asks for an at sign and returns the address as it
    is, and the text of the complaints. *)
Definition validator : string -> exn + string :=
  fun s => if occurs "@" s then inr s
           else inl "value is not a valid email address".

Definition complaint : list exn -> exn := String.concat "; ".

(** [n] pending recipients of the campaign, with ids 0, 1, ... *)
Definition crowd (n : nat) : list Recipient :=
  map (fun k => recipient (py_str (PInt (Z.of_nat k))) "N") (seq 0 n).

Definition world_of (n : nat) : World :=
  mkWorld [campaign] (crowd n) 100 0 0 [].

(** A pending recipient whose stored address does not validate, between
    two that do. *)
Definition stray : Recipient :=
  mkRecipient "r7" "not an address" (Some "Stray") None (Some "c1")
              "pending" 0.

Definition world_stray : World :=
  mkWorld [campaign] [ana; stray; cy] 100 0 0 [].

End Sample.

(* ================================================================== *)
(** ** The routes around the engine

    The routes read and write the same two collections.  A route answers
    with a value or with an [HTTPException]; a fault of the store that
    the route does not catch leaves it as a raised exception.  The trace
    stays the record of what the dispatch engine does: the writes of the
    routes show in the collections. *)

Inductive response (A : Type) : Type :=
| Respond (a : A)
| HTTPException (status_code : Z) (detail : string).
Arguments Respond {A} a.
Arguments HTTPException {A} status_code detail.

Record CampaignCreate : Type := mkCampaignCreate {
  cc_name : string;
  cc_subject : string;
  cc_content : string;
  cc_sender_name : string;
  cc_template_id : option string
}.

Record RecipientCreate : Type := mkRecipientCreate {
  rc_email : string;
  rc_name : option string;
  rc_metadata : option (list (string * pyval))
}.

Record BulkEmailRequest : Type := mkBulkEmailRequest {
  req_campaign_id : string;
  req_test_mode : bool
}.

(** A task handed to [background_tasks.add_task]: the arguments of
    [process_bulk_email_campaign]. *)
Definition Task : Type := (string * bool)%type.

(** The answer of [send_bulk_email]. *)
Record SendAck : Type := mkSendAck {
  ack_message : string;
  ack_campaign_id : string;
  ack_total_recipients : Z;
  ack_test_mode : bool;
  ack_status : string
}.

(** The answer of [upload_recipients_csv]. *)
Record CsvReport : Type := mkCsvReport {
  recipients_added : Z;
  errors : list string;
  total_errors : Z
}.

(** The four counts of [get_campaign_analytics]. *)
Record AnalyticsCounts : Type := mkAnalyticsCounts {
  an_total_recipients : Z;
  an_sent_count : Z;
  an_failed_count : Z;
  an_pending_count : Z
}.

(** A row of [csv.DictReader]: the value of every header field ([None]
    where the line is short), and what a long line holds beyond the
    header, which the reader files under the key [None]. *)
Record CsvRow : Type := mkCsvRow {
  row_fields : list (string * option string);
  row_rest : list string
}.

(** The filter [{"campaign_id": cid}]. *)
Definition in_campaign (cid : string) (r : Recipient) : bool :=
  match r_campaign_id r with
  | Some c => String.eqb c cid
  | None => false
  end.

(** [$inc] of [total_recipients]. *)
Definition add_total (n : Z) (c : Campaign) : Campaign :=
  mkCampaign (c_id c) (c_name c) (c_subject c) (c_content c) (c_sender_name c)
    (c_status c) (c_total_recipients c + n)%Z (c_sent_count c)
    (c_failed_count c) (c_template_id c) (c_ai_generated c) (c_created_at c)
    (c_updated_at c).

(** [row.get(key)]. *)
Fixpoint row_get (key : string) (fields : list (string * option string))
  : option (option string) :=
  match fields with
  | [] => None
  | (k, v) :: rest => if String.eqb k key then Some v else row_get key rest
  end.

(** Lines 412-414: the columns other than email and name that hold a
    non-empty value. *)
Definition is_metadata_column (kv : string * option string) : bool :=
  negb (String.eqb (fst kv) "email" || String.eqb (fst kv) "name")
  && truthy (snd kv).

Definition row_metadata (fields : list (string * option string))
  : list (string * pyval) :=
  map (fun kv => (fst kv, PStr (or_else (snd kv) EmptyString)))
      (filter is_metadata_column fields).

(** [s.endswith(suffix)]. *)
Definition ends_with (suffix s : string) : bool :=
  (String.length suffix <=? String.length s)%nat
  && String.eqb (substring (String.length s - String.length suffix)
                           (String.length suffix) s)
                suffix.

Definition row_label (row_num : nat) : string :=
  "Row " ++ py_str (PInt (Z.of_nat row_num)) ++ ": ".

Section Routes.

Variable db_fault : nat -> option exn.

(** What validating an address as [EmailStr] gives: the address as it is
    stored, or the complaint. *)
Variable validate_email : string -> exn + string.

(** The text of a [ValidationError] with these complaints. *)
Variable validation_message : list exn -> exn.

(** [db.campaigns.insert_one(doc)]. *)
Definition campaigns_insert_one (doc : Campaign) : M unit :=
  db_call db_fault ;;
  fun w =>
    (mkWorld (campaigns w ++ [doc]) (recipients w) (clock w) (db_ops w)
             (sg_calls w) (trace w),
     Returned tt).

(** [db.recipients.insert_one(doc)]. *)
Definition recipients_insert_one (doc : Recipient) : M unit :=
  db_call db_fault ;;
  fun w =>
    (mkWorld (campaigns w) (recipients w ++ [doc]) (clock w) (db_ops w)
             (sg_calls w) (trace w),
     Returned tt).

(** [db.campaigns.update_one({"id": cid}, {"$inc": {"total_recipients": n}})]. *)
Definition campaigns_inc_total (cid : string) (n : Z) : M unit :=
  db_call db_fault ;;
  fun w =>
    (mkWorld (update_first (has_campaign_id cid) (add_total n) (campaigns w))
             (recipients w) (clock w) (db_ops w) (sg_calls w) (trace w),
     Returned tt).

(** [db.recipients.count_documents(filter)]. *)
Definition recipients_count_documents (p : Recipient -> bool) : M Z :=
  db_call db_fault ;;
  fun w => (w, Returned (Z.of_nat (List.length (filter p (recipients w))))).

(** [create_campaign]: the new campaign takes the defaults of the model;
    [created_at] and [updated_at] are two readings of the clock. *)
Definition create_campaign (campaign : CampaignCreate) (new_id : string)
  : M Campaign :=
  t <- now ;;
  t1 <- now ;;
  let new_campaign :=
    mkCampaign new_id (cc_name campaign) (cc_subject campaign)
               (cc_content campaign) (cc_sender_name campaign) "draft"
               0 0 0 (cc_template_id campaign) false t t1 in
  campaigns_insert_one new_campaign ;;
  ret new_campaign.

(** [get_campaign]. *)
Definition get_campaign (campaign_id : string) : M (response Campaign) :=
  campaign <- campaigns_find_one db_fault campaign_id ;;
  match campaign with
  | None => ret (HTTPException 404 "Campaign not found")
  | Some c => ret (Respond c)
  end.

(** [add_recipient]. *)
Definition add_recipient (campaign_id : string) (recipient : RecipientCreate)
  (new_id : string) : M (response Recipient) :=
  campaign <- campaigns_find_one db_fault campaign_id ;;
  match campaign with
  | None => ret (HTTPException 404 "Campaign not found")
  | Some _ =>
      t <- now ;;
      let new_recipient :=
        mkRecipient new_id (rc_email recipient) (rc_name recipient)
                    (rc_metadata recipient) (Some campaign_id) "pending" t in
      recipients_insert_one new_recipient ;;
      campaigns_inc_total campaign_id 1 ;;
      ret (Respond new_recipient)
  end.

(** [Recipient(email=..., name=..., metadata=..., campaign_id=...)] of line
    416: the address must validate, and a metadata key must be a string,
    which the key [None] of a long row is not. *)
Definition build_recipient (new_id email : string) (name : option string)
  (metadata : list (string * pyval)) (rest : list string)
  (campaign_id : string) (t : timestamp) : exn + Recipient :=
  let complaints :=
    (match validate_email email with
     | inl e => [e]
     | inr _ => []
     end
     ++ match rest with
        | [] => []
        | _ :: _ => ["none is not an allowed value"]
        end)%list in
  match complaints, validate_email email with
  | [], inr stored =>
      inr (mkRecipient new_id stored name (Some metadata) (Some campaign_id)
                       "pending" t)
  | _, _ => inl (validation_message complaints)
  end.

(** Lines 401-427: one row.  The state is (recipients_added, errors). *)
Definition import_row (campaign_id : string) (new_id : string)
  (row_num : nat) (row : CsvRow) (state : Z * list string)
  : M (Z * list string) :=
  try_catch
    (match row_get "email" (row_fields row) with
     | Some (Some (String a email')) =>
         let email := String a email' in
         let name := or_else (row_get "name" (row_fields row))
                             (Some EmptyString) in
         let metadata := row_metadata (row_fields row) in
         t <- now ;;
         match build_recipient new_id email
                 (if truthy name then name else None) metadata (row_rest row)
                 campaign_id t with
         | inl e => fun w => (w, Raised e)
         | inr recipient =>
             recipients_insert_one recipient ;;
             ret ((fst state + 1)%Z, snd state)
         end
     | _ =>
         ret (fst state,
              (snd state ++ [(row_label row_num ++ "Missing email")%string])%list)
     end)
    (fun e => ret (fst state,
                     (snd state ++ [(row_label row_num ++ e)%string])%list)).

(** Line 400: the loop over [enumerate(csv_reader, 1)]. *)
Fixpoint import_rows (campaign_id : string) (new_ids : nat -> string)
  (row_num : nat) (rows : list CsvRow) (state : Z * list string)
  : M (Z * list string) :=
  match rows with
  | [] => ret state
  | row :: rest =>
      state1 <- import_row campaign_id (new_ids row_num) row_num row state ;;
      import_rows campaign_id new_ids (S row_num) rest state1
  end.

(** [upload_recipients_csv].  [rows] are the rows the reader yields from
    the upload and [reader_fault] the fault, if any, that reading,
    decoding or parsing raises after them. *)
Definition upload_recipients_csv (campaign_id filename : string)
  (rows : list CsvRow) (reader_fault : option exn) (new_ids : nat -> string)
  : M (response CsvReport) :=
  campaign <- campaigns_find_one db_fault campaign_id ;;
  match campaign with
  | None => ret (HTTPException 404 "Campaign not found")
  | Some _ =>
      if negb (ends_with ".csv" filename)
      then ret (HTTPException 400 "File must be a CSV")
      else
        try_catch
          (state <- import_rows campaign_id new_ids 1 rows (0%Z, []) ;;
           match reader_fault with
           | Some e => fun w => (w, Raised e)
           | None =>
               campaigns_inc_total campaign_id (fst state) ;;
               ret (Respond (mkCsvReport (fst state) (snd state)
                               (Z.of_nat (List.length (snd state)))))
           end)
          (fun e =>
             ret (HTTPException 500 ("Error processing CSV: " ++ e)))
  end.

(** [send_bulk_email]: the answer and the background tasks after it. *)
Definition send_bulk_email (campaign_id : string) (request : BulkEmailRequest)
  (background_tasks : list Task) : M (response SendAck * list Task) :=
  campaign <- campaigns_find_one db_fault campaign_id ;;
  match campaign with
  | None => ret (HTTPException 404 "Campaign not found", background_tasks)
  | Some _ =>
      recipient_count <- recipients_count_documents (in_campaign campaign_id) ;;
      if (recipient_count =? 0)%Z
      then ret (HTTPException 400 "Campaign has no recipients",
                background_tasks)
      else
        ret (Respond (mkSendAck "Email campaign started" campaign_id
                                recipient_count (req_test_mode request)
                                "sending"),
             (background_tasks
              ++ [(campaign_id, req_test_mode request)])%list)
  end.

(** Lines 479-487 of [get_campaign_analytics]: the lookup and the four
    counts.  The two rates the route derives from them are floating-point
    numbers and are left out. *)
Definition get_campaign_analytics_counts (campaign_id : string)
  : M (response AnalyticsCounts) :=
  campaign <- campaigns_find_one db_fault campaign_id ;;
  match campaign with
  | None => ret (HTTPException 404 "Campaign not found")
  | Some _ =>
      total <- recipients_count_documents (in_campaign campaign_id) ;;
      sent <- recipients_count_documents
                (in_campaign_with_status campaign_id "sent") ;;
      failed <- recipients_count_documents
                  (in_campaign_with_status campaign_id "failed") ;;
      pending <- recipients_count_documents
                   (in_campaign_with_status campaign_id "pending") ;;
      ret (Respond (mkAnalyticsCounts total sent failed pending))
  end.

End Routes.

(** A recipient document after a run: as it was, or with its status set
    to sent or to failed. *)
Definition status_moved (r r' : Recipient) : Prop :=
  r' = r \/ r' = with_status "sent" r \/ r' = with_status "failed" r.

(** A computation all of whose steps stay inside a relation on worlds. *)
Definition respects {A} (R : World -> World -> Prop) (m : M A) : Prop :=
  forall w w' r, m w = (w', r) -> R w w'.

(** The recipient collection moved by status only. *)
Definition docs_moved (w w' : World) : Prop :=
  Forall2 status_moved (recipients w) (recipients w').

(** No provider call was made. *)
Definition no_send (w w' : World) : Prop :=
  sends (trace w') = sends (trace w).

(** Neither a provider call nor a write on the recipient collection. *)
Definition no_send_no_mark (w w' : World) : Prop :=
  sends (trace w') = sends (trace w) /\ recipients w' = recipients w.

(** The number of recipients of a campaign in a status, as
    [count_documents] gives it. *)
Definition count_status (cid status : string) (docs : list Recipient) : Z :=
  Z.of_nat (List.length (filter (in_campaign_with_status cid status) docs)).

(** The difference between the campaign's [total_recipients] and the
    number of recipient documents that name the campaign. *)
Definition enrolment_gap (cid : string) (w : World) : option Z :=
  match find (has_campaign_id cid) (campaigns w) with
  | Some c =>
      Some (c_total_recipients c
            - Z.of_nat (List.length (filter (in_campaign cid) (recipients w))))%Z
  | None => None
  end.

(** What [upload_recipients_csv] stores for a row: a pending recipient of
    the campaign whose name is absent or non-empty and whose metadata
    holds neither the email nor the name column nor an empty value. *)
Definition imported_ok (cid : string) (r : Recipient) : Prop :=
  r_campaign_id r = Some cid
  /\ r_status r = "pending"
  /\ r_name r <> Some EmptyString
  /\ exists md, r_metadata r = Some md
       /\ Forall (fun kv => fst kv <> "email" /\ fst kv <> "name"
                            /\ exists c s, snd kv = PStr (String c s)) md.

(** What a run leaves of a campaign document: everything when the
    document is not the one of the campaign [cid], and in any case all
    but status, counters and [updated_at]. *)
Definition campaign_kept (cid : string) (c c' : Campaign) : Prop :=
  (c_id c <> cid -> c' = c)
  /\ c_id c' = c_id c
  /\ c_name c' = c_name c
  /\ c_subject c' = c_subject c
  /\ c_content c' = c_content c
  /\ c_sender_name c' = c_sender_name c
  /\ c_total_recipients c' = c_total_recipients c
  /\ c_template_id c' = c_template_id c
  /\ c_ai_generated c' = c_ai_generated c
  /\ c_created_at c' = c_created_at c.

(* ================================================================== *)
(** * Properties *)

(** ** Strings *)

Module StrFacts.

Local Arguments Ascii.eqb : simpl never.

Lemma sapp_assoc (a b c : string) : (a ++ b) ++ c = a ++ (b ++ c).
Proof. induction a as [|x a IH]; simpl; [reflexivity | now rewrite IH]. Qed.

Lemma slength_app (a b : string) :
  String.length (a ++ b) = String.length a + String.length b.
Proof. induction a as [|x a IH]; simpl; [reflexivity | now rewrite IH]. Qed.

Lemma starts_with_app (p r : string) : starts_with p (p ++ r) = true.
Proof.
  induction p as [|a p IH]; simpl; [reflexivity|].
  now rewrite Ascii.eqb_refl.
Qed.

Lemma starts_with_split (p s : string) :
  starts_with p s = true -> exists r, s = p ++ r.
Proof.
  revert s; induction p as [|a p IH]; intros s H; simpl in *.
  - now exists s.
  - destruct s as [|b s]; [discriminate|].
    destruct (Ascii.eqb_spec a b) as [->|]; [|discriminate].
    destruct (IH _ H) as [r ->]. now exists r.
Qed.

Lemma starts_with_app_l (p s x : string) :
  starts_with p s = true -> starts_with p (s ++ x) = true.
Proof.
  intros H. destruct (starts_with_split _ _ H) as [r ->].
  rewrite sapp_assoc. apply starts_with_app.
Qed.

Lemma starts_with_within (q x y : string) :
  starts_with q (x ++ y) = true ->
  String.length q <= String.length x ->
  starts_with q x = true.
Proof.
  revert x; induction q as [|a q IH]; intros x H L; simpl in *.
  - reflexivity.
  - destruct x as [|b x]; simpl in *; [lia|].
    destruct (Ascii.eqb a b); [|discriminate].
    apply IH; [assumption | lia].
Qed.

(** A pattern without an opening brace that matches across the place
    where an opening brace stands ends before it. *)
Lemma no_open_match_short (q x y : string) :
  no_open q = true ->
  starts_with q (x ++ String lbrace y) = true ->
  String.length q <= String.length x.
Proof.
  revert x; induction q as [|a q IH]; intros x N H; simpl in *.
  - lia.
  - apply andb_prop in N as [Na Nq].
    destruct x as [|b x]; simpl in *.
    + destruct (Ascii.eqb_spec a lbrace) as [->|]; [discriminate Na|discriminate H].
    + destruct (Ascii.eqb a b); [|discriminate].
      specialize (IH _ Nq H). lia.
Qed.

Lemma no_brace_no_open (s : string) : no_brace s = true -> no_open s = true.
Proof.
  induction s as [|c s IH]; simpl; [reflexivity|].
  intros H. apply andb_prop in H as [H1 H2]. apply andb_prop in H1 as [H0 _].
  now rewrite H0, IH.
Qed.

Lemma no_open_app (a b : string) :
  no_open (a ++ b) = no_open a && no_open b.
Proof.
  induction a as [|c a IH]; simpl; [reflexivity|].
  now rewrite IH, andb_assoc.
Qed.

(** *** The scan of [str.replace] *)

Lemma replace_from_skip (old new a b : string) :
  replace_from old new (String.length a) (a ++ b) = replace_from old new 0 b.
Proof.
  induction a as [|c a IH]; simpl; [|exact IH].
  destruct b; reflexivity.
Qed.

(** At a match, the pattern is replaced and the scan goes on behind it. *)
Lemma replace_from_match (c : ascii) (o new r : string) :
  replace_from (String c o) new 0 (String c o ++ r)
  = new ++ replace_from (String c o) new 0 r.
Proof.
  change (String c o ++ r) with (String c (o ++ r)).
  cbn [replace_from].
  change (String c (o ++ r)) with (String c o ++ r).
  rewrite starts_with_app.
  replace (String.length (String c o) - 1) with (String.length o)
    by (cbn [String.length]; lia).
  now rewrite replace_from_skip.
Qed.

(** Where the pattern does not match, the character is copied. *)
Lemma replace_from_copy (old new : string) (c : ascii) (s : string) :
  starts_with old (String c s) = false ->
  replace_from old new 0 (String c s) = String c (replace_from old new 0 s).
Proof. intros H. cbn [replace_from]. now rewrite H. Qed.

(** A pattern that occurs nowhere changes nothing. *)
Lemma replace_from_absent (old new s : string) :
  occurs old s = false -> replace_from old new 0 s = s.
Proof.
  induction s as [|c s IH]; intros H; [reflexivity|].
  cbn [occurs] in H. apply orb_false_elim in H as [H1 H2].
  rewrite replace_from_copy by assumption. now rewrite IH.
Qed.

(** Text without an opening brace is copied by the scan for a pattern
    that starts with one. *)
Lemma replace_from_no_open (o new s rest : string) :
  no_open s = true ->
  replace_from (String lbrace o) new 0 (s ++ rest)
  = s ++ replace_from (String lbrace o) new 0 rest.
Proof.
  induction s as [|c s IH]; intros N; [reflexivity|].
  simpl in N. apply andb_prop in N as [Nc Ns].
  change (String c s ++ rest) with (String c (s ++ rest)).
  rewrite replace_from_copy.
  - simpl. now rewrite IH.
  - simpl. rewrite Ascii.eqb_sym.
    now destruct (Ascii.eqb c lbrace).
Qed.

(** *** Placeholders *)

Lemma placeholder_length (k : string) :
  String.length (placeholder k) = String.length k + 4.
Proof. unfold placeholder. simpl. rewrite slength_app. simpl. lia. Qed.

Lemma placeholder_starts_open (k s : string) :
  starts_with (placeholder k) s = true -> starts_with "{{" s = true.
Proof.
  unfold placeholder, lbrace. cbn [starts_with].
  destruct s as [|a s]; [discriminate|].
  destruct (Ascii.eqb "{" a); [|discriminate].
  destruct s as [|b s]; [discriminate|].
  destruct (Ascii.eqb "{" b); [reflexivity|discriminate].
Qed.

Lemma placeholder_occurs_open (k s : string) :
  occurs "{{" s = false -> occurs (placeholder k) s = false.
Proof.
  induction s as [|c s IH]; intros H.
  - reflexivity.
  - cbn [occurs] in *. apply orb_false_elim in H as [H1 H2].
    rewrite (IH H2), orb_false_r.
    destruct (starts_with (placeholder k) (String c s)) eqn:E; [|reflexivity].
    apply placeholder_starts_open in E. congruence.
Qed.

(** Two keys without braces that differ cannot be told apart only by
    what follows them. *)
Lemma key_tail_mismatch (k k' rest : string) :
  no_brace k = true -> no_brace k' = true -> k <> k' ->
  starts_with (k ++ String rbrace (String rbrace EmptyString))
              (k' ++ String rbrace rest) = false.
Proof.
  revert k'; induction k as [|a k IH]; intros k' N N' D.
  - destruct k' as [|b k']; [congruence|].
    simpl in N'. simpl.
    destruct (Ascii.eqb_spec rbrace b) as [<-|]; [|reflexivity].
    rewrite Ascii.eqb_refl in N'. rewrite andb_false_r in N'. discriminate.
  - simpl in N. apply andb_prop in N as [Na Nk]. apply andb_prop in Na as [_ Na].
    destruct k' as [|b k'].
    + simpl. destruct (Ascii.eqb_spec a rbrace) as [->|]; [discriminate|reflexivity].
    + simpl in N'. apply andb_prop in N' as [_ Nk'].
      simpl. destruct (Ascii.eqb_spec a b) as [->|]; [|reflexivity].
      apply IH; try assumption. congruence.
Qed.

Lemma placeholder_mismatch (k k' rest : string) :
  no_brace k = true -> no_brace k' = true -> k <> k' ->
  starts_with (placeholder k) (placeholder k' ++ rest) = false.
Proof.
  intros N N' D. unfold placeholder. simpl.
  rewrite sapp_assoc. simpl. now apply key_tail_mismatch.
Qed.

End StrFacts.
Import StrFacts.

(** ** Replacing placeholders *)

Module ReplaceFacts.

Local Arguments Ascii.eqb : simpl never.

Lemma py_replace_placeholder (k v s : string) :
  py_replace (placeholder k) v s = replace_from (placeholder k) v 0 s.
Proof. reflexivity. Qed.

Lemma replace_hole_same (k v rest : string) :
  replace_from (placeholder k) v 0 (placeholder k ++ rest)
  = v ++ replace_from (placeholder k) v 0 rest.
Proof. unfold placeholder. apply replace_from_match. Qed.

Lemma starts_open_no_open (x s rest : string) :
  no_open s = true -> s <> EmptyString ->
  starts_with (String lbrace x) (s ++ rest) = false.
Proof.
  destruct s as [|c s]; [congruence|]. intros N _.
  cbn [no_open] in N. apply andb_prop in N as [N _].
  cbn [append starts_with]. rewrite Ascii.eqb_sym.
  now destruct (Ascii.eqb c lbrace).
Qed.

Lemma key_close_no_open (k : string) :
  no_brace k = true ->
  no_open (k ++ String rbrace (String rbrace EmptyString)) = true.
Proof.
  intros N. rewrite no_open_app, (no_brace_no_open _ N). reflexivity.
Qed.

Lemma replace_hole_other (k k' v rest : string) :
  no_brace k = true -> no_brace k' = true -> k <> k' ->
  replace_from (placeholder k) v 0 (placeholder k' ++ rest)
  = placeholder k' ++ replace_from (placeholder k) v 0 rest.
Proof.
  intros N N' D.
  pose proof (placeholder_mismatch k k' rest N N' D) as M.
  set (tail := k' ++ String rbrace (String rbrace EmptyString)).
  assert (E : placeholder k' ++ rest
              = String lbrace (String lbrace (tail ++ rest))) by reflexivity.
  rewrite E in M |- *.
  rewrite (replace_from_copy _ _ _ _ M).
  assert (Nt : no_open tail = true) by now apply key_close_no_open.
  assert (Ne : tail <> EmptyString) by (subst tail; now destruct k').
  rewrite replace_from_copy.
  - unfold placeholder at 1 2.
    rewrite (replace_from_no_open _ _ _ _ Nt). reflexivity.
  - unfold placeholder. cbn [starts_with]. rewrite Ascii.eqb_refl.
    now apply starts_open_no_open.
Qed.

(** One replacement on a cut template fills the placeholders of its key. *)
Lemma replace_flatten (k v : string) (segs : list segment) :
  no_brace k = true ->
  forallb segment_ok segs = true ->
  py_replace (placeholder k) v (flatten segs)
  = flatten (map (fill [(k, v)]) segs).
Proof.
  intros N. rewrite py_replace_placeholder.
  induction segs as [|seg segs IH]; intros OK; [reflexivity|].
  cbn [forallb] in OK. apply andb_prop in OK as [Hseg Hrest].
  specialize (IH Hrest).
  destruct seg as [s|k']; cbn [map fill flatten lookup segment_ok] in *.
  - unfold placeholder at 1. rewrite (replace_from_no_open _ _ _ _ Hseg).
    fold (placeholder k). now rewrite IH.
  - destruct (String.eqb_spec k k') as [<-|D]; cbn [flatten].
    + rewrite replace_hole_same. now rewrite IH.
    + rewrite replace_hole_other by assumption. now rewrite IH.
Qed.

Lemma fill_ok (k v : string) (segs : list segment) :
  no_open v = true ->
  forallb segment_ok segs = true ->
  forallb segment_ok (map (fill [(k, v)]) segs) = true.
Proof.
  intros Nv. induction segs as [|seg segs IH]; intros OK; [reflexivity|].
  cbn [forallb map] in *. apply andb_prop in OK as [Hseg Hrest].
  rewrite (IH Hrest), andb_true_r.
  destruct seg as [s|k']; cbn [fill lookup]; [assumption|].
  now destruct (String.eqb k k').
Qed.

Lemma fill_cons (k v : string) (bs : list (string * string)) (seg : segment) :
  fill ((k, v) :: bs) seg = fill bs (fill [(k, v)] seg).
Proof.
  destruct seg as [s|k']; cbn [fill lookup]; [reflexivity|].
  now destruct (String.eqb k k').
Qed.

Lemma fill_nil (seg : segment) : fill [] seg = seg.
Proof. now destruct seg. Qed.

(** The replacements of well-formed bindings, one after the other, fill a
    cut template as one simultaneous substitution does. *)
Lemma replace_all_flatten (bs : list (string * string)) :
  forallb binding_ok bs = true ->
  forall segs, forallb segment_ok segs = true ->
  replace_all bs (flatten segs) = flatten (map (fill bs) segs).
Proof.
  induction bs as [|[k v] bs IH]; intros OKb segs OKs.
  - cbn [replace_all fold_left]. f_equal.
    rewrite (map_ext _ (fun x => x) fill_nil). now rewrite map_id.
  - cbn [forallb] in OKb. apply andb_prop in OKb as [Hkv Hbs].
    unfold binding_ok in Hkv. cbn [fst snd] in Hkv.
    apply andb_prop in Hkv as [Nk Nv].
    unfold replace_all in *. cbn [fold_left fst snd].
    rewrite replace_flatten by assumption.
    rewrite (IH Hbs) by now apply fill_ok.
    rewrite map_map. f_equal. apply map_ext. intros seg.
    symmetry. apply fill_cons.
Qed.

Lemma metadata_steps_replace_all (items : list (string * pyval)) (t : string) :
  metadata_steps items t
  = replace_all (map (fun kv => (fst kv, py_str (snd kv))) items) t.
Proof.
  revert t. induction items as [|kv items IH]; intros t; [reflexivity|].
  unfold metadata_steps, replace_all in *. cbn [map fold_left fst snd].
  apply IH.
Qed.

(** The personaliser is the chain of replacements of its bindings. *)
Lemma personalize_replace_all (r : Recipient) (t : string) :
  personalize r t = replace_all (bindings r) t.
Proof.
  unfold personalize, name_step, bindings.
  rewrite metadata_steps_replace_all.
  destruct (truthy (r_name r)); [|reflexivity].
  destruct (r_name r); reflexivity.
Qed.

(** A pattern [{{k}}] cannot match across the start of another
    placeholder. *)
Lemma placeholder_no_straddle (k k0 a b : string) :
  no_brace k = true -> no_brace k0 = true -> k <> k0 ->
  starts_with (placeholder k) (a ++ placeholder k0 ++ b) = true ->
  String.length (placeholder k) <= String.length a.
Proof.
  intros N N0 D H.
  destruct a as [|c a].
  - cbn [append] in H. now rewrite placeholder_mismatch in H.
  - set (tail := k ++ String rbrace (String rbrace EmptyString)) in *.
    assert (Nt : no_open tail = true) by now apply key_close_no_open.
    assert (Lt : String.length tail = String.length k + 2)
      by (subst tail; rewrite slength_app; reflexivity).
    assert (Lp : String.length (placeholder k) = String.length tail + 2)
      by (rewrite placeholder_length; lia).
    rewrite Lp. unfold placeholder in H. fold tail in H.
    cbn [append starts_with] in H.
    destruct (Ascii.eqb lbrace c); [|discriminate].
    destruct a as [|c2 a].
    + cbn [append starts_with] in H. rewrite Ascii.eqb_refl in H.
      pose proof (no_open_match_short tail EmptyString _ Nt H) as L.
      cbn [String.length] in L. lia.
    + cbn [append starts_with] in H.
      destruct (Ascii.eqb lbrace c2); [|discriminate].
      pose proof (no_open_match_short tail a _ Nt H) as L.
      cbn [String.length]. lia.
Qed.

(** So a placeholder of another key stays where it is, and the text
    before and behind it is rewritten on its own. *)
Lemma replace_from_keeps_placeholder (k k0 v b : string) :
  no_brace k = true -> no_brace k0 = true -> k <> k0 ->
  forall a skip, skip <= String.length a ->
  replace_from (placeholder k) v skip (a ++ placeholder k0 ++ b)
  = replace_from (placeholder k) v skip a
    ++ placeholder k0 ++ replace_from (placeholder k) v 0 b.
Proof.
  intros N N0 D. induction a as [|c a IH]; intros skip L.
  - cbn [String.length] in L. replace skip with 0 by lia.
    cbn [append]. now apply replace_hole_other.
  - destruct skip as [|j].
    + change (String c a ++ placeholder k0 ++ b)
        with (String c (a ++ placeholder k0 ++ b)).
      destruct (starts_with (placeholder k) (String c (a ++ placeholder k0 ++ b)))
        eqn:E.
      * pose proof (placeholder_no_straddle k k0 (String c a) b N N0 D E) as Ls.
        pose proof (starts_with_within _ (String c a) _ E Ls) as Ea.
        cbn [replace_from]. rewrite E, Ea.
        cbn [String.length] in Ls.
        rewrite IH by lia. now rewrite sapp_assoc.
      * assert (Ea : starts_with (placeholder k) (String c a) = false).
        { destruct (starts_with (placeholder k) (String c a)) eqn:Ea;
            [|reflexivity].
          apply (starts_with_app_l _ _ (placeholder k0 ++ b)) in Ea.
          cbn [append] in Ea. congruence. }
        rewrite !replace_from_copy by assumption.
        rewrite IH by lia. reflexivity.
    + cbn [String.length] in L. cbn [append replace_from].
      apply IH. lia.
Qed.

Lemma replace_all_keeps_placeholder (k0 : string) (bs : list (string * string)) :
  no_brace k0 = true ->
  (forall kv, In kv bs -> no_brace (fst kv) = true /\ fst kv <> k0) ->
  forall a b,
  replace_all bs (a ++ placeholder k0 ++ b)
  = replace_all bs a ++ placeholder k0 ++ replace_all bs b.
Proof.
  intros N0. induction bs as [|[k v] bs IH]; intros OK a b; [reflexivity|].
  unfold replace_all in *. cbn [fold_left fst snd].
  destruct (OK (k, v) (or_introl eq_refl)) as [Nk Dk]. cbn [fst] in *.
  rewrite !py_replace_placeholder.
  rewrite replace_from_keeps_placeholder by (assumption || lia).
  apply IH. intros kv Hin. apply OK. now right.
Qed.

(** A text without [{{] is left alone by every chain of replacements. *)
Lemma replace_all_absent (bs : list (string * string)) (t : string) :
  occurs "{{" t = false -> replace_all bs t = t.
Proof.
  intros H. induction bs as [|[k v] bs IH]; [reflexivity|].
  unfold replace_all in *. cbn [fold_left fst snd].
  rewrite py_replace_placeholder.
  rewrite replace_from_absent by now apply placeholder_occurs_open.
  exact IH.
Qed.

End ReplaceFacts.
Import ReplaceFacts.

(** ** Computations *)

Module MonadFacts.

Lemma bind_inv {A B} (m : M A) (k : A -> M B) (w w' : World) (r : result B) :
  bind m k w = (w', r) ->
  (exists w1 a, m w = (w1, Returned a) /\ k a w1 = (w', r))
  \/ (exists e, m w = (w', Raised e) /\ r = Raised e).
Proof.
  unfold bind. destruct (m w) as [w1 [a|e]]; intros H.
  - left. now exists w1, a.
  - right. injection H as <- <-. now exists e.
Qed.

Lemma bind_returned {A B} (m : M A) (k : A -> M B) (w w1 : World) (a : A) :
  m w = (w1, Returned a) -> bind m k w = k a w1.
Proof. unfold bind. now intros ->. Qed.

Lemma try_catch_inv {A} (m : M A) (h : exn -> M A) (w w' : World)
  (r : result A) :
  try_catch m h w = (w', r) ->
  (exists a, m w = (w', Returned a) /\ r = Returned a)
  \/ (exists w1 e, m w = (w1, Raised e) /\ h e w1 = (w', r)).
Proof.
  unfold try_catch. destruct (m w) as [w1 [a|e]]; intros H.
  - left. injection H as <- <-. now exists a.
  - right. now exists w1, e.
Qed.

Lemma quiet_step_refl (w : World) : quiet_step w w.
Proof. now repeat split. Qed.

Lemma quiet_step_trans (w1 w2 w3 : World) :
  quiet_step w1 w2 -> quiet_step w2 w3 -> quiet_step w1 w3.
Proof.
  intros (A1 & B1 & C1) (A2 & B2 & C2). repeat split; congruence.
Qed.

Lemma quiet_ret {A} (a : A) : quiet (ret a).
Proof. intros w w' r H. injection H as <- _. apply quiet_step_refl. Qed.

Lemma quiet_bind {A B} (m : M A) (k : A -> M B) :
  quiet m -> (forall a, quiet (k a)) -> quiet (bind m k).
Proof.
  intros Qm Qk w w' r H.
  destruct (bind_inv _ _ _ _ _ H) as [(w1 & a & H1 & H2)|(e & H1 & _)].
  - eapply quiet_step_trans; [exact (Qm _ _ _ H1)|exact (Qk _ _ _ _ H2)].
  - exact (Qm _ _ _ H1).
Qed.

Lemma campaign_writes_app (t1 t2 : list Event) :
  campaign_writes (t1 ++ t2) = (campaign_writes t1 ++ campaign_writes t2)%list.
Proof. apply flat_map_app. Qed.

Lemma sends_app (t1 t2 : list Event) :
  sends (t1 ++ t2) = (sends t1 ++ sends t2)%list.
Proof. apply flat_map_app. Qed.

Lemma quiet_emit (e : Event) :
  campaign_writes [e] = [] -> quiet (emit e).
Proof.
  intros He w w' r H. injection H as <- _.
  repeat split; cbn [campaigns clock trace].
  rewrite campaign_writes_app, He. apply app_nil_r.
Qed.

Lemma quiet_sleep (n : nat) : quiet (sleep n).
Proof. now apply quiet_emit. Qed.

End MonadFacts.
Import MonadFacts.

(** ** The operations of the engine *)

Section EngineFacts.

Variable sender_email : option string.
Variable db_fault : nat -> option exn.
Variable sg_send : nat -> Mail -> SendOutcome.

Lemma db_call_inv (w w' : World) (r : result unit) :
  db_call db_fault w = (w', r) ->
  w' = bump w
  /\ ((exists e, db_fault (db_ops w) = Some e /\ r = Raised e)
      \/ (db_fault (db_ops w) = None /\ r = Returned tt)).
Proof.
  unfold db_call. destruct (db_fault (db_ops w)) as [e|];
    intros H; injection H as <- <-; split; try reflexivity.
  - left. now exists e.
  - now right.
Qed.

Lemma quiet_step_bump (w : World) : quiet_step w (bump w).
Proof. now repeat split. Qed.

Lemma campaigns_find_one_inv (cid : string) (w w' : World)
  (r : result (option Campaign)) :
  campaigns_find_one db_fault cid w = (w', r) ->
  w' = bump w
  /\ ((exists e, db_fault (db_ops w) = Some e /\ r = Raised e)
      \/ (db_fault (db_ops w) = None
          /\ r = Returned (find (has_campaign_id cid) (campaigns w)))).
Proof.
  unfold campaigns_find_one. intros H.
  destruct (bind_inv _ _ _ _ _ H) as [(w1 & [] & H1 & H2)|(e & H1 & ->)];
    destruct (db_call_inv _ _ _ H1) as [-> [(e' & F & E)|(F & E)]];
    try discriminate.
  - injection H2 as <- <-. split; [reflexivity|]. now right.
  - injection E as <-. split; [reflexivity|]. left. now exists e.
Qed.

Lemma recipients_find_inv (cid status : string) (w w' : World)
  (r : result (list Recipient)) :
  recipients_find db_fault cid status w = (w', r) ->
  w' = bump w
  /\ ((exists e, db_fault (db_ops w) = Some e /\ r = Raised e)
      \/ (db_fault (db_ops w) = None
          /\ r = Returned (filter (in_campaign_with_status cid status)
                                  (recipients w)))).
Proof.
  unfold recipients_find. intros H.
  destruct (bind_inv _ _ _ _ _ H) as [(w1 & [] & H1 & H2)|(e & H1 & ->)];
    destruct (db_call_inv _ _ _ H1) as [-> [(e' & F & E)|(F & E)]];
    try discriminate.
  - injection H2 as <- <-. split; [reflexivity|]. now right.
  - injection E as <-. split; [reflexivity|]. left. now exists e.
Qed.

(** A campaign update either faults and writes nothing, or is applied to
    the first campaign of that id and shows in the trace. *)
Lemma campaigns_update_one_inv (cid : string) (upd : CampaignSet)
  (w w' : World) (r : result unit) :
  campaigns_update_one db_fault cid upd w = (w', r) ->
  (exists e, db_fault (db_ops w) = Some e /\ r = Raised e /\ w' = bump w)
  \/ (db_fault (db_ops w) = None /\ r = Returned tt
      /\ campaigns w'
         = update_first (has_campaign_id cid) (apply_set upd) (campaigns w)
      /\ recipients w' = recipients w
      /\ clock w' = clock w
      /\ db_ops w' = S (db_ops w)
      /\ sg_calls w' = sg_calls w
      /\ trace w' = (trace w ++ [EvCampaignUpdate cid upd])%list).
Proof.
  unfold campaigns_update_one. intros H.
  destruct (bind_inv _ _ _ _ _ H) as [(w1 & [] & H1 & H2)|(e & H1 & ->)];
    destruct (db_call_inv _ _ _ H1) as [-> [(e' & F & E)|(F & E)]];
    try discriminate.
  - injection H2 as <- <-. right. now repeat split.
  - injection E as <-. left. now exists e.
Qed.

Lemma recipients_update_one_inv (rid status : string) (w w' : World)
  (r : result unit) :
  recipients_update_one db_fault rid status w = (w', r) ->
  (exists e, db_fault (db_ops w) = Some e /\ r = Raised e /\ w' = bump w)
  \/ (db_fault (db_ops w) = None /\ r = Returned tt
      /\ campaigns w' = campaigns w
      /\ recipients w'
         = update_first (has_recipient_id rid) (with_status status)
                        (recipients w)
      /\ clock w' = clock w
      /\ db_ops w' = S (db_ops w)
      /\ sg_calls w' = sg_calls w
      /\ trace w' = (trace w ++ [EvRecipientUpdate rid status])%list).
Proof.
  unfold recipients_update_one. intros H.
  destruct (bind_inv _ _ _ _ _ H) as [(w1 & [] & H1 & H2)|(e & H1 & ->)];
    destruct (db_call_inv _ _ _ H1) as [-> [(e' & F & E)|(F & E)]];
    try discriminate.
  - injection H2 as <- <-. right. now repeat split.
  - injection E as <-. left. now exists e.
Qed.

Lemma quiet_recipients_find (cid status : string) :
  quiet (recipients_find db_fault cid status).
Proof.
  intros w w' r H. destruct (recipients_find_inv _ _ _ _ _ H) as [-> _].
  apply quiet_step_bump.
Qed.

Lemma quiet_recipients_update_one (rid status : string) :
  quiet (recipients_update_one db_fault rid status).
Proof.
  intros w w' r H.
  destruct (recipients_update_one_inv _ _ _ _ _ H)
    as [(e & _ & _ & ->)|(_ & _ & Hc & _ & Hk & _ & _ & Ht)].
  - apply quiet_step_bump.
  - repeat split; try assumption.
    rewrite Ht, campaign_writes_app. apply app_nil_r.
Qed.

(** *** One send *)

(** [send_single_email] never raises: it answers whether the provider
    accepted the message, after exactly one call. *)
Lemma send_single_email_spec (r : Recipient) (c : Campaign) (w : World) :
  exists w',
    send_single_email sender_email sg_send r c w
    = (w', Returned (send_ok (sg_send (sg_calls w)
                                      (message_for sender_email r c))))
    /\ campaigns w' = campaigns w
    /\ recipients w' = recipients w
    /\ clock w' = clock w
    /\ db_ops w' = db_ops w
    /\ sg_calls w' = S (sg_calls w)
    /\ sends (trace w')
       = (sends (trace w) ++ [message_for sender_email r c])%list
    /\ campaign_writes (trace w') = campaign_writes (trace w).
Proof.
  unfold send_single_email, try_catch, bind, sg_client_send, ret.
  destruct (sg_send (sg_calls w) (message_for sender_email r c)) as [code|e];
    cbn [send_ok log_error emit]; eexists; (split; [reflexivity|]);
    cbn [campaigns recipients clock db_ops sg_calls trace];
    rewrite ?sends_app, ?campaign_writes_app; cbn [sends campaign_writes flat_map];
    rewrite ?app_nil_r; now repeat split.
Qed.

End EngineFacts.

(** ** Lists, counters and marks *)

Module ListFacts.

Lemma combine_app {A B} (a1 a2 : list A) (b1 b2 : list B) :
  List.length a1 = List.length b1 ->
  combine (a1 ++ a2) (b1 ++ b2) = (combine a1 b1 ++ combine a2 b2)%list.
Proof.
  revert b1; induction a1 as [|x a1 IH]; intros [|y b1] L;
    try discriminate; [reflexivity|].
  cbn. f_equal. apply IH. now injection L.
Qed.

Lemma count_ok_app (a b : list bool) :
  count_ok (a ++ b) = (count_ok a + count_ok b)%Z.
Proof. unfold count_ok. rewrite filter_app, length_app. lia. Qed.

Lemma count_failed_app (a b : list bool) :
  count_failed (a ++ b) = (count_failed a + count_failed b)%Z.
Proof. unfold count_failed. rewrite filter_app, length_app. lia. Qed.

(** Every send is counted once, as sent or as failed. *)
Lemma count_total (oks : list bool) :
  (count_ok oks + count_failed oks)%Z = Z.of_nat (List.length oks).
Proof.
  unfold count_ok, count_failed.
  induction oks as [|[] oks IH]; cbn [filter negb List.length]; lia.
Qed.

Lemma mark_all_app (p1 p2 : list (Recipient * bool)) (docs : list Recipient) :
  mark_all (p1 ++ p2) docs = mark_all p2 (mark_all p1 docs).
Proof. apply fold_left_app. Qed.

Lemma settled_pairs (batch : list Recipient) (oks : list bool) :
  map (fun p : Recipient * (exn + bool) => (fst p, settled_ok (snd p)))
      (combine batch (map inr oks))
  = combine batch oks.
Proof.
  revert oks; induction batch as [|r batch IH]; intros [|[] oks];
    cbn; try reflexivity; now rewrite IH.
Qed.

Lemma settled_oks (batch : list Recipient) (oks : list bool) :
  List.length oks = List.length batch ->
  map (fun p : Recipient * (exn + bool) => settled_ok (snd p))
      (combine batch (map inr oks))
  = oks.
Proof.
  revert oks; induction batch as [|r batch IH]; intros [|[] oks] L;
    try discriminate; cbn; try reflexivity; f_equal; apply IH;
    now injection L.
Qed.

(** *** Slices and ranges *)

Lemma slice_skipn {A} (l : list A) (i n : nat) :
  slice l i (i + n) = firstn n (skipn i l).
Proof. unfold slice. f_equal. lia. Qed.

Lemma skipn_add {A} (l : list A) (i n : nat) :
  skipn (i + n) l = skipn n (skipn i l).
Proof. rewrite skipn_skipn. f_equal. lia. Qed.

Lemma range_from_here (f i stop step : nat) :
  i < stop ->
  range_from (S f) i stop step = i :: range_from f (i + step) stop step.
Proof.
  intros H. cbn [range_from].
  now destruct (Nat.ltb_spec i stop); [|lia].
Qed.

Lemma range_from_done (f i stop step : nat) :
  stop <= i -> range_from f i stop step = [].
Proof.
  intros H. destruct f as [|f]; [reflexivity|]. cbn [range_from].
  now destruct (Nat.ltb_spec i stop); [lia|].
Qed.

Lemma range_from_below (f i stop step : nat) :
  Forall (fun k => k < stop) (range_from f i stop step).
Proof.
  revert i; induction f as [|f IH]; intros i; cbn [range_from];
    [constructor|].
  destruct (Nat.ltb_spec i stop); constructor; [assumption|apply IH].
Qed.

(** *** Rounds of provider calls *)

Lemma rounds_calls (seg rest : list Event) :
  forallb is_call seg = true ->
  forall cur,
  rounds_from cur (seg ++ rest) = rounds_from (cur ++ sends seg) rest.
Proof.
  induction seg as [|e seg IH]; intros C cur.
  - cbn. now rewrite app_nil_r.
  - cbn [forallb] in C. apply andb_prop in C as [Ce C].
    destruct e; try discriminate Ce; cbn [app rounds_from].
    + rewrite (IH C). unfold sends. cbn [flat_map].
      now rewrite <- app_assoc.
    + now rewrite (IH C).
Qed.

Lemma rounds_writes (seg rest : list Event) :
  forallb (fun e => negb (is_call e)) seg = true ->
  rounds_from [] (seg ++ rest) = rounds_from [] rest.
Proof.
  induction seg as [|e seg IH]; intros C; [reflexivity|].
  cbn [forallb] in C. apply andb_prop in C as [Ce C].
  destruct e; try discriminate Ce; cbn [app rounds_from close_round];
    now apply IH.
Qed.

Lemma rounds_close (seg rest : list Event) (cur : list Mail) :
  forallb (fun e => negb (is_call e)) seg = true ->
  seg <> [] ->
  rounds_from cur (seg ++ rest) = (close_round cur ++ rounds_from [] rest)%list.
Proof.
  destruct seg as [|e seg]; intros C NE; [contradiction|].
  cbn [forallb] in C. apply andb_prop in C as [Ce C].
  destruct e; try discriminate Ce; cbn [app rounds_from];
    now rewrite (rounds_writes seg rest C).
Qed.

End ListFacts.
Import ListFacts.

(** ** The batch loop while the store is up *)

Section LoopFacts.

Variable sender_email : option string.
Variable db_fault : nat -> option exn.
Variable sg_send : nat -> Mail -> SendOutcome.
Variable campaign : Campaign.

Local Abbreviation oks_from := (send_oks sender_email sg_send campaign).
Local Abbreviation done := (processed sender_email sg_send campaign).
Local Abbreviation mail := (fun r => message_for sender_email r campaign).

Lemma send_oks_length (n : nat) (sel : list Recipient) :
  List.length (oks_from n sel) = List.length sel.
Proof.
  revert n; induction sel as [|r sel IH]; intros n; [reflexivity|].
  cbn. now rewrite IH.
Qed.

Lemma send_oks_app (n : nat) (a b : list Recipient) :
  oks_from n (a ++ b)
  = (oks_from n a ++ oks_from (n + List.length a) b)%list.
Proof.
  revert n; induction a as [|r a IH]; intros n.
  - cbn. now rewrite Nat.add_0_r.
  - cbn. rewrite IH. do 3 f_equal. lia.
Qed.

Lemma processed_nil (w : World) : done [] w w.
Proof.
  unfold processed. cbn. rewrite app_nil_r, Nat.add_0_r. now repeat split.
Qed.

Lemma processed_app (a b : list Recipient) (w w1 w2 : World) :
  done a w w1 -> done b w1 w2 -> done (a ++ b) w w2.
Proof.
  intros (A1 & A2 & A3 & A4 & A5 & A6) (B1 & B2 & B3 & B4 & B5 & B6).
  unfold processed. repeat split; try congruence.
  - rewrite send_oks_app, combine_app by (now rewrite send_oks_length).
    rewrite mark_all_app, <- A3, <- A4. exact B3.
  - rewrite length_app. lia.
  - rewrite map_app, app_assoc, <- A5. exact B5.
Qed.

(** The sends of a batch: one provider call per recipient, in order. *)
Lemma gather_sends (batch : list Recipient) (w : World) :
  exists w1,
    gather (map (fun r => send_single_email sender_email sg_send r campaign)
                batch) w
    = (w1, Returned (map inr (oks_from (sg_calls w) batch)))
    /\ campaigns w1 = campaigns w
    /\ recipients w1 = recipients w
    /\ clock w1 = clock w
    /\ db_ops w1 = db_ops w
    /\ sg_calls w1 = sg_calls w + List.length batch
    /\ sends (trace w1) = (sends (trace w) ++ map mail batch)%list
    /\ campaign_writes (trace w1) = campaign_writes (trace w).
Proof.
  revert w; induction batch as [|r batch IH]; intros w.
  - exists w. cbn. rewrite app_nil_r, Nat.add_0_r. now repeat split.
  - destruct (send_single_email_spec sender_email sg_send r campaign w)
      as (w0 & E0 & C0 & R0 & K0 & D0 & G0 & S0 & W0).
    destruct (IH w0) as (w1 & E1 & C1 & R1 & K1 & D1 & G1 & S1 & W1).
    exists w1. split.
    + cbn [map gather]. unfold bind at 1. unfold settle. rewrite E0.
      unfold bind at 1. rewrite E1. unfold ret. cbn [send_oks map].
      now rewrite G0.
    + repeat split; try congruence.
      * rewrite G1, G0. cbn [List.length]. lia.
      * rewrite S1, S0, <- app_assoc. reflexivity.
Qed.

(** The status writes of a batch while the store is up: every pair is
    written, a task that did not return [True] as failed. *)
Lemma record_results_up (pairs : list (Recipient * (exn + bool))) :
  store_up db_fault ->
  forall (counts : Z * Z) (w : World),
  exists w2,
    record_results db_fault pairs counts w
    = (w2, Returned
             ((fst counts + count_ok (map (fun p => settled_ok (snd p)) pairs))%Z,
              (snd counts + count_failed (map (fun p => settled_ok (snd p)) pairs))%Z))
    /\ campaigns w2 = campaigns w
    /\ recipients w2
       = mark_all (map (fun p => (fst p, settled_ok (snd p))) pairs)
                  (recipients w)
    /\ clock w2 = clock w
    /\ sg_calls w2 = sg_calls w
    /\ sends (trace w2) = sends (trace w)
    /\ campaign_writes (trace w2) = campaign_writes (trace w).
Proof.
  intros Up. induction pairs as [|[r res] pairs IH]; intros counts w.
  - exists w. cbn. unfold ret, count_ok, count_failed. cbn.
    rewrite !Z.add_0_r. destruct counts. now repeat split.
  - assert (Step : forall status,
      exists w1, recipients_update_one db_fault (r_id r) status w
                 = (w1, Returned tt)
        /\ campaigns w1 = campaigns w
        /\ recipients w1 = update_first (has_recipient_id (r_id r))
                                        (with_status status) (recipients w)
        /\ clock w1 = clock w /\ sg_calls w1 = sg_calls w
        /\ sends (trace w1) = sends (trace w)
        /\ campaign_writes (trace w1) = campaign_writes (trace w)).
    { intros status.
      destruct (recipients_update_one db_fault (r_id r) status w) as [w1 r1] eqn:E.
      destruct (recipients_update_one_inv _ _ _ _ _ _ E)
        as [(e & F & _)|(_ & -> & Hc & Hr & Hk & _ & Hg & Ht)].
      - rewrite Up in F. discriminate.
      - exists w1. repeat split; try assumption.
        + rewrite Ht, sends_app. apply app_nil_r.
        + rewrite Ht, campaign_writes_app. apply app_nil_r. }
    set (ok := settled_ok res).
    destruct (Step (status_of ok)) as (w1 & E1 & C1 & R1 & K1 & G1 & S1 & W1).
    set (counts1 := if ok then ((fst counts + 1)%Z, snd counts)
                    else (fst counts, (snd counts + 1)%Z)).
    destruct (IH counts1 w1) as (w2 & E2 & C2 & R2 & K2 & G2 & S2 & W2).
    exists w2. split.
    + cbn [record_results]. unfold bind at 1.
      assert (Head :
        (match res with
         | inl _ =>
             recipients_update_one db_fault (r_id r) "failed" ;;
             ret (fst counts, (snd counts + 1)%Z)
         | inr true =>
             recipients_update_one db_fault (r_id r) "sent" ;;
             ret ((fst counts + 1)%Z, snd counts)
         | inr false =>
             recipients_update_one db_fault (r_id r) "failed" ;;
             ret (fst counts, (snd counts + 1)%Z)
         end) w = (w1, Returned counts1)).
      { subst ok counts1. destruct res as [e|[]]; cbn [settled_ok status_of] in *;
          unfold bind; rewrite E1; reflexivity. }
      rewrite Head, E2. f_equal. f_equal.
      subst counts1. cbn [map snd]. fold ok.
      unfold count_ok, count_failed.
      destruct ok; cbn [filter negb List.length fst snd]; f_equal; lia.
    + repeat split; try congruence.
      rewrite R2, R1. reflexivity.
Qed.

(** The whole loop while the store is up, from batch start [i] on. *)
Lemma send_batches_up (sel : list Recipient) :
  store_up db_fault ->
  forall (fuel i : nat) (counts : Z * Z) (w : World),
  List.length sel - i <= fuel ->
  exists w',
    send_batches sender_email db_fault sg_send sel campaign
      (range_from fuel i (List.length sel) batch_size) counts w
    = (w', Returned
             ((fst counts + count_ok (oks_from (sg_calls w) (skipn i sel)))%Z,
              (snd counts + count_failed (oks_from (sg_calls w) (skipn i sel)))%Z))
    /\ done (skipn i sel) w w'.
Proof.
  intros Up. induction fuel as [|fuel IH]; intros i counts w L.
  - rewrite skipn_all2 by lia. exists w. cbn.
    unfold ret, count_ok, count_failed. cbn. rewrite !Z.add_0_r.
    destruct counts. split; [reflexivity|apply processed_nil].
  - destruct (Nat.lt_ge_cases i (List.length sel)) as [Lt|Ge].
    + rewrite range_from_here by assumption.
      cbn [send_batches]. rewrite slice_skipn.
      set (batch := firstn batch_size (skipn i sel)).
      destruct (gather_sends batch w)
        as (w1 & E1 & C1 & R1 & K1 & D1 & G1 & S1 & W1).
      destruct (record_results_up
                  (combine batch (map inr (oks_from (sg_calls w) batch)))
                  Up counts w1)
        as (w2 & E2 & C2 & R2 & K2 & G2 & S2 & W2).
      rewrite settled_pairs in R2.
      assert (Ok2 : map (fun p : Recipient * (exn + bool) => settled_ok (snd p))
                        (combine batch (map inr (oks_from (sg_calls w) batch)))
                    = oks_from (sg_calls w) batch).
      { apply settled_oks. now rewrite send_oks_length. }
      rewrite Ok2 in E2.
      assert (B : done batch w w2).
      { unfold processed. repeat split; congruence. }
      assert (Pause : exists w3,
        (if (i + batch_size <? List.length sel)%nat then sleep 1 else ret tt) w2
        = (w3, Returned tt) /\ done [] w2 w3).
      { destruct (i + batch_size <? List.length sel)%nat.
        - eexists. split; [reflexivity|].
          unfold processed. cbn. rewrite sends_app, campaign_writes_app.
          cbn. rewrite !app_nil_r, Nat.add_0_r. now repeat split.
        - exists w2. split; [reflexivity|apply processed_nil]. }
      destruct Pause as (w3 & E3 & P3).
      pose proof (processed_app _ _ _ _ _ B P3) as B3. rewrite app_nil_r in B3.
      set (counts1 := ((fst counts + count_ok (oks_from (sg_calls w) batch))%Z,
                       (snd counts + count_failed (oks_from (sg_calls w) batch))%Z))
        in *.
      destruct (IH (i + batch_size) counts1 w3 ltac:(unfold batch_size; lia))
        as (w' & E' & P').
      rewrite skipn_add in E', P'.
      exists w'. split.
      * unfold bind at 1. rewrite E1. unfold bind at 1. rewrite E2.
        unfold bind at 1. rewrite E3. rewrite E'.
        rewrite <- (firstn_skipn batch_size (skipn i sel)) at 3 4.
        fold batch. rewrite send_oks_app, count_ok_app, count_failed_app.
        destruct B3 as (_ & _ & _ & G3 & _). rewrite G3.
        subst counts1. cbn [fst snd]. f_equal. f_equal. f_equal; lia.
      * rewrite <- (firstn_skipn batch_size (skipn i sel)). fold batch.
        eapply processed_app; eassumption.
    + rewrite range_from_done by assumption.
      rewrite skipn_all2 by assumption. exists w. cbn.
      unfold ret, count_ok, count_failed. cbn. rewrite !Z.add_0_r.
      destruct counts. split; [reflexivity|apply processed_nil].
Qed.

(** *** The trace of the loop: one round of calls per batch *)

Lemma send_single_email_calls (r : Recipient) (w : World) :
  exists seg,
    trace (fst (send_single_email sender_email sg_send r campaign w))
    = (trace w ++ seg)%list
    /\ forallb is_call seg = true
    /\ sends seg = [mail r].
Proof.
  unfold send_single_email, try_catch, bind, sg_client_send, ret.
  destruct (sg_send (sg_calls w) (message_for sender_email r campaign))
    as [code|e]; cbn [fst trace log_error emit].
  - exists [EvSend (mail r)]. now repeat split.
  - eexists [EvSend (mail r); EvLog ERROR _].
    rewrite <- app_assoc. now repeat split.
Qed.

Lemma gather_calls (batch : list Recipient) (w : World) :
  exists seg,
    trace (fst (gather (map (fun r => send_single_email sender_email sg_send
                                        r campaign) batch) w))
    = (trace w ++ seg)%list
    /\ forallb is_call seg = true
    /\ sends seg = map mail batch.
Proof.
  revert w; induction batch as [|r batch IH]; intros w.
  - exists []. cbn. now rewrite app_nil_r.
  - destruct (send_single_email_spec sender_email sg_send r campaign w)
      as (w0 & E0 & _).
    destruct (send_single_email_calls r w) as (s0 & T0 & C0 & S0).
    rewrite E0 in T0. cbn [fst] in T0.
    destruct (gather_sends batch w0) as (w1 & E1 & _).
    destruct (IH w0) as (s1 & T1 & C1 & S1).
    rewrite E1 in T1. cbn [fst] in T1.
    exists (s0 ++ s1)%list. split; [|split].
    + cbn [map gather]. unfold bind at 1. unfold settle. rewrite E0.
      unfold bind at 1. rewrite E1. unfold ret. cbn [fst].
      now rewrite T1, T0, app_assoc.
    + rewrite forallb_app. now rewrite C0, C1.
    + rewrite sends_app, S0, S1. reflexivity.
Qed.

Lemma recipients_update_one_up (rid status : string) (w : World) :
  store_up db_fault ->
  recipients_update_one db_fault rid status w
  = (mkWorld (campaigns w)
             (update_first (has_recipient_id rid) (with_status status)
                           (recipients w))
             (clock w) (S (db_ops w)) (sg_calls w)
             (trace w ++ [EvRecipientUpdate rid status]),
     Returned tt).
Proof.
  intros Up. unfold recipients_update_one, bind, db_call. now rewrite Up.
Qed.

Lemma record_results_writes (pairs : list (Recipient * (exn + bool))) :
  store_up db_fault ->
  forall (counts : Z * Z) (w : World),
  trace (fst (record_results db_fault pairs counts w))
  = (trace w
     ++ map (fun p => EvRecipientUpdate (r_id (fst p))
                        (status_of (settled_ok (snd p)))) pairs)%list.
Proof.
  intros Up. induction pairs as [|[r res] pairs IH]; intros counts w.
  - cbn. now rewrite app_nil_r.
  - cbn [record_results map]. unfold bind at 1.
    destruct res as [e|[]]; unfold bind at 1;
      rewrite (recipients_update_one_up _ _ _ Up); unfold ret at 1;
      rewrite IH; cbn [trace fst snd settled_ok status_of];
      now rewrite <- app_assoc.
Qed.

(** The calls of every batch form one round, closed by the status writes
    of the batch. *)
Lemma send_batches_rounds (sel : list Recipient) :
  store_up db_fault ->
  forall starts : list nat,
  Forall (fun i => i < List.length sel) starts ->
  forall (counts : Z * Z) (w : World),
  exists new,
    trace (fst (send_batches sender_email db_fault sg_send sel campaign
                  starts counts w))
    = (trace w ++ new)%list
    /\ forall rest,
         rounds_from [] (new ++ rest)
         = (map (fun i => map mail (slice sel i (i + batch_size))) starts
            ++ rounds_from [] rest)%list.
Proof.
  intros Up starts. induction 1 as [|i starts Lt _ IH]; intros counts w.
  - exists []. cbn. now rewrite app_nil_r.
  - cbn [send_batches]. set (batch := slice sel i (i + batch_size)).
    destruct (gather_sends batch w) as (w1 & E1 & _).
    destruct (gather_calls batch w) as (s1 & T1 & C1 & S1).
    rewrite E1 in T1. cbn [fst] in T1.
    set (results := map inr (oks_from (sg_calls w) batch)) in *.
    destruct (record_results_up (combine batch results) Up counts w1)
      as (w2 & E2 & _).
    pose proof (record_results_writes (combine batch results) Up counts w1)
      as T2.
    rewrite E2 in T2. cbn [fst] in T2.
    set (writes := map (fun p : Recipient * (exn + bool) =>
                          EvRecipientUpdate (r_id (fst p))
                            (status_of (settled_ok (snd p))))
                       (combine batch results)) in *.
    assert (NE : batch <> []).
    { unfold batch, slice. intros E.
      apply (f_equal (@List.length _)) in E.
      rewrite length_firstn, length_skipn in E. cbn in E.
      unfold batch_size in E. lia. }
    assert (Wn : writes <> []).
    { unfold writes, results. destruct batch as [|r batch']; [contradiction|].
      cbn. discriminate. }
    assert (Wc : forallb (fun e => negb (is_call e)) writes = true).
    { unfold writes. apply forallb_forall. intros e He.
      apply in_map_iff in He as (q & <- & _). reflexivity. }
    unfold bind at 1. rewrite E1. unfold bind at 1. rewrite E2.
    unfold bind at 1.
    destruct (i + batch_size <? List.length sel)%nat.
    + unfold sleep, emit at 1.
      match goal with
      | |- context [send_batches _ _ _ _ _ _ ?cs ?w3] =>
          destruct (IH cs w3) as (new & T & G)
      end.
      cbn [trace] in T.
      exists (s1 ++ writes ++ [EvSleep 1] ++ new)%list. split.
      * rewrite T, T2, T1. now rewrite <- !app_assoc.
      * intros rest. rewrite <- !app_assoc.
        rewrite (rounds_calls _ _ C1), S1. cbn [app].
        rewrite (rounds_close _ _ _ Wc Wn).
        change (EvSleep 1 :: (new ++ rest)%list)
          with ([EvSleep 1] ++ (new ++ rest))%list.
        rewrite (rounds_writes [EvSleep 1]) by reflexivity.
        rewrite G. cbn [map]. fold batch.
        destruct (map mail batch) eqn:Em; [|reflexivity].
        destruct batch; [contradiction|discriminate].
    + unfold ret at 1.
      match goal with
      | |- context [send_batches _ _ _ _ _ _ ?cs ?w3] =>
          destruct (IH cs w3) as (new & T & G)
      end.
      exists (s1 ++ writes ++ new)%list. split.
      * rewrite T, T2, T1. now rewrite <- !app_assoc.
      * intros rest. rewrite <- !app_assoc.
        rewrite (rounds_calls _ _ C1), S1. cbn [app].
        rewrite (rounds_close _ _ _ Wc Wn).
        rewrite G. cbn [map]. fold batch.
        destruct (map mail batch) eqn:Em; [|reflexivity].
        destruct batch; [contradiction|discriminate].
Qed.

End LoopFacts.

(** ** The run under any faults *)

Section RunFacts.

Variable sender_email : option string.
Variable db_fault : nat -> option exn.
Variable sg_send : nat -> Mail -> SendOutcome.
Variable validate_email : string -> exn + string.
Variable validation_message : list exn -> exn.

Lemma quiet_send_single_email (r : Recipient) (c : Campaign) :
  quiet (send_single_email sender_email sg_send r c).
Proof.
  intros w w' res H.
  destruct (send_single_email_spec sender_email sg_send r c w)
    as (w0 & E & C & _ & K & _ & _ & _ & W).
  rewrite E in H. injection H as <- _. now repeat split.
Qed.

Lemma quiet_settle {A} (task : M A) : quiet task -> quiet (settle task).
Proof.
  intros Q w w' r H. unfold settle in H.
  destruct (task w) as [w1 [a|e]] eqn:E; injection H as <- _;
    exact (Q _ _ _ E).
Qed.

Lemma quiet_gather {A} (tasks : list (M A)) :
  Forall quiet tasks -> quiet (gather tasks).
Proof.
  induction 1 as [|task tasks Q _ IH]; cbn [gather].
  - apply quiet_ret.
  - apply quiet_bind; [now apply quiet_settle|]. intros x.
    apply quiet_bind; [exact IH|]. intros xs. apply quiet_ret.
Qed.

Lemma quiet_record_results (pairs : list (Recipient * (exn + bool)))
  (counts : Z * Z) :
  quiet (record_results db_fault pairs counts).
Proof.
  revert counts; induction pairs as [|[r res] pairs IH]; intros counts;
    cbn [record_results].
  - apply quiet_ret.
  - apply quiet_bind; [|intros c1; apply IH].
    destruct res as [e|[]];
      (apply quiet_bind;
       [apply quiet_recipients_update_one|intros _; apply quiet_ret]).
Qed.

(** The loop never touches the campaign, whatever faults. *)
Lemma quiet_send_batches (sel : list Recipient) (c : Campaign)
  (starts : list nat) (counts : Z * Z) :
  quiet (send_batches sender_email db_fault sg_send sel c starts counts).
Proof.
  revert counts; induction starts as [|i starts IH]; intros counts;
    cbn [send_batches].
  - apply quiet_ret.
  - apply quiet_bind.
    { apply quiet_gather. apply Forall_forall. intros t Ht.
      apply in_map_iff in Ht as (r & <- & _).
      apply quiet_send_single_email. }
    intros results. apply quiet_bind; [apply quiet_record_results|].
    intros c1. apply quiet_bind; [|intros _; apply IH].
    destruct (i + batch_size <? List.length sel)%nat;
      [apply quiet_sleep|apply quiet_ret].
Qed.

Lemma now_inv (w w' : World) (r : result timestamp) :
  now w = (w', r) -> w' = tick w /\ r = Returned (clock w).
Proof. unfold now. intros H. injection H as <- <-. now split. Qed.

(** Building the recipients changes nothing in the world: it returns the
    recipients of all the documents, or raises at the first address that
    does not validate. *)
Lemma read_recipients_inv (docs : list Recipient) (w w' : World)
  (r : result (list Recipient)) :
  read_recipients validate_email validation_message docs w = (w', r) ->
  w' = w
  /\ ((forallb (doc_valid validate_email) docs = true
       /\ r = Returned (map (model_of validate_email) docs))
      \/ (forallb (doc_valid validate_email) docs = false
          /\ exists e, r = Raised e)).
Proof.
  revert w' r; induction docs as [|doc docs IH]; intros w' r H.
  - cbn in H. injection H as <- <-. split; [reflexivity|]. now left.
  - cbn [read_recipients] in H. unfold bind at 1 in H.
    unfold Recipient_of_doc in H. cbn [forallb map].
    assert (V : doc_valid validate_email doc
                = match validate_email (r_email doc) with
                  | inr _ => true
                  | inl _ => false
                  end) by reflexivity.
    assert (Mo : model_of validate_email doc
                 = match validate_email (r_email doc) with
                   | inr email => with_email email doc
                   | inl _ => doc
                   end) by reflexivity.
    destruct (validate_email (r_email doc)) as [e|email].
    + injection H as <- <-. split; [reflexivity|]. right. rewrite V.
      split; [reflexivity|]. eexists. reflexivity.
    + unfold ret at 1 in H. unfold bind at 1 in H.
      destruct (read_recipients validate_email validation_message docs w)
        as [w1 r1] eqn:E.
      destruct (IH _ _ eq_refl) as [-> [[Vd ->]|[Vd [e ->]]]];
        unfold ret in H; injection H as <- <-; (split; [reflexivity|]);
        rewrite V, Vd.
      * left. rewrite Mo. now split.
      * right. split; [reflexivity|]. now exists e.
Qed.

Lemma read_recipients_valid (docs : list Recipient) (w : World) :
  forallb (doc_valid validate_email) docs = true ->
  read_recipients validate_email validation_message docs w
  = (w, Returned (map (model_of validate_email) docs)).
Proof.
  intros V.
  destruct (read_recipients validate_email validation_message docs w)
    as [w' r] eqn:E.
  destruct (read_recipients_inv _ _ _ _ E) as [-> [[_ ->]|[V' _]]];
    [reflexivity|congruence].
Qed.

(** The body of the [try] ends in one of four ways. *)
Lemma campaign_run_shape (cid : string) (test_mode : bool) (w w' : World)
  (r : result unit) :
  campaign_run sender_email db_fault sg_send validate_email validation_message
    cid test_mode w = (w', r) ->
  body_shape db_fault cid w w' r.
Proof.
  unfold campaign_run. intros H.
  destruct (bind_inv _ _ _ _ _ H) as [(w1 & doc & H1 & H2)|(e & H1 & ->)];
    clear H;
    destruct (campaigns_find_one_inv _ _ _ _ _ H1)
      as [-> [(e0 & F0 & E0)|(F0 & E0)]]; try discriminate.
  2:{ injection E0 as <-. apply body_fault_early; auto. }
  injection E0 as ->.
  destruct (find (has_campaign_id cid) (campaigns w)) as [c|] eqn:Found.
  2:{ unfold log_error, emit in H2. injection H2 as <- <-.
      apply body_not_found; auto.
      cbn [trace bump]. rewrite campaign_writes_app. apply app_nil_r. }
  destruct (bind_inv _ _ _ _ _ H2) as [(w2 & t & N & H3)|(e & N & _)];
    clear H2; destruct (now_inv _ _ _ N) as [-> Et]; try discriminate.
  injection Et as ->. cbn [clock bump] in H3.
  destruct (bind_inv _ _ _ _ _ H3) as [(w3 & [] & U & H4)|(e & U & ->)];
    clear H3;
    destruct (campaigns_update_one_inv _ _ _ _ _ _ U)
      as [(e1 & F1 & E1 & Ew)|(F1 & E1 & C3 & R3 & K3 & D3 & G3 & T3)];
    try discriminate; cbn [db_ops tick bump campaigns clock trace] in *.
  2:{ injection E1 as <-. subst w'. apply body_fault_early; auto. }
  assert (W3 : campaign_writes (trace w3)
               = (campaign_writes (trace w) ++ [(cid, sending_set (clock w))])%list).
  { rewrite T3, campaign_writes_app. reflexivity. }
  assert (NF : find (has_campaign_id cid) (campaigns w) <> None) by congruence.
  destruct (bind_inv _ _ _ _ _ H4) as [(w4 & pending & P & H5)|(e & P & ->)];
    clear H4;
    destruct (quiet_recipients_find db_fault _ _ _ _ _ P) as (C4 & K4 & W4).
  2:{ apply body_fault_late; auto; unfold campaigns_after; congruence. }
  destruct (bind_inv _ _ _ _ _ H5) as [(w4' & models & Rd & H5')|(e & Rd & ->)];
    clear H5; destruct (read_recipients_inv _ _ _ _ Rd) as [-> _].
  2:{ apply body_fault_late; auto; unfold campaigns_after; congruence. }
  destruct (bind_inv _ _ _ _ _ H5') as [(w5 & counts & L & H6)|(e & L & ->)];
    clear H5';
    destruct (quiet_send_batches _ _ _ _ _ _ _ L) as (C5 & K5 & W5).
  2:{ apply body_fault_late; auto; unfold campaigns_after; congruence. }
  destruct (bind_inv _ _ _ _ _ H6) as [(w6 & t1 & N1 & H7)|(e & N1 & _)];
    clear H6; destruct (now_inv _ _ _ N1) as [-> Et]; try discriminate.
  injection Et as ->.
  destruct (bind_inv _ _ _ _ _ H7) as [(w7 & [] & U1 & H8)|(e & U1 & ->)];
    clear H7;
    destruct (campaigns_update_one_inv _ _ _ _ _ _ U1)
      as [(e1 & F7 & E7 & Ew)|(F7 & E7 & C7 & R7 & K7 & D7 & G7 & T7)];
    try discriminate; cbn [db_ops tick bump campaigns clock trace] in *.
  2:{ injection E7 as <-. subst w'. apply body_fault_late; auto;
      cbn [bump tick campaigns trace]; unfold campaigns_after; congruence. }
  unfold log_info, emit in H8. injection H8 as <- <-.
  assert (Ek : clock w5 = S (clock w)) by congruence.
  rewrite Ek in *.
  apply (body_done db_fault cid w _ (fst counts) (snd counts)); auto;
    cbn [campaigns trace].
  - rewrite C7. unfold campaigns_after. congruence.
  - rewrite campaign_writes_app, T7, campaign_writes_app. cbn.
    rewrite !app_nil_r, W5, W4, W3, <- app_assoc. reflexivity.
Qed.

(** The handler logs, then writes [failed] unless that write faults. *)
Lemma on_fault_inv (cid : string) (e : exn) (w w' : World) (r : result unit) :
  on_fault db_fault cid e w = (w', r) ->
  let entry := EvLog ERROR ("Error processing campaign " ++ cid ++ ": " ++ e) in
  (exists e', db_fault (db_ops w) = Some e' /\ r = Raised e'
              /\ campaigns w' = campaigns w
              /\ trace w' = (trace w ++ [entry])%list)
  \/ (db_fault (db_ops w) = None /\ r = Returned tt
      /\ campaigns w' = campaigns_after cid (failed_set (clock w)) (campaigns w)
      /\ trace w'
         = (trace w ++ [entry; EvCampaignUpdate cid (failed_set (clock w))])%list).
Proof.
  intros H entry. unfold on_fault, log_error in H.
  destruct (bind_inv _ _ _ _ _ H) as [(w1 & [] & L & H1)|(e0 & L & _)];
    [|discriminate].
  unfold emit in L. injection L as <-.
  destruct (bind_inv _ _ _ _ _ H1) as [(w2 & t & N & H2)|(e0 & N & _)];
    destruct (now_inv _ _ _ N) as [-> Et]; try discriminate.
  injection Et as ->.
  destruct (campaigns_update_one_inv _ _ _ _ _ _ H2)
    as [(e1 & F & E & Ew)|(F & E & C & _ & _ & _ & _ & T)];
    cbn [db_ops tick bump campaigns clock trace] in *.
  - left. exists e1. subst w'. now repeat split.
  - right. repeat split; try assumption.
    rewrite T, <- app_assoc. reflexivity.
Qed.

End RunFacts.

(** ** Documents of the two collections *)

Module StoreFacts.

Lemma campaign_id_after (upd : CampaignSet) (c : Campaign) (cid : string) :
  has_campaign_id cid (apply_set upd c) = has_campaign_id cid c.
Proof. reflexivity. Qed.

(** The campaign [find_one] returns after an update is the updated one. *)
Lemma find_campaigns_after (cid : string) (upd : CampaignSet)
  (cs : list Campaign) :
  find (has_campaign_id cid) (campaigns_after cid upd cs)
  = option_map (apply_set upd) (find (has_campaign_id cid) cs).
Proof.
  unfold campaigns_after.
  induction cs as [|c cs IH]; [reflexivity|].
  cbn [update_first find].
  destruct (has_campaign_id cid c) eqn:E; cbn [find].
  - now rewrite campaign_id_after, E.
  - now rewrite E.
Qed.

Lemma update_first_ids (x st : string) (docs : list Recipient) :
  map r_id (update_first (has_recipient_id x) (with_status st) docs)
  = map r_id docs.
Proof.
  induction docs as [|d docs IH]; [reflexivity|].
  cbn [update_first]. destruct (has_recipient_id x d); cbn [map].
  - reflexivity.
  - now rewrite IH.
Qed.

Lemma mark_all_ids (pairs : list (Recipient * bool)) (docs : list Recipient) :
  map r_id (mark_all pairs docs) = map r_id docs.
Proof.
  revert docs; induction pairs as [|p pairs IH]; intros docs; [reflexivity|].
  cbn [mark_all fold_left]. fold (mark_all pairs (mark docs p)).
  rewrite IH. apply update_first_ids.
Qed.

(** With unique ids, the document of the id is the one that is written. *)
Lemma update_first_hit (x st : string) (docs : list Recipient) (d : Recipient) :
  NoDup (map r_id docs) ->
  In d (update_first (has_recipient_id x) (with_status st) docs) ->
  r_id d = x -> r_status d = st.
Proof.
  induction docs as [|d0 docs IH]; intros ND Hin Hid; [contradiction|].
  cbn [map] in ND. inversion ND as [|? ? Hnot ND']; subst.
  cbn [update_first] in Hin. unfold has_recipient_id in Hin at 1.
  destruct (String.eqb_spec (r_id d0) (r_id d)) as [E|NE].
  - destruct Hin as [<-|Hin]; [reflexivity|].
    exfalso. apply Hnot. rewrite E. now apply in_map.
  - destruct Hin as [<-|Hin]; [congruence|]. now apply IH.
Qed.

Lemma update_first_miss (x st : string) (docs : list Recipient) (d : Recipient) :
  In d (update_first (has_recipient_id x) (with_status st) docs) ->
  r_id d <> x -> In d docs.
Proof.
  induction docs as [|d0 docs IH]; intros Hin NE; [contradiction|].
  cbn [update_first] in Hin. unfold has_recipient_id in Hin at 1.
  destruct (String.eqb_spec (r_id d0) x) as [E|_].
  - destruct Hin as [<-|Hin]; [|now right].
    cbn [with_status r_id] in NE. congruence.
  - destruct Hin as [<-|Hin]; [now left|]. right. now apply IH.
Qed.

Lemma mark_all_other (x : string) (pairs : list (Recipient * bool))
  (docs : list Recipient) (d : Recipient) :
  ~ In x (map (fun p => r_id (fst p)) pairs) ->
  In d (mark_all pairs docs) -> r_id d = x -> In d docs.
Proof.
  revert docs; induction pairs as [|p pairs IH]; intros docs Hnot Hin Hid;
    [assumption|].
  cbn [mark_all fold_left] in Hin. fold (mark_all pairs (mark docs p)) in Hin.
  cbn [map In] in Hnot.
  apply IH in Hin; [|tauto|assumption].
  apply update_first_miss in Hin; [assumption|].
  intros E. apply Hnot. left. congruence.
Qed.

(** With unique ids in the store and among the recipients written, the
    status stored under a recipient's id is the one of its own send. *)
Lemma mark_all_status (pairs : list (Recipient * bool)) :
  NoDup (map (fun p => r_id (fst p)) pairs) ->
  forall (docs : list Recipient) (r d : Recipient) (ok : bool),
  NoDup (map r_id docs) ->
  In (r, ok) pairs ->
  In d (mark_all pairs docs) -> r_id d = r_id r ->
  r_status d = status_of ok.
Proof.
  induction pairs as [|p pairs IH]; intros NDp docs r d ok NDd Hp Hin Hid;
    [contradiction|].
  cbn [map] in NDp. inversion NDp as [|? ? Hnot NDp']; subst.
  cbn [mark_all fold_left] in Hin. fold (mark_all pairs (mark docs p)) in Hin.
  destruct Hp as [->|Hp].
  - cbn [fst] in Hnot.
    apply (mark_all_other (r_id r)) in Hin; [|assumption|assumption].
    unfold mark in Hin. cbn [fst snd] in Hin.
    now apply (update_first_hit _ _ _ _ NDd Hin).
  - apply (IH NDp' (mark docs p) r d ok); try assumption.
    unfold mark. now rewrite update_first_ids.
Qed.

(** Filtering the store keeps its ids unique. *)
Lemma filter_unique_ids (keep : Recipient -> bool) (docs : list Recipient) :
  NoDup (map r_id docs) -> NoDup (map r_id (filter keep docs)).
Proof.
  intros Unique. induction docs as [|d docs IH]; [constructor|].
  cbn [map] in Unique. inversion Unique as [|? ? Fresh Rest]; subst.
  cbn [filter]. destruct (keep d); [|now apply IH].
  cbn [map]. constructor; [|now apply IH].
  intros Hin. apply Fresh. apply in_map_iff in Hin as (y & E & Hy).
  apply filter_In in Hy as [Hy _]. rewrite <- E. now apply in_map.
Qed.

Lemma in_firstn {A} (n : nat) (l : list A) (y : A) :
  In y (firstn n l) -> In y l.
Proof.
  intros H. rewrite <- (firstn_skipn n l). apply in_or_app. now left.
Qed.

(** So does keeping its first documents. *)
Lemma firstn_unique_ids (n : nat) (docs : list Recipient) :
  NoDup (map r_id docs) -> NoDup (map r_id (firstn n docs)).
Proof.
  revert docs; induction n as [|n IH]; intros [|d docs] Unique;
    try constructor.
  - cbn [map] in Unique. inversion Unique as [|? ? Fresh Rest]; subst.
    intros Hin. apply Fresh. apply in_map_iff in Hin as (y & E & Hy).
    rewrite <- E. apply in_map. eapply in_firstn. eassumption.
  - apply IH. cbn [map] in Unique. now inversion Unique.
Qed.

Lemma selected_ids (cid : string) (test_mode : bool) (w : World) :
  NoDup (map r_id (recipients w)) ->
  NoDup (map r_id (selected_of cid test_mode w)).
Proof.
  intros ND. unfold selected_of, select_recipients, pending_of.
  pose proof (filter_unique_ids
                (in_campaign_with_status cid "pending") _ ND) as NDf.
  destruct test_mode; [|assumption].
  unfold slice. cbn [skipn Nat.sub]. now apply firstn_unique_ids.
Qed.

Lemma combine_ids (sel : list Recipient) (oks : list bool) :
  List.length oks = List.length sel ->
  map (fun p : Recipient * bool => r_id (fst p)) (combine sel oks)
  = map r_id sel.
Proof.
  revert oks; induction sel as [|r sel IH]; intros [|b oks] L;
    try discriminate; [reflexivity|].
  cbn. f_equal. apply IH. now injection L.
Qed.

Lemma in_combine_nth (sel : list Recipient) (oks : list bool) (i : nat)
  (r : Recipient) (ok : bool) :
  nth_error sel i = Some r -> nth_error oks i = Some ok ->
  In (r, ok) (combine sel oks).
Proof.
  revert sel oks; induction i as [|i IH]; intros [|x sel] [|y oks] Hr Ho;
    try discriminate; cbn in *.
  - left. congruence.
  - right. now apply IH.
Qed.

End StoreFacts.
Import StoreFacts.

(** ** The batches *)

Module BatchFacts.

Lemma ceil_step (n i : nat) :
  i < n -> (n - i + 9) / 10 = S ((n - (i + 10) + 9) / 10).
Proof.
  intros H.
  destruct (Nat.le_gt_cases (i + 10) n) as [L|L].
  - replace (n - i + 9) with (n - (i + 10) + 9 + 1 * 10) by lia.
    rewrite Nat.div_add by discriminate. lia.
  - replace (n - (i + 10)) with 0 by lia.
    change ((0 + 9) / 10) with 0.
    symmetry. apply Nat.div_unique with (r := n - i - 1). all: lia.
Qed.

Lemma ceil_done (n i : nat) : n <= i -> (n - i + 9) / 10 = 0.
Proof. intros H. replace (n - i) with 0 by lia. reflexivity. Qed.

(** The batch starts are the multiples of the batch size below the
    length, and there are ceil(n / 10) of them. *)
Lemma range_from_seq (fuel i n : nat) :
  n - i <= fuel ->
  range_from fuel i n batch_size
  = map (fun k => i + batch_size * k) (seq 0 ((n - i + 9) / 10)).
Proof.
  revert i; induction fuel as [|fuel IH]; intros i L.
  - rewrite ceil_done by lia. reflexivity.
  - destruct (Nat.lt_ge_cases i n) as [Lt|Ge].
    + rewrite range_from_here by assumption.
      rewrite IH by (unfold batch_size; lia).
      rewrite (ceil_step n i Lt). cbn [seq map].
      rewrite <- seq_shift, map_map. f_equal; [unfold batch_size; lia|].
      apply map_ext. intros k. unfold batch_size. lia.
    + rewrite range_from_done by assumption.
      now rewrite ceil_done.
Qed.

Lemma batches_seq {A} (l : list A) :
  batches l
  = map (fun k => firstn batch_size (skipn (batch_size * k) l))
        (seq 0 ((List.length l + 9) / 10)).
Proof.
  unfold batches, range. rewrite range_from_seq by lia.
  rewrite Nat.sub_0_r, map_map. apply map_ext. intros k.
  cbn [Nat.add]. apply slice_skipn.
Qed.

Lemma batches_length {A} (l : list A) :
  List.length (batches l) = (List.length l + 9) / 10.
Proof. now rewrite batches_seq, length_map, length_seq. Qed.

Lemma batches_nth {A} (l : list A) (k : nat) :
  k < List.length (batches l) ->
  nth k (batches l) [] = firstn batch_size (skipn (batch_size * k) l).
Proof.
  rewrite batches_length. intros H. rewrite batches_seq.
  set (f := fun k => firstn batch_size (skipn (batch_size * k) l)).
  rewrite (nth_indep _ [] (f 0)) by now rewrite length_map, length_seq.
  rewrite map_nth, seq_nth by assumption. reflexivity.
Qed.

(** Every batch but the last is full; the last holds what remains,
    between one and ten recipients. *)
Lemma batches_sizes {A} (l : list A) (k : nat) :
  k < List.length (batches l) ->
  (S k < List.length (batches l) ->
   List.length (nth k (batches l) []) = batch_size)
  /\ (S k = List.length (batches l) ->
      List.length (nth k (batches l) []) = List.length l - batch_size * k
      /\ 1 <= List.length l - batch_size * k <= batch_size).
Proof.
  intros H. rewrite (batches_nth l k H).
  rewrite batches_length in *.
  rewrite length_firstn, length_skipn. unfold batch_size.
  pose proof (Nat.div_mod_eq (List.length l + 9) 10) as E.
  pose proof (Nat.mod_upper_bound (List.length l + 9) 10 ltac:(discriminate)) as B.
  split; intros Hk; [lia|].
  split; lia.
Qed.

Lemma concat_slices {A} (l : list A) (fuel i : nat) :
  List.length l - i <= fuel ->
  List.concat (map (fun j => slice l j (j + batch_size))
              (range_from fuel i (List.length l) batch_size))
  = skipn i l.
Proof.
  revert i; induction fuel as [|fuel IH]; intros i L.
  - now rewrite skipn_all2 by lia.
  - destruct (Nat.lt_ge_cases i (List.length l)) as [Lt|Ge].
    + rewrite range_from_here by assumption. cbn [map List.concat].
      rewrite IH by (unfold batch_size; lia).
      rewrite slice_skipn, skipn_add. apply firstn_skipn.
    + rewrite range_from_done by assumption.
      now rewrite skipn_all2 by assumption.
Qed.

(** The batches, one after the other, are the list itself. *)
Lemma batches_concat {A} (l : list A) : List.concat (batches l) = l.
Proof. unfold batches, range. now rewrite concat_slices by lia. Qed.

End BatchFacts.
Import BatchFacts.

(** ** The recipients built from documents *)

Module ModelFacts.

Lemma model_of_id (validate_email : string -> exn + string) (r : Recipient) :
  r_id (model_of validate_email r) = r_id r.
Proof.
  unfold model_of. now destruct (validate_email (r_email r)).
Qed.


Lemma select_recipients_map (f : Recipient -> Recipient) (test_mode : bool)
  (docs : list Recipient) :
  select_recipients test_mode (map f docs)
  = map f (select_recipients test_mode docs).
Proof.
  unfold select_recipients, slice. destruct test_mode; [|reflexivity].
  cbn [skipn Nat.sub]. apply firstn_map.
Qed.

(** A status write looks at the id only, which the model has from the
    document. *)
Lemma mark_all_models (validate_email : string -> exn + string)
  (sel : list Recipient) :
  forall (oks : list bool) (docs : list Recipient),
  mark_all (combine (map (model_of validate_email) sel) oks) docs
  = mark_all (combine sel oks) docs.
Proof.
  induction sel as [|r sel IH]; intros [|ok oks] docs; try reflexivity.
  cbn [map combine mark_all fold_left]. unfold mark at 2 4. cbn [fst snd].
  rewrite model_of_id. apply IH.
Qed.


End ModelFacts.
Import ModelFacts.

(** ** The run while the store is up *)

Section RunUp.

Variable sender_email : option string.
Variable db_fault : nat -> option exn.
Variable sg_send : nat -> Mail -> SendOutcome.
Variable validate_email : string -> exn + string.
Variable validation_message : list exn -> exn.
Hypothesis Up : store_up db_fault.

Lemma campaigns_find_one_up (cid : string) (w : World) :
  campaigns_find_one db_fault cid w
  = (bump w, Returned (find (has_campaign_id cid) (campaigns w))).
Proof. unfold campaigns_find_one, bind, db_call. now rewrite Up. Qed.

Lemma recipients_find_up (cid status : string) (w : World) :
  recipients_find db_fault cid status w
  = (bump w,
     Returned (filter (in_campaign_with_status cid status) (recipients w))).
Proof. unfold recipients_find, bind, db_call. now rewrite Up. Qed.

Lemma campaigns_update_one_up (cid : string) (upd : CampaignSet) (w : World) :
  exists w',
    campaigns_update_one db_fault cid upd w = (w', Returned tt)
    /\ campaigns w' = campaigns_after cid upd (campaigns w)
    /\ recipients w' = recipients w
    /\ clock w' = clock w
    /\ sg_calls w' = sg_calls w
    /\ trace w' = (trace w ++ [EvCampaignUpdate cid upd])%list.
Proof.
  unfold campaigns_update_one, bind, db_call. rewrite Up.
  eexists. split; [reflexivity|]. now repeat split.
Qed.

(** A run on a campaign that is there, with the store up: what it
    leaves behind. *)
Lemma campaign_run_up (cid : string) (test_mode : bool) (w : World)
  (c : Campaign) :
  find (has_campaign_id cid) (campaigns w) = Some c ->
  forallb (doc_valid validate_email) (pending_of cid w) = true ->
  let sel := selected_of cid test_mode w in
  let oks := send_oks sender_email sg_send c (sg_calls w)
               (map (model_of validate_email) sel) in
  let final := final_set (final_status_of (count_failed oks)) (count_ok oks)
                         (count_failed oks) (S (clock w)) in
  exists w',
    campaign_run sender_email db_fault sg_send validate_email
      validation_message cid test_mode w
    = (w', Returned tt)
    /\ campaigns w'
       = campaigns_after cid final
           (campaigns_after cid (sending_set (clock w)) (campaigns w))
    /\ recipients w' = mark_all (combine sel oks) (recipients w)
    /\ sg_calls w' = sg_calls w + List.length sel
    /\ sends (trace w')
       = (sends (trace w)
          ++ map (fun r => message_for sender_email
                             (model_of validate_email r) c) sel)%list
    /\ campaign_writes (trace w')
       = (campaign_writes (trace w) ++ [(cid, sending_set (clock w)); (cid, final)])%list
    /\ exists new,
         trace w' = (trace w ++ new)%list
         /\ send_rounds new
            = map (map (fun r => message_for sender_email r c))
                  (batches (map (model_of validate_email) sel)).
Proof.
  intros Found Valid sel oks final.
  unfold campaign_run.
  rewrite (bind_returned _ _ _ _ _ (campaigns_find_one_up cid w)), Found.
  rewrite (bind_returned now _ (bump w) (tick (bump w)) (clock w) eq_refl).
  destruct (campaigns_update_one_up cid (sending_set (clock w)) (tick (bump w)))
    as (w3 & E3 & C3 & R3 & K3 & G3 & T3).
  rewrite (bind_returned _ _ _ _ _ E3).
  rewrite (bind_returned _ _ _ _ _ (recipients_find_up cid "pending" w3)).
  cbn [campaigns recipients clock sg_calls trace tick bump] in *.
  rewrite R3. fold (pending_of cid w).
  rewrite (bind_returned _ _ _ _ _
             (read_recipients_valid validate_email validation_message
                (pending_of cid w) (bump w3) Valid)).
  rewrite select_recipients_map. fold (selected_of cid test_mode w).
  fold sel. set (msel := map (model_of validate_email) sel) in *.
  unfold range.
  destruct (send_batches_up sender_email db_fault sg_send c msel Up
              (List.length msel) 0 (0%Z, 0%Z) (bump w3) ltac:(lia))
    as (w5 & E5 & C5 & K5 & R5 & G5 & S5 & W5).
  destruct (send_batches_rounds sender_email db_fault sg_send c msel Up
              (range_from (List.length msel) 0 (List.length msel) batch_size)
              (range_from_below _ _ _ _) (0%Z, 0%Z) (bump w3))
    as (new & T5 & Rounds).
  rewrite E5 in T5.
  cbn [skipn sg_calls bump campaigns recipients clock trace fst snd] in *.
  rewrite G3 in *. fold oks in E5, R5. rewrite !Z.add_0_l in E5.
  rewrite (bind_returned _ _ _ _ _ E5). cbn [fst snd].
  rewrite (bind_returned now _ w5 (tick w5) (clock w5) eq_refl).
  assert (Ek : clock w5 = S (clock w)) by congruence.
  rewrite Ek. fold final.
  destruct (campaigns_update_one_up cid final (tick w5))
    as (w7 & E7 & C7 & R7 & K7 & G7 & T7).
  rewrite (bind_returned _ _ _ _ _ E7).
  cbn [campaigns recipients clock sg_calls trace tick] in *.
  eexists. split; [reflexivity|].
  cbn [campaigns recipients clock sg_calls trace].
  subst msel. rewrite mark_all_models in R5. rewrite length_map in G5.
  rewrite map_map in S5.
  split; [congruence|]. split; [congruence|]. split; [congruence|].
  split.
  { rewrite sends_app, T7, sends_app. cbn. rewrite !app_nil_r, S5.
    rewrite T3, sends_app. cbn. now rewrite app_nil_r. }
  split.
  { rewrite campaign_writes_app, T7, campaign_writes_app. cbn.
    rewrite !app_nil_r, W5, T3, campaign_writes_app, <- app_assoc.
    reflexivity. }
  eexists (EvCampaignUpdate cid (sending_set (clock w))
           :: new ++ [EvCampaignUpdate cid final; EvLog INFO _])%list.
  split.
  - rewrite T7, T5, T3. rewrite <- !app_assoc. reflexivity.
  - unfold send_rounds. cbn [rounds_from close_round app].
    rewrite Rounds. cbn [rounds_from close_round]. rewrite app_nil_r.
    unfold batches, range. now rewrite map_map.
Qed.

(** A run on a campaign that is there, with the store up, when a pending
    document has an address that does not validate: the body raises after
    the write of sending, before any call or status write. *)
Lemma campaign_run_stray (cid : string) (test_mode : bool) (w : World)
  (c : Campaign) :
  find (has_campaign_id cid) (campaigns w) = Some c ->
  forallb (doc_valid validate_email) (pending_of cid w) = false ->
  exists w1 e,
    campaign_run sender_email db_fault sg_send validate_email
      validation_message cid test_mode w
    = (w1, Raised e)
    /\ campaigns w1
       = campaigns_after cid (sending_set (clock w)) (campaigns w)
    /\ recipients w1 = recipients w
    /\ clock w1 = S (clock w)
    /\ trace w1
       = (trace w ++ [EvCampaignUpdate cid (sending_set (clock w))])%list.
Proof.
  intros Found Stray.
  unfold campaign_run.
  rewrite (bind_returned _ _ _ _ _ (campaigns_find_one_up cid w)), Found.
  rewrite (bind_returned now _ (bump w) (tick (bump w)) (clock w) eq_refl).
  destruct (campaigns_update_one_up cid (sending_set (clock w)) (tick (bump w)))
    as (w3 & E3 & C3 & R3 & K3 & G3 & T3).
  rewrite (bind_returned _ _ _ _ _ E3).
  rewrite (bind_returned _ _ _ _ _ (recipients_find_up cid "pending" w3)).
  cbn [campaigns recipients clock sg_calls trace tick bump] in *.
  rewrite R3. fold (pending_of cid w).
  destruct (read_recipients validate_email validation_message
              (pending_of cid w) (bump w3)) as [w4 r4] eqn:Rd.
  destruct (read_recipients_inv _ _ _ _ _ _ Rd) as [-> [[V _]|[_ [e ->]]]];
    [congruence|].
  unfold bind at 1. rewrite Rd.
  exists (bump w3), e. split; [reflexivity|].
  cbn [campaigns recipients clock trace bump]. now repeat split.
Qed.

Lemma process_up (cid : string) (test_mode : bool) (w w' : World) :
  campaign_run sender_email db_fault sg_send validate_email validation_message
    cid test_mode w
  = (w', Returned tt) ->
  process_bulk_email_campaign sender_email db_fault sg_send validate_email
    validation_message cid test_mode w
  = (w', Returned tt).
Proof. unfold process_bulk_email_campaign, try_catch. now intros ->. Qed.

End RunUp.

(* ================================================================== *)
(** * The personaliser *)

Lemma fold_replace_both (items : list (string * pyval)) (t : texts) :
  fold_left
    (fun t kv => replace_both (placeholder (fst kv)) (py_str (snd kv)) t)
    items t
  = (metadata_steps items (fst t), metadata_steps items (snd t)).
Proof.
  revert t; induction items as [|kv items IH]; intros [a b]; [reflexivity|].
  cbn [fold_left]. rewrite IH. reflexivity.
Qed.

(** Content and subject go through the same steps, each on its own. *)
Lemma personalize_texts_split (r : Recipient) (c : Campaign) :
  personalize_texts r c
  = (personalize r (c_content c), personalize r (c_subject c)).
Proof.
  unfold personalize_texts, personalize, name_step.
  rewrite fold_replace_both.
  destruct (truthy (r_name r)); [|reflexivity].
  destruct (r_name r); reflexivity.
Qed.

Example render_name :
  personalize Sample.ana "Hi {{name}}" = "Hi Ana".
Proof. reflexivity. Qed.

Example render_unmatched :
  personalize Sample.ana "Hi {{missing}}" = "Hi {{missing}}".
Proof. reflexivity. Qed.

Example render_number :
  personalize Sample.by_metadata "{{name}} is {{age}}" = "Dee is 30".
Proof. reflexivity. Qed.

(** C3, as stated, fails: the code does not substitute an empty name,
    and a value that a replacement put in is rewritten by the
    replacements that follow.  On both inputs the output differs from the
    one-pass substitution the claim describes. *)
Lemma personalize_differs_from_spec :
  (personalize Sample.blank "Hi {{name}}" = "Hi {{name}}"
   /\ spec_render Sample.blank "Hi {{name}}" = "Hi ")
  /\ (personalize Sample.chained "{{a}}" = "x"
      /\ spec_render Sample.chained "{{a}}" = "{{b}}").
Proof. repeat split; reflexivity. Qed.

(** C3 (amended): on a template made of text without an opening brace and
    of placeholders [{{key}}] with brace-free keys, for a recipient whose
    keys are brace-free and whose values hold no opening brace, content
    and subject are each rewritten on their own and every placeholder is
    replaced by the value [send_single_email] has for its key (the name
    when it is non-empty, else the string form of the metadata value of
    that key), while a placeholder without such a value stays verbatim;
    and a text that holds no [{{] at all is returned unchanged for every
    recipient. *)
Theorem personalize_fills_placeholders (r : Recipient) (c : Campaign)
  (body subject : list segment) :
  forallb binding_ok (bindings r) = true ->
  forallb segment_ok body = true ->
  forallb segment_ok subject = true ->
  c_content c = flatten body ->
  c_subject c = flatten subject ->
  personalize_texts r c
  = (flatten (map (fill (bindings r)) body),
     flatten (map (fill (bindings r)) subject))
  /\ (forall (r' : Recipient) (text : string),
        occurs "{{" text = false -> personalize r' text = text).
Proof.
  intros Hb Hbody Hsubj Ec Es. split.
  - rewrite personalize_texts_split, Ec, Es.
    rewrite !personalize_replace_all.
    now rewrite !replace_all_flatten.
  - intros r' text H. rewrite personalize_replace_all.
    now apply replace_all_absent.
Qed.

Lemma personalize_fills_placeholders_witness :
  forallb binding_ok (bindings Sample.ana) = true
  /\ personalize_texts Sample.ana Sample.campaign
     = ("Dear Ana of Lima", "Hi Ana").
Proof.
  split; [reflexivity|].
  exact (proj1 (personalize_fills_placeholders Sample.ana Sample.campaign
                  [Lit "Dear "; Hole "name"; Lit " of "; Hole "city"]
                  [Lit "Hi "; Hole "name"]
                  eq_refl eq_refl eq_refl eq_refl eq_refl)).
Defined.

Lemma lookup_none_in (key : string) (bs : list (string * string)) :
  lookup key bs = None -> forall kv, In kv bs -> fst kv <> key.
Proof.
  induction bs as [|[k v] bs IH]; intros H kv Hin; [contradiction|].
  cbn [lookup] in H. destruct (String.eqb_spec k key) as [|NE]; [discriminate|].
  destruct Hin as [<-|Hin]; [exact NE|now apply IH].
Qed.

Lemma falsy_bindings (r : Recipient) :
  truthy (r_name r) = false ->
  bindings r = map (fun kv => (fst kv, py_str (snd kv))) (metadata_items r).
Proof. unfold bindings. now intros ->. Qed.

(** C10, as stated, fails: for a recipient without a name and without a
    metadata key [name], a metadata key that holds braces takes the
    placeholder [{{name}}] away; and for one whose metadata has the key
    [name], what ends up in the text is not that value when a later
    replacement rewrites it. *)
Lemma falsy_name_not_always_verbatim :
  (truthy (r_name Sample.braced) = false
   /\ lookup "name" (bindings Sample.braced) = None
   /\ personalize Sample.braced "{{name}} {{x}}" = "v"
   /\ occurs "{{name}}" (personalize Sample.braced "{{name}} {{x}}") = false)
  /\ (truthy (r_name Sample.relayed) = false
      /\ lookup "name" (bindings Sample.relayed) = Some "{{z}}"
      /\ personalize Sample.relayed "Hi {{name}}" = "Hi q").
Proof. repeat split; reflexivity. Qed.

(** C10 (amended): for a recipient whose name is [None] or the empty
    string the name field is not used: the replacements are those of the
    metadata alone, each value through [str]; where the metadata has no
    key [name] and its keys hold no brace, a placeholder [{{name}}] stays
    verbatim and the text around it is rewritten on its own; where it has
    the key [name], its keys hold no brace and its values no opening
    brace, on a template of text without an opening brace and of
    placeholders with brace-free keys the placeholder is filled with the
    string form of that value; content and subject alike; and the send
    never raises, whatever the metadata values are. *)
Theorem falsy_name_personalize (r : Recipient) :
  truthy (r_name r) = false ->
  let md := map (fun kv => (fst kv, py_str (snd kv))) (metadata_items r) in
  bindings r = md
  /\ (forall c : Campaign,
        personalize_texts r c
        = (replace_all md (c_content c), replace_all md (c_subject c)))
  /\ (lookup "name" md = None ->
      forallb (fun kv => no_brace (fst kv)) md = true ->
      forall a b : string,
        personalize r (a ++ "{{name}}" ++ b)
        = personalize r a ++ "{{name}}" ++ personalize r b)
  /\ (forall v : string,
        lookup "name" md = Some v ->
        forallb binding_ok md = true ->
        forall segs : list segment,
          forallb segment_ok segs = true ->
          personalize r (flatten segs) = flatten (map (fill md) segs)
          /\ fill md (Hole "name") = Lit v)
  /\ (forall (sender_email : option string)
             (sg_send : nat -> Mail -> SendOutcome) (c : Campaign) (w : World),
        exists (w' : World) (ok : bool),
          send_single_email sender_email sg_send r c w = (w', Returned ok)).
Proof.
  intros Falsy md.
  pose proof (falsy_bindings r Falsy) as Eb. fold md in Eb.
  split; [exact Eb|]. split; [|split; [|split]].
  - intros c. rewrite personalize_texts_split, !personalize_replace_all.
    now rewrite Eb.
  - intros NoName Keys a b. rewrite !personalize_replace_all, Eb.
    apply (replace_all_keeps_placeholder "name"); [reflexivity|].
    intros kv Hin. split.
    + rewrite forallb_forall in Keys. now apply Keys.
    + now apply (lookup_none_in "name" md NoName).
  - intros v Hv OK segs Hsegs. split.
    + rewrite personalize_replace_all, Eb. now apply replace_all_flatten.
    + cbn [fill]. now rewrite Hv.
  - intros sender_email sg_send c w.
    destruct (send_single_email_spec sender_email sg_send r c w)
      as (w' & E & _).
    eexists. eexists. exact E.
Qed.

Lemma falsy_name_personalize_witness :
  truthy (r_name Sample.by_metadata) = false
  /\ bindings Sample.by_metadata = [("name", "Dee"); ("age", "30")]
  /\ personalize Sample.by_metadata
       (flatten [Lit "Hi "; Hole "name"; Lit ", "; Hole "city"])
     = flatten (map (fill [("name", "Dee"); ("age", "30")])
                    [Lit "Hi "; Hole "name"; Lit ", "; Hole "city"])
  /\ fill [("name", "Dee"); ("age", "30")] (Hole "name") = Lit "Dee".
Proof.
  destruct (falsy_name_personalize Sample.by_metadata eq_refl)
    as (B & _ & _ & F & _).
  split; [reflexivity|]. split; [exact B|].
  exact (F "Dee" eq_refl eq_refl
           [Lit "Hi "; Hole "name"; Lit ", "; Hole "city"] eq_refl).
Defined.

Example blank_name_stays :
  personalize Sample.blank "Hi {{name}}" = "Hi {{name}}".
Proof. reflexivity. Qed.

Example metadata_name_fills :
  personalize Sample.by_metadata "Hi {{name}}" = "Hi Dee".
Proof. reflexivity. Qed.

(* ================================================================== *)
(** * The dispatch engine *)

Module RunLemmas.

Lemma in_combine_l (sel : list Recipient) (oks : list bool) (r : Recipient) :
  List.length oks = List.length sel ->
  In r sel -> exists ok, In (r, ok) (combine sel oks).
Proof.
  revert oks; induction sel as [|x sel IH]; intros [|b oks] L Hin;
    try discriminate; try contradiction.
  destruct Hin as [->|Hin].
  - exists b. now left.
  - destruct (IH oks ltac:(now injection L) Hin) as [ok H].
    exists ok. now right.
Qed.

Lemma send_oks_nth (sender_email : option string)
  (sg_send : nat -> Mail -> SendOutcome) (c : Campaign)
  (sel : list Recipient) (i : nat) (r : Recipient) :
  forall n,
  nth_error sel i = Some r ->
  nth_error (send_oks sender_email sg_send c n sel) i
  = Some (send_ok (sg_send (n + i) (message_for sender_email r c))).
Proof.
  revert i; induction sel as [|x sel IH]; intros [|i] n H; try discriminate.
  - injection H as ->. cbn. now rewrite Nat.add_0_r.
  - cbn [send_oks nth_error]. rewrite (IH i (S n) H). do 3 f_equal. lia.
Qed.

(** The successes depend on the provider only through [send_ok]. *)
Lemma send_oks_ext (sender_email : option string)
  (sg_send sg_send' : nat -> Mail -> SendOutcome) (c : Campaign)
  (sel : list Recipient) :
  (forall n m, send_ok (sg_send n m) = send_ok (sg_send' n m)) ->
  forall n,
  send_oks sender_email sg_send c n sel
  = send_oks sender_email sg_send' c n sel.
Proof.
  intros Agree. induction sel as [|r sel IH]; intros n; [reflexivity|].
  cbn [send_oks]. now rewrite Agree, IH.
Qed.

Lemma selected_in_store (cid : string) (test_mode : bool) (w : World)
  (r : Recipient) :
  In r (selected_of cid test_mode w) -> In r (recipients w).
Proof.
  unfold selected_of, select_recipients, pending_of, slice.
  intros H. destruct test_mode.
  - cbn [skipn Nat.sub] in H. apply in_firstn in H.
    now apply filter_In in H.
  - now apply filter_In in H.
Qed.

Lemma selected_pending (cid : string) (test_mode : bool) (w : World)
  (r : Recipient) :
  In r (selected_of cid test_mode w) ->
  r_campaign_id r = Some cid /\ r_status r = "pending".
Proof.
  unfold selected_of, select_recipients, pending_of, slice.
  intros H.
  assert (Hf : In r (filter (in_campaign_with_status cid "pending")
                            (recipients w))).
  { destruct test_mode; [|assumption].
    cbn [skipn Nat.sub] in H. now apply in_firstn in H. }
  apply filter_In in Hf as [_ Hf]. unfold in_campaign_with_status in Hf.
  destruct (r_campaign_id r) as [c|]; [|discriminate].
  apply andb_prop in Hf as [H1 H2].
  apply String.eqb_eq in H1, H2. now subst.
Qed.

Lemma marked_doc_exists (pairs : list (Recipient * bool))
  (docs : list Recipient) (r : Recipient) :
  In r docs -> exists d, In d (mark_all pairs docs) /\ r_id d = r_id r.
Proof.
  intros H. apply (in_map r_id) in H. rewrite <- (mark_all_ids pairs) in H.
  apply in_map_iff in H as (d & E & Hd). now exists d.
Qed.

Lemma same_but_refl (c : Campaign) : same_but_status_time c c.
Proof. unfold same_but_status_time. now repeat split. Qed.

Lemma same_but_trans (c1 c2 c3 : Campaign) :
  same_but_status_time c1 c2 -> same_but_status_time c2 c3 ->
  same_but_status_time c1 c3.
Proof.
  unfold same_but_status_time. intros H1 H2.
  decompose [and] H1. decompose [and] H2. repeat split; congruence.
Qed.

Lemma Forall2_same_refl (cs : list Campaign) :
  Forall2 same_but_status_time cs cs.
Proof. induction cs; constructor; [apply same_but_refl|assumption]. Qed.

Lemma Forall2_same_trans (a b c : list Campaign) :
  Forall2 same_but_status_time a b -> Forall2 same_but_status_time b c ->
  Forall2 same_but_status_time a c.
Proof.
  intros H; revert c; induction H as [|x y a b Hxy _ IH]; intros c Hbc;
    inversion Hbc; subst; constructor.
  - eapply same_but_trans; eassumption.
  - now apply IH.
Qed.

(** A [$set] that names neither counter changes status and time only. *)
Lemma campaigns_after_same (cid : string) (upd : CampaignSet)
  (cs : list Campaign) :
  set_sent_count upd = None -> set_failed_count upd = None ->
  Forall2 same_but_status_time cs (campaigns_after cid upd cs).
Proof.
  intros Hs Hf. unfold campaigns_after.
  induction cs as [|c cs IH]; [constructor|].
  cbn [update_first]. destruct (has_campaign_id cid c).
  - constructor; [|apply Forall2_same_refl].
    unfold same_but_status_time, apply_set. cbn. rewrite Hs, Hf.
    now repeat split.
  - constructor; [apply same_but_refl|exact IH].
Qed.

End RunLemmas.
Import RunLemmas.

(** C1: in a run without run-level fault (the campaign is there, the
    store does not fault and the address of every pending document of the
    campaign validates), with recipient ids unique in the store, the run
    returns, the persisted sent_count plus failed_count is the number of
    selected recipients, and the document of every selected recipient
    (which was pending and is still there) has status sent or failed. *)
Theorem counter_invariant (sender_email : option string)
  (db_fault : nat -> option exn) (sg_send : nat -> Mail -> SendOutcome)
  (validate_email : string -> exn + string)
  (validation_message : list exn -> exn)
  (cid : string) (test_mode : bool) (w : World) (c : Campaign) :
  store_up db_fault ->
  find (has_campaign_id cid) (campaigns w) = Some c ->
  forallb (doc_valid validate_email) (pending_of cid w) = true ->
  NoDup (map r_id (recipients w)) ->
  exists (w' : World) (c' : Campaign),
    process_bulk_email_campaign sender_email db_fault sg_send validate_email
      validation_message cid test_mode w
    = (w', Returned tt)
    /\ find (has_campaign_id cid) (campaigns w') = Some c'
    /\ (c_sent_count c' + c_failed_count c')%Z
       = Z.of_nat (List.length (selected_of cid test_mode w))
    /\ (forall r : Recipient,
          In r (selected_of cid test_mode w) ->
          r_status r = "pending"
          /\ (exists d, In d (recipients w') /\ r_id d = r_id r)
          /\ (forall d, In d (recipients w') -> r_id d = r_id r ->
                        r_status d = "sent" \/ r_status d = "failed")).
Proof.
  intros Up Found Valid ND.
  destruct (campaign_run_up sender_email db_fault sg_send validate_email
              validation_message Up cid test_mode w c Found Valid)
    as (w' & E & C & R & _).
  cbv zeta in C, R.
  set (sel := selected_of cid test_mode w) in *.
  set (oks := send_oks sender_email sg_send c (sg_calls w)
                (map (model_of validate_email) sel)) in *.
  assert (L : List.length oks = List.length sel).
  { unfold oks. now rewrite send_oks_length, length_map. }
  eexists w', _. split; [now apply process_up|].
  split; [rewrite C, !find_campaigns_after, Found; reflexivity|].
  split.
  { cbn [apply_set c_sent_count c_failed_count final_set sending_set
         set_sent_count set_failed_count or_else].
    now rewrite count_total, L. }
  intros r Hr. split; [apply (selected_pending cid test_mode w r Hr)|].
  split.
  - rewrite R. apply marked_doc_exists.
    now apply (selected_in_store cid test_mode).
  - intros d Hd Hid. rewrite R in Hd.
    destruct (in_combine_l sel oks r L Hr) as [ok Hok].
    assert (NDp : NoDup (map (fun p : Recipient * bool => r_id (fst p))
                             (combine sel oks))).
    { rewrite combine_ids by assumption. now apply selected_ids. }
    rewrite (mark_all_status _ NDp _ r d ok ND Hok Hd Hid).
    destruct ok; [now left|now right].
Qed.

Lemma counter_invariant_witness :
  store_up Sample.store_ok
  /\ find (has_campaign_id "c1") (campaigns Sample.world) = Some Sample.campaign
  /\ forallb (doc_valid Sample.validator) (pending_of "c1" Sample.world)
     = true
  /\ NoDup (map r_id (recipients Sample.world))
  /\ exists (w' : World) (c' : Campaign),
       process_bulk_email_campaign None Sample.store_ok
         Sample.provider_faults_first Sample.validator Sample.complaint
         "c1" false Sample.world
       = (w', Returned tt)
       /\ find (has_campaign_id "c1") (campaigns w') = Some c'
       /\ (c_sent_count c' + c_failed_count c')%Z
          = Z.of_nat (List.length (selected_of "c1" false Sample.world))
       /\ (forall r : Recipient,
             In r (selected_of "c1" false Sample.world) ->
             r_status r = "pending"
             /\ (exists d, In d (recipients w') /\ r_id d = r_id r)
             /\ (forall d, In d (recipients w') -> r_id d = r_id r ->
                           r_status d = "sent" \/ r_status d = "failed")).
Proof.
  assert (Up : store_up Sample.store_ok) by (intros n; reflexivity).
  assert (ND : NoDup (map r_id (recipients Sample.world))).
  { cbn. repeat constructor; cbn; intuition discriminate. }
  split; [exact Up|]. split; [reflexivity|]. split; [reflexivity|].
  split; [exact ND|].
  exact (counter_invariant None Sample.store_ok Sample.provider_faults_first
           Sample.validator Sample.complaint "c1" false Sample.world
           Sample.campaign Up eq_refl eq_refl ND).
Defined.

(** C2: in a run without run-level fault (the campaign is there, the
    store does not fault and the address of every pending document of the
    campaign validates), the provider calls of the run come in rounds,
    one per batch of the loop of lines 182-183, each closed by the status
    writes of its batch: for N selected recipients there are ceil(N/10)
    rounds, each of ten calls but possibly the last, which has between
    one and ten; one after the other the rounds are the messages of the
    selected recipients, so that the provider is called once per selected
    recipient, in the order of the selection. *)
Theorem batch_partition (sender_email : option string)
  (db_fault : nat -> option exn) (sg_send : nat -> Mail -> SendOutcome)
  (validate_email : string -> exn + string)
  (validation_message : list exn -> exn)
  (cid : string) (test_mode : bool) (w : World) (c : Campaign) :
  store_up db_fault ->
  find (has_campaign_id cid) (campaigns w) = Some c ->
  forallb (doc_valid validate_email) (pending_of cid w) = true ->
  let sel := map (model_of validate_email) (selected_of cid test_mode w) in
  let n := List.length sel in
  let mail := fun r => message_for sender_email r c in
  exists (w' : World) (new : list Event),
    process_bulk_email_campaign sender_email db_fault sg_send validate_email
      validation_message cid test_mode w = (w', Returned tt)
    /\ trace w' = (trace w ++ new)%list
    /\ send_rounds new = map (map mail) (batches sel)
    /\ List.length (send_rounds new) = (n + 9) / 10
    /\ n <= 10 * List.length (send_rounds new) < n + 10
    /\ (forall k, S k < List.length (send_rounds new) ->
                  List.length (nth k (send_rounds new) []) = 10)
    /\ (forall k, S k = List.length (send_rounds new) ->
                  1 <= List.length (nth k (send_rounds new) []) <= 10)
    /\ List.concat (send_rounds new) = map mail sel
    /\ sends (trace w') = (sends (trace w) ++ map mail sel)%list
    /\ sg_calls w' = sg_calls w + n.
Proof.
  intros Up Found Valid sel n mail.
  destruct (campaign_run_up sender_email db_fault sg_send validate_email
              validation_message Up cid test_mode w c Found Valid)
    as (w' & E & _ & _ & G & S & _ & new & T & Rounds).
  cbv zeta in G, S, Rounds. fold sel mail in Rounds.
  assert (S' : sends (trace w') = (sends (trace w) ++ map mail sel)%list).
  { rewrite S. unfold sel. now rewrite map_map. }
  assert (Len : List.length (send_rounds new) = List.length (batches sel)).
  { rewrite Rounds. apply length_map. }
  assert (Nth : forall k, List.length (nth k (send_rounds new) [])
                          = List.length (nth k (batches sel) [])).
  { intros k. rewrite Rounds.
    change (@nil Mail) with (map mail []). rewrite map_nth.
    apply length_map. }
  exists w', new. split; [now apply process_up|].
  split; [exact T|]. split; [exact Rounds|].
  split; [rewrite Len; apply batches_length|].
  split.
  { rewrite Len, batches_length. fold n.
    pose proof (Nat.div_mod_eq (n + 9) 10) as D.
    pose proof (Nat.mod_upper_bound (n + 9) 10 ltac:(discriminate)) as B.
    lia. }
  split.
  { intros k Hk. rewrite Len in Hk. rewrite Nth.
    now apply (proj1 (batches_sizes sel k ltac:(lia))). }
  split.
  { intros k Hk. rewrite Len in Hk. rewrite Nth.
    destruct (proj2 (batches_sizes sel k ltac:(lia)) Hk) as [E' B].
    rewrite E'. exact B. }
  split.
  { rewrite Rounds, <- concat_map. now rewrite batches_concat. }
  split; [exact S'|].
  unfold n, sel. now rewrite length_map.
Qed.

Lemma batch_partition_witness :
  store_up Sample.store_ok
  /\ find (has_campaign_id "c1") (campaigns (Sample.world_of 25))
     = Some Sample.campaign
  /\ forallb (doc_valid Sample.validator)
             (pending_of "c1" (Sample.world_of 25)) = true
  /\ let sel := map (model_of Sample.validator)
                    (selected_of "c1" false (Sample.world_of 25)) in
     let n := List.length sel in
     let mail := fun r => message_for None r Sample.campaign in
     exists (w' : World) (new : list Event),
       process_bulk_email_campaign None Sample.store_ok Sample.provider_ok
         Sample.validator Sample.complaint "c1" false (Sample.world_of 25)
       = (w', Returned tt)
       /\ trace w' = (trace (Sample.world_of 25) ++ new)%list
       /\ send_rounds new = map (map mail) (batches sel)
       /\ List.length (send_rounds new) = (n + 9) / 10
       /\ n <= 10 * List.length (send_rounds new) < n + 10
       /\ (forall k, S k < List.length (send_rounds new) ->
                     List.length (nth k (send_rounds new) []) = 10)
       /\ (forall k, S k = List.length (send_rounds new) ->
                     1 <= List.length (nth k (send_rounds new) []) <= 10)
       /\ List.concat (send_rounds new) = map mail sel
       /\ sends (trace w')
          = (sends (trace (Sample.world_of 25)) ++ map mail sel)%list
       /\ sg_calls w' = sg_calls (Sample.world_of 25) + n.
Proof.
  assert (Up : store_up Sample.store_ok) by (intros n; reflexivity).
  split; [exact Up|]. split; [reflexivity|]. split; [reflexivity|].
  exact (batch_partition None Sample.store_ok Sample.provider_ok
           Sample.validator Sample.complaint "c1" false (Sample.world_of 25)
           Sample.campaign Up eq_refl eq_refl).
Defined.

Example batches_of_25 :
  map (@List.length nat) (batches (seq 0 25)) = [10; 10; 5].
Proof. reflexivity. Qed.

(** The rounds of a run over 25 pending recipients, and those of a test
    run over the same store. *)
Example rounds_of_25 :
  map (@List.length Mail)
      (send_rounds
         (trace (fst (process_bulk_email_campaign None Sample.store_ok
                        Sample.provider_faults_first Sample.validator
                        Sample.complaint "c1" false (Sample.world_of 25)))))
  = [10; 10; 5]
  /\ map (@List.length Mail)
         (send_rounds
            (trace (fst (process_bulk_email_campaign None Sample.store_ok
                           Sample.provider_ok Sample.validator
                           Sample.complaint "c1" true (Sample.world_of 25)))))
     = [5]
  /\ sleeps
       (trace (fst (process_bulk_email_campaign None Sample.store_ok
                      Sample.provider_ok Sample.validator
                      Sample.complaint "c1" false (Sample.world_of 25))))
     = [1; 1].
Proof. split; [|split]; vm_compute; reflexivity. Qed.

(** C4: in a fault-free run (the campaign is there, the store does not
    fault and the address of every pending document of the campaign
    validates), the last campaign write is one [$set] of status, sent_count,
    failed_count and updated_at, the status being completed when
    failed_count is 0 and completed_with_errors otherwise; the stored
    campaign holds these values; and with no selected recipient the
    counters are 0, the status is completed and the provider is not
    called. *)
Theorem terminal_write (sender_email : option string)
  (db_fault : nat -> option exn) (sg_send : nat -> Mail -> SendOutcome)
  (validate_email : string -> exn + string)
  (validation_message : list exn -> exn)
  (cid : string) (test_mode : bool) (w : World) (c : Campaign) :
  store_up db_fault ->
  find (has_campaign_id cid) (campaigns w) = Some c ->
  forallb (doc_valid validate_email) (pending_of cid w) = true ->
  let sel := selected_of cid test_mode w in
  let oks := send_oks sender_email sg_send c (sg_calls w)
               (map (model_of validate_email) sel) in
  let sent_count := count_ok oks in
  let failed_count := count_failed oks in
  let final_status :=
    if (failed_count =? 0)%Z then "completed" else "completed_with_errors" in
  exists (w' : World) (c' : Campaign),
    process_bulk_email_campaign sender_email db_fault sg_send validate_email
      validation_message cid test_mode w
    = (w', Returned tt)
    /\ campaign_writes (trace w')
       = (campaign_writes (trace w)
          ++ [(cid, mkCampaignSet (Some "sending") None None (Some (clock w)));
              (cid, mkCampaignSet (Some final_status) (Some sent_count)
                                  (Some failed_count) (Some (S (clock w))))])%list
    /\ find (has_campaign_id cid) (campaigns w') = Some c'
    /\ c_status c' = final_status
    /\ c_sent_count c' = sent_count
    /\ c_failed_count c' = failed_count
    /\ c_updated_at c' = S (clock w)
    /\ (sel = [] ->
        c_status c' = "completed" /\ c_sent_count c' = 0%Z
        /\ c_failed_count c' = 0%Z /\ sends (trace w') = sends (trace w)).
Proof.
  intros Up Found Valid sel oks sent_count failed_count final_status.
  destruct (campaign_run_up sender_email db_fault sg_send validate_email
              validation_message Up cid test_mode w c Found Valid)
    as (w' & E & C & _ & _ & S & W & _).
  cbv zeta in C, S, W. fold sel oks sent_count failed_count in C, S, W.
  eexists w', _. split; [now apply process_up|].
  split; [exact W|].
  split; [rewrite C, !find_campaigns_after, Found; reflexivity|].
  cbn [apply_set c_status c_sent_count c_failed_count c_updated_at final_set
       sending_set set_status set_sent_count set_failed_count set_updated_at
       or_else].
  repeat (split; [reflexivity|]).
  intros Empty. subst sent_count failed_count oks. rewrite S, Empty.
  cbn. now rewrite app_nil_r.
Qed.

Lemma terminal_write_witness :
  store_up Sample.store_ok
  /\ find (has_campaign_id "c1") (campaigns Sample.world) = Some Sample.campaign
  /\ forallb (doc_valid Sample.validator) (pending_of "c1" Sample.world)
     = true
  /\ exists (w' : World) (c' : Campaign),
       process_bulk_email_campaign None Sample.store_ok
         Sample.provider_faults_first Sample.validator Sample.complaint
         "c1" false Sample.world
       = (w', Returned tt)
       /\ campaign_writes (trace w')
          = [("c1", mkCampaignSet (Some "sending") None None (Some 100));
             ("c1", mkCampaignSet (Some "completed_with_errors") (Some 2%Z)
                                  (Some 1%Z) (Some 101))]
       /\ find (has_campaign_id "c1") (campaigns w') = Some c'
       /\ c_status c' = "completed_with_errors"
       /\ c_sent_count c' = 2%Z
       /\ c_failed_count c' = 1%Z
       /\ c_updated_at c' = 101
       /\ (selected_of "c1" false Sample.world = [] ->
           c_status c' = "completed" /\ c_sent_count c' = 0%Z
           /\ c_failed_count c' = 0%Z /\ sends (trace w') = sends []).
Proof.
  assert (Up : store_up Sample.store_ok) by (intros n; reflexivity).
  split; [exact Up|]. split; [reflexivity|]. split; [reflexivity|].
  exact (terminal_write None Sample.store_ok Sample.provider_faults_first
           Sample.validator Sample.complaint "c1" false Sample.world
           Sample.campaign Up eq_refl eq_refl).
Defined.

Example empty_run :
  let w' := fst (process_bulk_email_campaign None Sample.store_ok
                   Sample.provider_ok Sample.validator Sample.complaint
                   "c1" false
                   (mkWorld [Sample.campaign]
                            [with_status "sent" Sample.ana] 100 0 0 [])) in
  map (fun c => (c_status c, c_sent_count c, c_failed_count c)) (campaigns w')
  = [("completed", 0%Z, 0%Z)]
  /\ sends (trace w') = [].
Proof. split; reflexivity. Qed.

(** C5: in a run on an existing campaign during which the store does not
    fault and the address of every pending document of the campaign
    validates, with recipient ids unique in the store, the run is not
    aborted and the status stored for every selected recipient is decided
    by the provider's answer to its own call alone: sent for a 202,
    failed for a fault as for any other answer; the counters count these;
    a provider that raises where another one answers without success
    leaves the same recipient and campaign documents; and a task of the
    batch that settled with an exception is written failed as well. *)
Theorem failure_isolation (sender_email : option string)
  (db_fault : nat -> option exn) (sg_send sg_send' : nat -> Mail -> SendOutcome)
  (validate_email : string -> exn + string)
  (validation_message : list exn -> exn)
  (cid : string) (test_mode : bool) (w : World) (c : Campaign) :
  store_up db_fault ->
  find (has_campaign_id cid) (campaigns w) = Some c ->
  forallb (doc_valid validate_email) (pending_of cid w) = true ->
  NoDup (map r_id (recipients w)) ->
  (forall n m, send_ok (sg_send n m) = send_ok (sg_send' n m)) ->
  let sel := selected_of cid test_mode w in
  let oks := send_oks sender_email sg_send c (sg_calls w)
               (map (model_of validate_email) sel) in
  exists (w' w'' : World) (c' : Campaign),
    process_bulk_email_campaign sender_email db_fault sg_send validate_email
      validation_message cid test_mode w
    = (w', Returned tt)
    /\ (forall (i : nat) (r d : Recipient),
          nth_error sel i = Some r ->
          In d (recipients w') -> r_id d = r_id r ->
          r_status d
          = match sg_send (sg_calls w + i)
                    (message_for sender_email (model_of validate_email r) c)
            with
            | Responded code => if (code =? 202)%Z then "sent" else "failed"
            | SendRaised _ => "failed"
            end)
    /\ find (has_campaign_id cid) (campaigns w') = Some c'
    /\ c_sent_count c' = count_ok oks
    /\ c_failed_count c' = count_failed oks
    /\ process_bulk_email_campaign sender_email db_fault sg_send' validate_email
         validation_message cid
         test_mode w = (w'', Returned tt)
    /\ recipients w'' = recipients w'
    /\ campaigns w'' = campaigns w'
    /\ (forall (pairs : list (Recipient * (exn + bool))) (counts : Z * Z)
               (w0 : World),
          exists (w2 : World) (counts' : Z * Z),
            record_results db_fault pairs counts w0 = (w2, Returned counts')
            /\ recipients w2
               = mark_all (map (fun p => (fst p, settled_ok (snd p))) pairs)
                          (recipients w0)).
Proof.
  intros Up Found Valid ND Agree sel oks.
  destruct (campaign_run_up sender_email db_fault sg_send validate_email
              validation_message Up cid test_mode w c Found Valid)
    as (w' & E & C & R & _).
  destruct (campaign_run_up sender_email db_fault sg_send' validate_email
              validation_message Up cid test_mode w c Found Valid)
    as (w'' & E' & C' & R' & _).
  cbv zeta in C, R, C', R'.
  rewrite <- (send_oks_ext sender_email sg_send sg_send' c _ Agree) in C', R'.
  fold sel oks in C, R, C', R'.
  assert (L : List.length oks = List.length sel).
  { unfold oks. now rewrite send_oks_length, length_map. }
  eexists w', w'', _. split; [now apply process_up|].
  split.
  { intros i r d Hi Hd Hid. rewrite R in Hd.
    pose proof (send_oks_nth sender_email sg_send c
                  (map (model_of validate_email) sel) i
                  (model_of validate_email r) (sg_calls w)
                  ltac:(rewrite nth_error_map, Hi; reflexivity))
      as Hok. fold oks in Hok.
    assert (NDp : NoDup (map (fun p : Recipient * bool => r_id (fst p))
                             (combine sel oks))).
    { rewrite combine_ids by assumption. now apply selected_ids. }
    rewrite (mark_all_status _ NDp _ r d _ ND
               (in_combine_nth sel oks i r _ Hi Hok) Hd Hid).
    destruct (sg_send (sg_calls w + i)
                (message_for sender_email (model_of validate_email r) c))
      as [code|e]; reflexivity. }
  split; [rewrite C, !find_campaigns_after, Found; reflexivity|].
  split; [reflexivity|]. split; [reflexivity|].
  split; [now apply process_up|].
  split; [congruence|]. split; [congruence|].
  intros pairs counts w0.
  destruct (record_results_up db_fault pairs Up counts w0)
    as (w2 & E2 & _ & R2 & _).
  eexists w2, _. split; [exact E2|exact R2].
Qed.

Lemma failure_isolation_witness :
  store_up Sample.store_ok
  /\ find (has_campaign_id "c1") (campaigns Sample.world) = Some Sample.campaign
  /\ forallb (doc_valid Sample.validator) (pending_of "c1" Sample.world)
     = true
  /\ NoDup (map r_id (recipients Sample.world))
  /\ (forall n m, send_ok (Sample.provider_faults_first n m)
                  = send_ok (Sample.provider_rejects_first n m))
  /\ exists (w' w'' : World),
       process_bulk_email_campaign None Sample.store_ok
         Sample.provider_faults_first Sample.validator Sample.complaint
         "c1" false Sample.world
       = (w', Returned tt)
       /\ process_bulk_email_campaign None Sample.store_ok
            Sample.provider_rejects_first Sample.validator Sample.complaint
            "c1" false Sample.world
          = (w'', Returned tt)
       /\ recipients w'' = recipients w'
       /\ campaigns w'' = campaigns w'.
Proof.
  assert (Up : store_up Sample.store_ok) by (intros n; reflexivity).
  assert (ND : NoDup (map r_id (recipients Sample.world))).
  { cbn. repeat constructor; cbn; intuition discriminate. }
  assert (Agree : forall n m, send_ok (Sample.provider_faults_first n m)
                              = send_ok (Sample.provider_rejects_first n m)).
  { intros n m. unfold Sample.provider_faults_first,
      Sample.provider_rejects_first. destruct (n =? 0)%nat; reflexivity. }
  split; [exact Up|]. split; [reflexivity|]. split; [reflexivity|].
  split; [exact ND|]. split; [exact Agree|].
  destruct (failure_isolation None Sample.store_ok
              Sample.provider_faults_first Sample.provider_rejects_first
              Sample.validator Sample.complaint
              "c1" false Sample.world Sample.campaign Up eq_refl eq_refl ND
              Agree)
    as (w' & w'' & c' & H1 & _ & _ & _ & _ & H2 & H3 & H4 & _).
  exists w', w''. now repeat split.
Defined.

Example sibling_still_sent :
  map r_status
      (recipients (fst (process_bulk_email_campaign None Sample.store_ok
                          Sample.provider_faults_first Sample.validator
                          Sample.complaint "c1" false
                          Sample.world)))
  = ["failed"; "sent"; "sent"].
Proof. reflexivity. Qed.

(** C6: with test mode on, the selected recipients are the first five
    pending ones in store order when there are at least five, and all of
    them when there are fewer; with test mode off they are all the
    pending ones; and in a run on an existing campaign during which the
    store does not fault and the address of every pending document of
    the campaign validates, these are the recipients the provider is
    called for. *)
Theorem test_mode_cap (sender_email : option string)
  (db_fault : nat -> option exn) (sg_send : nat -> Mail -> SendOutcome)
  (validate_email : string -> exn + string)
  (validation_message : list exn -> exn)
  (cid : string) (w : World) (c : Campaign) :
  store_up db_fault ->
  find (has_campaign_id cid) (campaigns w) = Some c ->
  forallb (doc_valid validate_email) (pending_of cid w) = true ->
  let pending := pending_of cid w in
  (5 <= List.length pending ->
   selected_of cid true w = firstn 5 pending
   /\ List.length (selected_of cid true w) = 5)
  /\ (List.length pending < 5 -> selected_of cid true w = pending)
  /\ selected_of cid false w = pending
  /\ (forall test_mode : bool,
        exists w' : World,
          process_bulk_email_campaign sender_email db_fault sg_send
            validate_email validation_message cid test_mode w
          = (w', Returned tt)
          /\ sends (trace w')
             = (sends (trace w)
                ++ map (fun r => message_for sender_email
                                   (model_of validate_email r) c)
                       (selected_of cid test_mode w))%list).
Proof.
  intros Up Found Valid pending.
  assert (Sel : selected_of cid true w = firstn 5 pending) by reflexivity.
  split; [|split; [|split]].
  - intros L. split; [exact Sel|].
    rewrite Sel, length_firstn. lia.
  - intros L. rewrite Sel. apply firstn_all2. lia.
  - reflexivity.
  - intros test_mode.
    destruct (campaign_run_up sender_email db_fault sg_send validate_email
                validation_message Up cid test_mode w c Found Valid)
      as (w' & E & _ & _ & _ & S & _).
    exists w'. split; [now apply process_up|exact S].
Qed.

Lemma test_mode_cap_witness :
  store_up Sample.store_ok
  /\ find (has_campaign_id "c1") (campaigns (Sample.world_of 7))
     = Some Sample.campaign
  /\ forallb (doc_valid Sample.validator)
             (pending_of "c1" (Sample.world_of 7)) = true
  /\ 5 <= List.length (pending_of "c1" (Sample.world_of 7))
  /\ selected_of "c1" true (Sample.world_of 7)
     = firstn 5 (pending_of "c1" (Sample.world_of 7))
  /\ List.length (selected_of "c1" true (Sample.world_of 7)) = 5
  /\ exists w' : World,
       process_bulk_email_campaign None Sample.store_ok Sample.provider_ok
         Sample.validator Sample.complaint "c1" true (Sample.world_of 7)
       = (w', Returned tt)
       /\ sends (trace w')
          = (sends (trace (Sample.world_of 7))
             ++ map (fun r => message_for None
                                (model_of Sample.validator r) Sample.campaign)
                    (selected_of "c1" true (Sample.world_of 7)))%list.
Proof.
  assert (Up : store_up Sample.store_ok) by (intros n; reflexivity).
  assert (L : 5 <= List.length (pending_of "c1" (Sample.world_of 7))).
  { vm_compute. lia. }
  destruct (test_mode_cap None Sample.store_ok Sample.provider_ok
              Sample.validator Sample.complaint "c1" (Sample.world_of 7)
              Sample.campaign Up eq_refl eq_refl) as (Cap & _ & _ & Run).
  split; [exact Up|]. split; [reflexivity|]. split; [reflexivity|].
  split; [exact L|]. split; [exact (proj1 (Cap L))|].
  split; [exact (proj2 (Cap L))|]. exact (Run true).
Defined.

(** A test run over seven pending recipients calls the provider for the
    first five and leaves the other two pending. *)
Example test_run_of_seven :
  let w' := fst (process_bulk_email_campaign None Sample.store_ok
                   Sample.provider_ok Sample.validator Sample.complaint
                   "c1" true (Sample.world_of 7)) in
  List.length (sends (trace w')) = 5
  /\ map r_status (recipients w')
     = ["sent"; "sent"; "sent"; "sent"; "sent"; "pending"; "pending"].
Proof. split; vm_compute; reflexivity. Qed.

Example test_mode_takes_five :
  let seven := map (fun n => Sample.recipient (py_str (PInt (Z.of_nat n))) "N")
                   (seq 0 7) in
  map r_id (select_recipients true seven) = ["0"; "1"; "2"; "3"; "4"]
  /\ map r_id (select_recipients false seven)
     = ["0"; "1"; "2"; "3"; "4"; "5"; "6"].
Proof. split; reflexivity. Qed.

(* ================================================================== *)
(** * Faults of the run *)

Module FaultLemmas.

(** A run is its body, followed by the handler when the body raised;
    the handler ends with its write or with the fault of that write. *)
Lemma run_cases (sender_email : option string) (db_fault : nat -> option exn)
  (sg_send : nat -> Mail -> SendOutcome)
  (validate_email : string -> exn + string)
  (validation_message : list exn -> exn) (cid : string) (test_mode : bool)
  (w w' : World) (r : result unit) :
  process_bulk_email_campaign sender_email db_fault sg_send validate_email
    validation_message cid test_mode w
  = (w', r) ->
  exists (w1 : World) (rb : result unit),
    campaign_run sender_email db_fault sg_send validate_email
      validation_message cid test_mode w = (w1, rb)
    /\ body_shape db_fault cid w w1 rb
    /\ ((rb = Returned tt /\ w' = w1 /\ r = Returned tt)
        \/ (exists e e',
              rb = Raised e /\ db_fault (db_ops w1) = Some e'
              /\ r = Raised e'
              /\ campaigns w' = campaigns w1
              /\ trace w'
                 = (trace w1
                    ++ [EvLog ERROR ("Error processing campaign " ++ cid
                                     ++ ": " ++ e)])%list)
        \/ (exists e,
              rb = Raised e /\ db_fault (db_ops w1) = None
              /\ r = Returned tt
              /\ campaigns w'
                 = campaigns_after cid (failed_set (clock w1)) (campaigns w1)
              /\ trace w'
                 = (trace w1
                    ++ [EvLog ERROR ("Error processing campaign " ++ cid
                                     ++ ": " ++ e);
                        EvCampaignUpdate cid (failed_set (clock w1))])%list)).
Proof.
  unfold process_bulk_email_campaign. intros H.
  destruct (try_catch_inv _ _ _ _ _ H) as [([] & B & ->)|(w1 & e & B & Hh)].
  - exists w', (Returned tt). split; [exact B|].
    split; [now apply (campaign_run_shape _ _ _ _ _ _ _ _ _ _ B)|]. now left.
  - exists w1, (Raised e). split; [exact B|].
    split; [now apply (campaign_run_shape _ _ _ _ _ _ _ _ _ _ B)|].
    right. destruct (on_fault_inv _ _ _ _ _ _ Hh)
      as [(e' & F & -> & C & T)|(F & -> & C & T)].
    + left. now exists e, e'.
    + right. now exists e.
Qed.

Lemma status_writes_extend (t t' : list Event)
  (new : list (string * CampaignSet)) :
  campaign_writes t' = (campaign_writes t ++ new)%list ->
  status_writes t'
  = (status_writes t
     ++ flat_map (fun cu => match set_status (snd cu) with
                            | Some s => [s]
                            | None => []
                            end) new)%list.
Proof. unfold status_writes. intros ->. apply flat_map_app. Qed.

Lemma final_status_cases (f : Z) :
  final_status_of f = "completed" \/ final_status_of f = "completed_with_errors".
Proof. unfold final_status_of. destruct (f =? 0)%Z; [now left|now right]. Qed.

Lemma final_status_not_failed (f : Z) : final_status_of f <> "failed".
Proof. unfold final_status_of. destruct (f =? 0)%Z; discriminate. Qed.

End FaultLemmas.
Import FaultLemmas.

(** C7, as stated, fails: when the write of the handler faults as well,
    the fault leaves the run.  Here the store is down for every
    operation. *)
Lemma handler_fault_reaches_caller :
  snd (process_bulk_email_campaign None Sample.store_down Sample.provider_ok Sample.validator
         Sample.complaint
         "c1" false Sample.world)
  = Raised "store unavailable".
Proof. reflexivity. Qed.

(** C7 (amended): a fault raised by the body of the run is caught by the
    handler, which logs it and then writes status failed with the clock
    reading as updated_at on the campaign; when that write does not
    fault the run returns to its caller, and a run raises only when that
    write faulted; a body that returns is the whole run; and every
    campaign write of a run that sets status failed is that write of the
    handler after a fault of the body. *)
Theorem run_fault_handling (sender_email : option string)
  (db_fault : nat -> option exn) (sg_send : nat -> Mail -> SendOutcome)
  (validate_email : string -> exn + string)
  (validation_message : list exn -> exn)
  (cid : string) (test_mode : bool) (w w' : World) (r : result unit) :
  process_bulk_email_campaign sender_email db_fault sg_send validate_email
    validation_message cid test_mode w
  = (w', r) ->
  (forall (w1 : World) (e : exn),
     campaign_run sender_email db_fault sg_send validate_email
       validation_message cid test_mode w
     = (w1, Raised e) ->
     In (EvLog ERROR ("Error processing campaign " ++ cid ++ ": " ++ e))
        (trace w')
     /\ (db_fault (db_ops w1) = None ->
         r = Returned tt
         /\ campaigns w'
            = campaigns_after cid
                (mkCampaignSet (Some "failed") None None (Some (clock w1)))
                (campaigns w1)
         /\ campaign_writes (trace w')
            = (campaign_writes (trace w1)
               ++ [(cid, mkCampaignSet (Some "failed") None None
                                       (Some (clock w1)))])%list))
  /\ (forall w1 : World,
        campaign_run sender_email db_fault sg_send validate_email
          validation_message cid test_mode w
        = (w1, Returned tt) ->
        w' = w1 /\ r = Returned tt)
  /\ (exists new : list (string * CampaignSet),
        campaign_writes (trace w') = (campaign_writes (trace w) ++ new)%list
        /\ forall cu, In cu new -> set_status (snd cu) = Some "failed" ->
             exists (w1 : World) (e : exn),
               campaign_run sender_email db_fault sg_send validate_email
                 validation_message cid test_mode w
               = (w1, Raised e)
               /\ db_fault (db_ops w1) = None
               /\ cu = (cid, failed_set (clock w1)))
  /\ (forall e' : exn, r = Raised e' ->
        exists (w1 : World) (e : exn),
          campaign_run sender_email db_fault sg_send validate_email
            validation_message cid test_mode w
          = (w1, Raised e)
          /\ db_fault (db_ops w1) = Some e').
Proof.
  intros H.
  destruct (run_cases _ _ _ _ _ _ _ _ _ _ H) as (w1 & rb & B & Shape & Cases).
  split; [|split; [|split]].
  - intros w0 e B0. rewrite B in B0. injection B0 as -> ->.
    destruct Cases as [(Eb & _)|[(e0 & e' & Eb & F & -> & C & T)
                                |(e0 & Eb & F & -> & C & T)]];
      try discriminate; injection Eb as <-.
    + split; [rewrite T; apply in_or_app; right; now left|].
      intros F'. congruence.
    + split; [rewrite T; apply in_or_app; right; now left|].
      intros _. split; [reflexivity|]. split; [exact C|].
      rewrite T, campaign_writes_app. reflexivity.
  - intros w0 B0. rewrite B in B0. injection B0 as -> ->.
    destruct Cases as [(_ & -> & ->)|[(e0 & e' & Eb & _)|(e0 & Eb & _)]];
      try discriminate. now split.
  - destruct Cases as [(-> & -> & ->)|[(e0 & e' & -> & F & -> & C & T)
                                      |(e0 & -> & F & -> & C & T)]].
    + inversion Shape as [w0 F0 NF C0 W0|w0 e F0 C0 W0
                         |w0 e F0 F1 NF C0 W0|w0 s f F0 F1 NF C0 W0]; subst.
      * exists []. rewrite app_nil_r. split; [exact W0|]. intros cu [].
      * eexists. split; [exact W0|].
        intros cu [<-|[<-|[]]]; cbn [snd set_status sending_set final_set];
          intros Hs; [discriminate|].
        injection Hs as Hs. now apply final_status_not_failed in Hs.
    + inversion Shape as [w0 F0 NF C0 W0|w0 e F0 C0 W0
                         |w0 e F0 F1 NF C0 W0|w0 s f F0 F1 NF C0 W0]; subst.
      * exists []. rewrite app_nil_r, T, campaign_writes_app. cbn.
        rewrite app_nil_r. split; [exact W0|]. intros cu [].
      * eexists. rewrite T, campaign_writes_app. cbn. rewrite app_nil_r.
        split; [exact W0|].
        intros cu [<-|[]]; cbn [snd set_status sending_set]; discriminate.
    + inversion Shape as [w0 F0 NF C0 W0|w0 e F0 C0 W0
                         |w0 e F0 F1 NF C0 W0|w0 s f F0 F1 NF C0 W0]; subst.
      * eexists. rewrite T, campaign_writes_app, W0. cbn.
        split; [reflexivity|].
        intros cu [<-|[]] _. now exists w1, e0.
      * eexists. rewrite T, campaign_writes_app, W0, <- app_assoc. cbn.
        split; [reflexivity|].
        intros cu [<-|[<-|[]]]; cbn [snd set_status sending_set];
          intros Hs; [discriminate|]. now exists w1, e0.
  - intros e' ->.
    destruct Cases as [(_ & _ & Er)|[(e0 & e1 & -> & F & Er & _)
                                    |(e0 & _ & _ & Er & _)]];
      try discriminate.
    injection Er as ->. now exists w1, e0.
Qed.

Lemma run_fault_handling_witness :
  let run := process_bulk_email_campaign None (Sample.store_faults_at 3)
               Sample.provider_ok Sample.validator Sample.complaint
               "c1" false Sample.world in
  run = (fst run, snd run)
  /\ snd run = Returned tt
  /\ forall (w1 : World) (e : exn),
       campaign_run None (Sample.store_faults_at 3) Sample.provider_ok Sample.validator
         Sample.complaint
         "c1" false Sample.world = (w1, Raised e) ->
       In (EvLog ERROR ("Error processing campaign " ++ "c1" ++ ": " ++ e))
          (trace (fst run)).
Proof.
  intros run. split; [apply surjective_pairing|]. split; [reflexivity|].
  intros w1 e B.
  exact (proj1 (proj1 (run_fault_handling None (Sample.store_faults_at 3)
                         Sample.provider_ok Sample.validator Sample.complaint "c1" false Sample.world
                         (fst run) (snd run) (surjective_pairing run))
                      w1 e B)).
Defined.

Example store_fault_sets_failed :
  let w' := fst (process_bulk_email_campaign None (Sample.store_faults_at 3)
                   Sample.provider_ok Sample.validator Sample.complaint
                   "c1" false Sample.world) in
  map c_status (campaigns w') = ["failed"]
  /\ status_writes (trace w') = ["sending"; "failed"].
Proof. split; reflexivity. Qed.

(** C8, as stated, fails: a run on a campaign that is not there writes
    no status at all, and a run whose first store operation faults
    writes failed without having written sending. *)
Lemma status_sequence_not_always_two :
  ~ sending_then_terminal
      (status_writes
         (trace (fst (process_bulk_email_campaign None Sample.store_ok
                        Sample.provider_ok Sample.validator Sample.complaint
                        "c1" false Sample.empty_world))))
  /\ ~ sending_then_terminal
         (status_writes
            (trace (fst (process_bulk_email_campaign None
                           (Sample.store_faults_at 0) Sample.provider_ok Sample.validator
                           Sample.complaint
                           "c1" false Sample.world)))).
Proof.
  split; intros (t & E & _); vm_compute in E; discriminate E.
Qed.

(** C8 (amended): the campaign status values a run writes are, in order,
    one of: nothing; sending; failed; sending then completed; sending
    then completed_with_errors; sending then failed.  So draft is never
    written, sending is written at most once and never after a terminal
    status, and at most one terminal status is written.  When the
    campaign is there, the first two store operations of the run (the
    lookup and the write of sending) do not fault and the run returns,
    the values are exactly sending followed by one terminal status. *)
Theorem status_sequence (sender_email : option string)
  (db_fault : nat -> option exn) (sg_send : nat -> Mail -> SendOutcome)
  (validate_email : string -> exn + string)
  (validation_message : list exn -> exn)
  (cid : string) (test_mode : bool) (w w' : World) (r : result unit) :
  process_bulk_email_campaign sender_email db_fault sg_send validate_email
    validation_message cid test_mode w
  = (w', r) ->
  exists new : list string,
    status_writes (trace w') = (status_writes (trace w) ++ new)%list
    /\ (new = [] \/ new = ["sending"] \/ new = ["failed"]
        \/ new = ["sending"; "completed"]
        \/ new = ["sending"; "completed_with_errors"]
        \/ new = ["sending"; "failed"])
    /\ (find (has_campaign_id cid) (campaigns w) <> None ->
        db_fault (db_ops w) = None ->
        db_fault (S (db_ops w)) = None ->
        r = Returned tt ->
        sending_then_terminal new).
Proof.
  intros H.
  destruct (run_cases _ _ _ _ _ _ _ _ _ _ H) as (w1 & rb & B & Shape & Cases).
  destruct Cases as [(-> & -> & ->)|[(e0 & e' & -> & F & -> & C & T)
                                    |(e0 & -> & F & -> & C & T)]];
    inversion Shape as [w0 F0 NF C0 W0|w0 e F0 C0 W0
                       |w0 e F0 F1 NF C0 W0|w0 s f F0 F1 NF C0 W0]; subst.
  - exists []. rewrite app_nil_r. split; [unfold status_writes; now rewrite W0|].
    split; [now left|]. intros Found. contradiction.
  - rewrite (status_writes_extend _ _ _ W0). cbn [flat_map snd set_status
      sending_set final_set app].
    eexists. split; [reflexivity|].
    destruct (final_status_cases f) as [-> | ->].
    + split; [do 3 right; now left|]. intros _ _ _ _.
      exists "completed". split; [reflexivity|now left].
    + split; [do 4 right; now left|]. intros _ _ _ _.
      exists "completed_with_errors". split; [reflexivity|right; now left].
  - exists []. rewrite app_nil_r. split.
    + unfold status_writes. rewrite T, campaign_writes_app. cbn.
      now rewrite app_nil_r, W0.
    + split; [now left|]. intros _ _ _ Er. discriminate.
  - exists ["sending"]. split.
    + rewrite T.
      apply (status_writes_extend _ _ [(cid, sending_set (clock w))]).
      rewrite campaign_writes_app. cbn. now rewrite app_nil_r.
    + split; [right; now left|]. intros _ _ _ Er. discriminate.
  - exists ["failed"]. split.
    + rewrite T.
      apply (status_writes_extend _ _ [(cid, failed_set (clock w1))]).
      rewrite campaign_writes_app, W0. reflexivity.
    + split; [do 2 right; now left|]. intros _ G0 G1 _.
      destruct F0 as [F0|[_ F0]]; congruence.
  - exists ["sending"; "failed"]. split.
    + rewrite T.
      apply (status_writes_extend _ _ [(cid, sending_set (clock w));
                                       (cid, failed_set (clock w1))]).
      rewrite campaign_writes_app, W0, <- app_assoc. reflexivity.
    + split; [do 5 right; reflexivity|]. intros _ _ _ _.
      exists "failed". split; [reflexivity|now do 2 right].
Qed.

Lemma status_sequence_witness :
  let run := process_bulk_email_campaign None Sample.store_ok
               Sample.provider_faults_first Sample.validator Sample.complaint
               "c1" false Sample.world in
  run = (fst run, snd run)
  /\ exists new : list string,
       status_writes (trace (fst run))
       = (status_writes (trace Sample.world) ++ new)%list
       /\ (new = [] \/ new = ["sending"] \/ new = ["failed"]
           \/ new = ["sending"; "completed"]
           \/ new = ["sending"; "completed_with_errors"]
           \/ new = ["sending"; "failed"]).
Proof.
  intros run. split; [apply surjective_pairing|].
  destruct (status_sequence None Sample.store_ok Sample.provider_faults_first Sample.validator Sample.complaint
              "c1" false Sample.world (fst run) (snd run)
              (surjective_pairing run)) as (new & E & Shape & _).
  exists new. now split.
Defined.

Example status_sequences :
  status_writes
    (trace (fst (process_bulk_email_campaign None Sample.store_ok
                   Sample.provider_ok Sample.validator Sample.complaint
                   "c1" false Sample.world)))
  = ["sending"; "completed"]
  /\ status_writes
       (trace (fst (process_bulk_email_campaign None Sample.store_ok
                      Sample.provider_faults_first Sample.validator
                      Sample.complaint "c1" false Sample.world)))
     = ["sending"; "completed_with_errors"].
Proof. split; reflexivity. Qed.

Lemma find_same_but (cid : string) (cs cs' : list Campaign) (c : Campaign) :
  Forall2 same_but_status_time cs cs' ->
  find (has_campaign_id cid) cs = Some c ->
  exists c', find (has_campaign_id cid) cs' = Some c'
             /\ same_but_status_time c c'.
Proof.
  induction 1 as [|x y cs cs' Hxy _ IH]; intros Hf; [discriminate|].
  cbn [find] in *.
  assert (E : has_campaign_id cid y = has_campaign_id cid x).
  { unfold has_campaign_id. destruct Hxy as (-> & _). reflexivity. }
  rewrite E. destruct (has_campaign_id cid x).
  - injection Hf as <-. now exists y.
  - now apply IH.
Qed.

(** C9: when the body of a run raises, the run changes nothing of any
    campaign document but status and updated_at: sent_count and
    failed_count (and every other field) of the campaign keep the values
    they had before the run; and the write of the handler, when it does
    not fault, names only status and updated_at. *)
Theorem fault_keeps_counters (sender_email : option string)
  (db_fault : nat -> option exn) (sg_send : nat -> Mail -> SendOutcome)
  (validate_email : string -> exn + string)
  (validation_message : list exn -> exn)
  (cid : string) (test_mode : bool) (w w1 w' : World) (e : exn)
  (r : result unit) :
  campaign_run sender_email db_fault sg_send validate_email validation_message
    cid test_mode w
  = (w1, Raised e) ->
  process_bulk_email_campaign sender_email db_fault sg_send validate_email
    validation_message cid test_mode w
  = (w', r) ->
  Forall2 same_but_status_time (campaigns w) (campaigns w')
  /\ (forall c : Campaign,
        find (has_campaign_id cid) (campaigns w) = Some c ->
        exists c' : Campaign,
          find (has_campaign_id cid) (campaigns w') = Some c'
          /\ c_sent_count c' = c_sent_count c
          /\ c_failed_count c' = c_failed_count c)
  /\ (r = Returned tt ->
      campaign_writes (trace w')
      = (campaign_writes (trace w1)
         ++ [(cid, mkCampaignSet (Some "failed") None None
                                 (Some (clock w1)))])%list
      /\ forall c : Campaign,
           find (has_campaign_id cid) (campaigns w) = Some c ->
           exists c' : Campaign,
             find (has_campaign_id cid) (campaigns w') = Some c'
             /\ c_status c' = "failed"
             /\ c_updated_at c' = clock w1).
Proof.
  intros B H.
  destruct (run_cases _ _ _ _ _ _ _ _ _ _ H) as (w0 & rb & B0 & Shape & Cases).
  rewrite B in B0. injection B0 as <- <-.
  assert (Body : Forall2 same_but_status_time (campaigns w) (campaigns w1)
                 /\ forall c, find (has_campaign_id cid) (campaigns w) = Some c ->
                      exists c1, find (has_campaign_id cid) (campaigns w1)
                                 = Some c1).
  { inversion Shape as [|w0 e0 F0 C0 W0|w0 e0 F0 F1 NF C0 W0|]; subst.
    - rewrite C0. split; [apply Forall2_same_refl|]. intros c Hc. now exists c.
    - rewrite C0. split; [now apply campaigns_after_same|].
      intros c Hc. rewrite find_campaigns_after, Hc. eexists. reflexivity. }
  destruct Body as [Body Found1].
  assert (All : Forall2 same_but_status_time (campaigns w) (campaigns w')).
  { destruct Cases as [(Eb & _)|[(e0 & e' & _ & _ & _ & C & _)
                                |(e0 & _ & _ & _ & C & _)]];
      [discriminate| |]; rewrite C; [exact Body|].
    eapply Forall2_same_trans; [exact Body|].
    now apply campaigns_after_same. }
  split; [exact All|]. split.
  - intros c Hc. destruct (find_same_but cid _ _ c All Hc) as (c' & Hc' & S).
    exists c'. split; [exact Hc'|].
    unfold same_but_status_time in S. decompose [and] S. now split.
  - intros ->.
    destruct Cases as [(Eb & _)|[(e0 & e' & _ & _ & Er & _)
                                |(e0 & _ & _ & _ & C & T)]];
      try discriminate.
    split; [rewrite T, campaign_writes_app; reflexivity|].
    intros c Hc. destruct (Found1 c Hc) as [c1 Hc1].
    rewrite C, find_campaigns_after, Hc1. eexists. split; [reflexivity|].
    now split.
Qed.

Lemma fault_keeps_counters_witness :
  let body := campaign_run None (Sample.store_faults_at 4) Sample.provider_ok Sample.validator
                Sample.complaint
                "c1" false Sample.world_rerun in
  let run := process_bulk_email_campaign None (Sample.store_faults_at 4)
               Sample.provider_ok Sample.validator Sample.complaint
               "c1" false Sample.world_rerun in
  body = (fst body, Raised "store unavailable")
  /\ run = (fst run, snd run)
  /\ map r_status (recipients (fst run)) = ["sent"; "pending"; "pending"]
  /\ Forall2 same_but_status_time (campaigns Sample.world_rerun)
             (campaigns (fst run)).
Proof.
  intros body run.
  assert (B : body = (fst body, Raised "store unavailable")).
  { exact (eq_trans (surjective_pairing body)
                    (f_equal (pair (fst body)) eq_refl)). }
  split; [exact B|]. split; [apply surjective_pairing|].
  split; [reflexivity|].
  exact (proj1 (fault_keeps_counters None (Sample.store_faults_at 4)
                  Sample.provider_ok Sample.validator Sample.complaint "c1" false Sample.world_rerun
                  (fst body) (fst run) "store unavailable" (snd run)
                  B (surjective_pairing run))).
Defined.

Example partial_run_keeps_counters :
  let w' := fst (process_bulk_email_campaign None (Sample.store_faults_at 4)
                   Sample.provider_ok Sample.validator Sample.complaint
                   "c1" false Sample.world_rerun) in
  map (fun c => (c_status c, c_sent_count c, c_failed_count c)) (campaigns w')
  = [("failed", 4%Z, 1%Z)]
  /\ map r_status (recipients w') = ["sent"; "pending"; "pending"].
Proof. split; reflexivity. Qed.

(* ================================================================== *)
(** * Beyond the dispatch claims: what a run keeps, whatever faults *)

Section Respects.

Variable R : World -> World -> Prop.
Hypothesis R_refl : forall w, R w w.
Hypothesis R_trans : forall w1 w2 w3, R w1 w2 -> R w2 w3 -> R w1 w3.

Lemma respects_ret {A} (a : A) : respects R (ret a).
Proof. intros w w' r H. injection H as <- _. apply R_refl. Qed.

Lemma respects_raise {A} (e : exn) :
  respects R (fun w => (w, @Raised A e)).
Proof. intros w w' r H. injection H as <- _. apply R_refl. Qed.

Lemma respects_bind {A B} (m : M A) (k : A -> M B) :
  respects R m -> (forall a, respects R (k a)) -> respects R (bind m k).
Proof.
  intros Hm Hk w w' r H.
  destruct (bind_inv _ _ _ _ _ H) as [(w1 & a & H1 & H2)|(e & H1 & _)].
  - eapply R_trans; [exact (Hm _ _ _ H1)|exact (Hk _ _ _ _ H2)].
  - exact (Hm _ _ _ H1).
Qed.

Lemma respects_try_catch {A} (m : M A) (h : exn -> M A) :
  respects R m -> (forall e, respects R (h e)) -> respects R (try_catch m h).
Proof.
  intros Hm Hh w w' r H.
  destruct (try_catch_inv _ _ _ _ _ H) as [(a & H1 & _)|(w1 & e & H1 & H2)].
  - exact (Hm _ _ _ H1).
  - eapply R_trans; [exact (Hm _ _ _ H1)|exact (Hh _ _ _ _ H2)].
Qed.

Lemma respects_settle {A} (task : M A) :
  respects R task -> respects R (settle task).
Proof.
  intros Q w w' r H. unfold settle in H.
  destruct (task w) as [w1 [a|e]] eqn:E; injection H as <- _;
    exact (Q _ _ _ E).
Qed.

Lemma respects_gather {A} (tasks : list (M A)) :
  Forall (respects R) tasks -> respects R (gather tasks).
Proof.
  induction 1 as [|task tasks Q _ IH]; cbn [gather].
  - apply respects_ret.
  - apply respects_bind; [now apply respects_settle|]. intros x.
    apply respects_bind; [exact IH|]. intros xs. apply respects_ret.
Qed.

End Respects.

Module KeepLemmas.

Lemma status_moved_refl (r : Recipient) : status_moved r r.
Proof. now left. Qed.

Lemma status_moved_trans (a b c : Recipient) :
  status_moved a b -> status_moved b c -> status_moved a c.
Proof.
  unfold status_moved.
  intros [-> | [-> | ->]] [-> | [-> | ->]]; auto.
Qed.

Lemma docs_moved_refl (w : World) : docs_moved w w.
Proof.
  unfold docs_moved. induction (recipients w); constructor;
    [apply status_moved_refl|assumption].
Qed.

Lemma Forall2_status_moved_trans (a b c : list Recipient) :
  Forall2 status_moved a b -> Forall2 status_moved b c ->
  Forall2 status_moved a c.
Proof.
  intros H; revert c; induction H as [|x y a b Hxy _ IH]; intros c Hbc;
    inversion Hbc; subst; constructor.
  - eapply status_moved_trans; eassumption.
  - now apply IH.
Qed.

Lemma docs_moved_trans (w1 w2 w3 : World) :
  docs_moved w1 w2 -> docs_moved w2 w3 -> docs_moved w1 w3.
Proof. apply Forall2_status_moved_trans. Qed.

Lemma docs_moved_same (w w' : World) :
  recipients w' = recipients w -> docs_moved w w'.
Proof. unfold docs_moved. intros ->. apply (docs_moved_refl w). Qed.

Lemma update_status_moved (rid status : string) (docs : list Recipient) :
  status = "sent" \/ status = "failed" ->
  Forall2 status_moved docs
          (update_first (has_recipient_id rid) (with_status status) docs).
Proof.
  intros Hs. induction docs as [|d docs IH]; [constructor|].
  cbn [update_first]. destruct (has_recipient_id rid d).
  - constructor.
    + destruct Hs as [-> | ->]; [right; now left|now do 2 right].
    + apply (docs_moved_refl (mkWorld [] docs 0 0 0 [])).
  - constructor; [apply status_moved_refl|exact IH].
Qed.

Lemma no_send_refl (w : World) : no_send w w.
Proof. reflexivity. Qed.

Lemma no_send_trans (w1 w2 w3 : World) :
  no_send w1 w2 -> no_send w2 w3 -> no_send w1 w3.
Proof. unfold no_send. congruence. Qed.

Lemma no_send_no_mark_refl (w : World) : no_send_no_mark w w.
Proof. now split. Qed.

Lemma no_send_no_mark_trans (w1 w2 w3 : World) :
  no_send_no_mark w1 w2 -> no_send_no_mark w2 w3 -> no_send_no_mark w1 w3.
Proof. unfold no_send_no_mark. intros [A B] [C D]. split; congruence. Qed.

Lemma firstn_add {A} (a b : nat) (l : list A) :
  firstn (a + b) l = (firstn a l ++ firstn b (skipn a l))%list.
Proof.
  revert l; induction a as [|a IH]; intros [|x l]; cbn;
    try reflexivity.
  - now rewrite firstn_nil.
  - now rewrite IH.
Qed.

End KeepLemmas.
Import KeepLemmas.

Section KeepFacts.

Variable sender_email : option string.
Variable db_fault : nat -> option exn.
Variable sg_send : nat -> Mail -> SendOutcome.
Variable validate_email : string -> exn + string.
Variable validation_message : list exn -> exn.

Variable R : World -> World -> Prop.
Hypothesis R_trans : forall w1 w2 w3, R w1 w2 -> R w2 w3 -> R w1 w3.

(** A step that neither writes a recipient nor calls the provider. *)
Hypothesis R_idle :
  forall w w', recipients w' = recipients w ->
               sends (trace w') = sends (trace w) -> R w w'.

Lemma R_refl (w : World) : R w w.
Proof. now apply R_idle. Qed.

Lemma respects_db_call : respects R (db_call db_fault).
Proof.
  intros w w' r H. destruct (db_call_inv _ _ _ _ H) as [-> _].
  now apply R_idle.
Qed.

Lemma respects_campaigns_find_one (cid : string) :
  respects R (campaigns_find_one db_fault cid).
Proof.
  intros w w' r H. destruct (campaigns_find_one_inv _ _ _ _ _ H) as [-> _].
  now apply R_idle.
Qed.

Lemma respects_recipients_find (cid status : string) :
  respects R (recipients_find db_fault cid status).
Proof.
  intros w w' r H. destruct (recipients_find_inv _ _ _ _ _ _ H) as [-> _].
  now apply R_idle.
Qed.

Lemma respects_read_recipients (docs : list Recipient) :
  respects R (read_recipients validate_email validation_message docs).
Proof.
  intros w w' r H. destruct (read_recipients_inv _ _ _ _ _ _ H) as [-> _].
  apply R_refl.
Qed.

Lemma respects_campaigns_update_one (cid : string) (upd : CampaignSet) :
  respects R (campaigns_update_one db_fault cid upd).
Proof.
  intros w w' r H.
  destruct (campaigns_update_one_inv _ _ _ _ _ _ H)
    as [(e & _ & _ & ->)|(_ & _ & _ & Hr & _ & _ & _ & Ht)].
  - now apply R_idle.
  - apply R_idle; [exact Hr|]. rewrite Ht, sends_app. apply app_nil_r.
Qed.

Lemma respects_now : respects R now.
Proof.
  intros w w' r H. unfold now in H. injection H as <- _. now apply R_idle.
Qed.

Lemma respects_emit (e : Event) : sends [e] = [] -> respects R (emit e).
Proof.
  intros He w w' r H. unfold emit in H. injection H as <- _.
  apply R_idle; [reflexivity|]. cbn [trace].
  rewrite sends_app, He. apply app_nil_r.
Qed.

Section Marks.

Hypothesis R_mark :
  forall rid status, status = "sent" \/ status = "failed" ->
    respects R (recipients_update_one db_fault rid status).

Lemma respects_record_results (pairs : list (Recipient * (exn + bool)))
  (counts : Z * Z) :
  respects R (record_results db_fault pairs counts).
Proof.
  revert counts; induction pairs as [|[r res] pairs IH]; intros counts;
    cbn [record_results].
  - apply (respects_ret R R_refl).
  - apply (respects_bind R R_trans); [|intros c1; apply IH].
    destruct res as [e|[]];
      (apply (respects_bind R R_trans);
       [apply R_mark; auto|intros _; apply (respects_ret R R_refl)]).
Qed.

Lemma respects_on_fault (cid : string) (e : exn) :
  respects R (on_fault db_fault cid e).
Proof.
  unfold on_fault, log_error.
  apply (respects_bind R R_trans); [now apply respects_emit|]. intros _.
  apply (respects_bind R R_trans); [apply respects_now|]. intros t.
  apply respects_campaigns_update_one.
Qed.

Hypothesis R_send :
  forall r c, respects R (send_single_email sender_email sg_send r c).

Lemma respects_send_batches (sel : list Recipient) (c : Campaign)
  (starts : list nat) (counts : Z * Z) :
  respects R (send_batches sender_email db_fault sg_send sel c starts counts).
Proof.
  revert counts; induction starts as [|i starts IH]; intros counts;
    cbn [send_batches].
  - apply (respects_ret R R_refl).
  - apply (respects_bind R R_trans).
    { apply (respects_gather R R_refl R_trans). apply Forall_forall.
      intros t Ht. apply in_map_iff in Ht as (r & <- & _). apply R_send. }
    intros results.
    apply (respects_bind R R_trans); [apply respects_record_results|].
    intros c1. apply (respects_bind R R_trans); [|intros _; apply IH].
    destruct (i + batch_size <? List.length sel)%nat;
      [now apply respects_emit|apply (respects_ret R R_refl)].
Qed.

Lemma respects_campaign_run (cid : string) (test_mode : bool) :
  respects R (campaign_run sender_email db_fault sg_send validate_email
                validation_message cid test_mode).
Proof.
  unfold campaign_run.
  apply (respects_bind R R_trans); [apply respects_campaigns_find_one|].
  intros [c|]; [|now apply respects_emit].
  apply (respects_bind R R_trans); [apply respects_now|]. intros t.
  apply (respects_bind R R_trans); [apply respects_campaigns_update_one|].
  intros _.
  apply (respects_bind R R_trans); [apply respects_recipients_find|].
  intros docs.
  apply (respects_bind R R_trans); [apply respects_read_recipients|].
  intros pending.
  apply (respects_bind R R_trans); [apply respects_send_batches|].
  intros counts.
  apply (respects_bind R R_trans); [apply respects_now|]. intros t1.
  apply (respects_bind R R_trans); [apply respects_campaigns_update_one|].
  intros _. now apply respects_emit.
Qed.

Lemma respects_process (cid : string) (test_mode : bool) :
  respects R
    (process_bulk_email_campaign sender_email db_fault sg_send validate_email
       validation_message cid test_mode).
Proof.
  unfold process_bulk_email_campaign.
  apply (respects_try_catch R R_trans);
    [apply respects_campaign_run|intros e; apply respects_on_fault].
Qed.

End Marks.

End KeepFacts.

Section KeepRun.

Variable sender_email : option string.
Variable db_fault : nat -> option exn.
Variable sg_send : nat -> Mail -> SendOutcome.
Variable validate_email : string -> exn + string.
Variable validation_message : list exn -> exn.

Lemma docs_moved_idle (w w' : World) :
  recipients w' = recipients w -> sends (trace w') = sends (trace w) ->
  docs_moved w w'.
Proof. intros H _. now apply docs_moved_same. Qed.

Lemma docs_moved_mark (rid status : string) :
  status = "sent" \/ status = "failed" ->
  respects docs_moved (recipients_update_one db_fault rid status).
Proof.
  intros Hs w w' r H.
  destruct (recipients_update_one_inv _ _ _ _ _ _ H)
    as [(e & _ & _ & ->)|(_ & _ & _ & Hr & _)].
  - now apply docs_moved_same.
  - unfold docs_moved. rewrite Hr. now apply update_status_moved.
Qed.

Lemma docs_moved_send (r : Recipient) (c : Campaign) :
  respects docs_moved (send_single_email sender_email sg_send r c).
Proof.
  intros w w' res H.
  destruct (send_single_email_spec sender_email sg_send r c w)
    as (w0 & E & _ & Hr & _).
  rewrite E in H. injection H as <- _. now apply docs_moved_same.
Qed.

Lemma no_send_idle (w w' : World) :
  recipients w' = recipients w -> sends (trace w') = sends (trace w) ->
  no_send w w'.
Proof. now intros _ H. Qed.

Lemma no_send_mark (rid status : string) :
  status = "sent" \/ status = "failed" ->
  respects no_send (recipients_update_one db_fault rid status).
Proof.
  intros _ w w' r H.
  destruct (recipients_update_one_inv _ _ _ _ _ _ H)
    as [(e & _ & _ & ->)|(_ & _ & _ & _ & _ & _ & _ & Ht)].
  - reflexivity.
  - unfold no_send. rewrite Ht, sends_app. apply app_nil_r.
Qed.

Lemma no_send_no_mark_idle (w w' : World) :
  recipients w' = recipients w -> sends (trace w') = sends (trace w) ->
  no_send_no_mark w w'.
Proof. now split. Qed.

(** The provider calls of the loop, however it ends: one per recipient
    of a front part of what was left to send. *)
Lemma send_batches_prefix (sel : list Recipient) (c : Campaign) :
  forall (fuel i : nat) (counts : Z * Z) (w w' : World) (res : result (Z * Z)),
  send_batches sender_email db_fault sg_send sel c
    (range_from fuel i (List.length sel) batch_size) counts w = (w', res) ->
  exists k,
    sends (trace w')
    = (sends (trace w)
       ++ map (fun r => message_for sender_email r c)
              (firstn k (skipn i sel)))%list.
Proof.
  induction fuel as [|fuel IH]; intros i counts w w' res H.
  - cbn in H. injection H as <- _. exists 0. cbn. now rewrite app_nil_r.
  - destruct (Nat.lt_ge_cases i (List.length sel)) as [Lt|Ge].
    2:{ rewrite range_from_done in H by assumption. cbn in H.
        injection H as <- _. exists 0. cbn. now rewrite app_nil_r. }
    rewrite range_from_here in H by assumption.
    cbn [send_batches] in H. rewrite slice_skipn in H.
    set (batch := firstn batch_size (skipn i sel)) in *.
    destruct (gather_sends sender_email sg_send c batch w)
      as (w1 & E1 & _ & _ & _ & _ & _ & S1 & _).
    rewrite (bind_returned _ _ _ _ _ E1) in H.
    assert (Stop : forall w2, no_send w1 w2 ->
              sends (trace w2)
              = (sends (trace w)
                 ++ map (fun r => message_for sender_email r c)
                        (firstn batch_size (skipn i sel)))%list).
    { intros w2 N. unfold no_send in N. now rewrite N, S1. }
    destruct (bind_inv _ _ _ _ _ H) as [(w2 & counts1 & Rc & H2)|(e & Rc & _)];
      pose proof (respects_record_results db_fault no_send no_send_trans
                    no_send_idle no_send_mark _ _ _ _ _ Rc) as N2.
    2:{ exists batch_size. now apply Stop. }
    destruct (bind_inv _ _ _ _ _ H2) as [(w3 & [] & P & H3)|(e & P & _)].
    2:{ exists batch_size. apply Stop. eapply no_send_trans; [exact N2|].
        destruct (i + batch_size <? List.length sel)%nat.
        - now apply (respects_emit no_send no_send_idle (EvSleep 1) eq_refl _ _ _ P).
        - discriminate P. }
    assert (N3 : no_send w1 w3).
    { eapply no_send_trans; [exact N2|].
      destruct (i + batch_size <? List.length sel)%nat.
      - now apply (respects_emit no_send no_send_idle (EvSleep 1) eq_refl _ _ _ P).
      - injection P as <-. reflexivity. }
    destruct (IH _ _ _ _ _ H3) as (k & Hk).
    exists (batch_size + k).
    rewrite Hk, (Stop w3 N3), <- app_assoc, <- map_app.
    now rewrite skipn_add, firstn_add.
Qed.

Lemma campaign_run_prefix (cid : string) (test_mode : bool) (w w' : World)
  (rb : result unit) (c : Campaign) :
  find (has_campaign_id cid) (campaigns w) = Some c ->
  campaign_run sender_email db_fault sg_send validate_email validation_message
    cid test_mode w = (w', rb) ->
  exists k,
    sends (trace w')
    = (sends (trace w)
       ++ map (fun r => message_for sender_email
                          (model_of validate_email r) c)
              (firstn k (selected_of cid test_mode w)))%list.
Proof.
  intros Found H. unfold campaign_run in H.
  assert (Zero : forall w2, no_send_no_mark w w2 ->
            exists k,
              sends (trace w2)
              = (sends (trace w)
                 ++ map (fun r => message_for sender_email
                                    (model_of validate_email r) c)
                        (firstn k (selected_of cid test_mode w)))%list).
  { intros w2 [N _]. exists 0. cbn. now rewrite app_nil_r. }
  destruct (bind_inv _ _ _ _ _ H) as [(w1 & doc & H1 & H2)|(e & H1 & _)];
    clear H;
    pose proof (respects_campaigns_find_one db_fault no_send_no_mark
                  no_send_no_mark_idle _ _ _ _ H1) as N1.
  2:{ now apply Zero. }
  destruct (campaigns_find_one_inv _ _ _ _ _ H1)
    as [_ [(e0 & _ & E0)|(_ & E0)]]; [discriminate|].
  injection E0 as ->. rewrite Found in H2.
  destruct (bind_inv _ _ _ _ _ H2) as [(w2 & t & Hn & H3)|(e & Hn & _)];
    clear H2;
    pose proof (respects_now no_send_no_mark no_send_no_mark_idle _ _ _ Hn)
      as N2.
  2:{ apply Zero. eapply no_send_no_mark_trans; eassumption. }
  destruct (bind_inv _ _ _ _ _ H3) as [(w3 & [] & U & H4)|(e & U & _)];
    clear H3;
    pose proof (respects_campaigns_update_one db_fault no_send_no_mark
                  no_send_no_mark_idle _ _ _ _ _ U) as N3.
  2:{ apply Zero.
      exact (no_send_no_mark_trans _ _ _
               (no_send_no_mark_trans _ _ _ N1 N2) N3). }
  destruct (bind_inv _ _ _ _ _ H4) as [(w4 & pending & P & H5)|(e & P & _)];
    clear H4;
    pose proof (respects_recipients_find db_fault no_send_no_mark
                  no_send_no_mark_idle _ _ _ _ _ P) as N4.
  2:{ apply Zero.
      exact (no_send_no_mark_trans _ _ _
               (no_send_no_mark_trans _ _ _
                  (no_send_no_mark_trans _ _ _ N1 N2) N3) N4). }
  assert (N03 : no_send_no_mark w w3).
  { exact (no_send_no_mark_trans _ _ _
             (no_send_no_mark_trans _ _ _ N1 N2) N3). }
  assert (N04 : no_send_no_mark w w4)
    by (eapply no_send_no_mark_trans; eassumption).
  destruct (recipients_find_inv _ _ _ _ _ _ P)
    as [_ [(e0 & _ & E0)|(_ & E0)]]; [discriminate|].
  injection E0 as ->. destruct N03 as [_ R03]. rewrite R03 in H5.
  fold (pending_of cid w) in H5.
  destruct (bind_inv _ _ _ _ _ H5) as [(w4' & models & Rd & H5')|(e & Rd & _)];
    clear H5; destruct (read_recipients_inv _ _ _ _ _ _ Rd) as [-> Built].
  2:{ now apply Zero. }
  destruct Built as [[_ E0]|[_ [e E0]]]; [|discriminate E0].
  injection E0 as ->. rewrite select_recipients_map in H5'.
  fold (selected_of cid test_mode w) in H5'.
  set (sel := selected_of cid test_mode w) in *.
  destruct N04 as [S04 _].
  destruct (bind_inv _ _ _ _ _ H5') as [(w5 & counts & L & H6)|(e & L & _)];
    clear H5';
    destruct (send_batches_prefix (map (model_of validate_email) sel) c
                _ _ _ _ _ _ L) as (k & Hk);
    cbn [skipn] in Hk; rewrite S04, firstn_map, map_map in Hk.
  2:{ now exists k. }
  exists k. rewrite <- Hk.
  assert (Tail : respects no_send
            (t1 <- now ;;
             campaigns_update_one db_fault cid
               (final_set (final_status_of (snd counts)) (fst counts)
                          (snd counts) t1) ;;
             log_info ("Campaign " ++ cid ++ " completed. Sent: "
                       ++ py_str (PInt (fst counts)) ++ ", Failed: "
                       ++ py_str (PInt (snd counts))))).
  { apply (respects_bind no_send no_send_trans);
      [apply (respects_now no_send no_send_idle)|]. intros t1.
    apply (respects_bind no_send no_send_trans);
      [apply (respects_campaigns_update_one db_fault no_send no_send_idle)|].
    intros _. now apply (respects_emit no_send no_send_idle). }
  exact (Tail _ _ _ H6).
Qed.

End KeepRun.

(** X1: whatever faults and however a run ends, it leaves the recipient
    collection as it was but for statuses: no document is added, removed
    or moved, and every document is unchanged or has only its status set
    to sent or to failed. *)
Theorem run_keeps_recipient_documents (sender_email : option string)
  (db_fault : nat -> option exn) (sg_send : nat -> Mail -> SendOutcome)
  (validate_email : string -> exn + string)
  (validation_message : list exn -> exn)
  (cid : string) (test_mode : bool) (w : World) :
  Forall2 status_moved (recipients w)
    (recipients (fst (process_bulk_email_campaign sender_email db_fault
                        sg_send validate_email validation_message
                        cid test_mode w))).
Proof.
  destruct (process_bulk_email_campaign sender_email db_fault sg_send validate_email
              validation_message cid
              test_mode w) as [w' r] eqn:H.
  exact (respects_process sender_email db_fault sg_send validate_email
           validation_message docs_moved
           docs_moved_trans docs_moved_idle (docs_moved_mark db_fault)
           (docs_moved_send sender_email sg_send) cid test_mode _ _ _ H).
Qed.

(** X2: whatever faults and however a run on an existing campaign ends,
    the provider calls it makes are the messages of a front part of the
    selected recipients, in order: no recipient is called for twice and
    none out of turn. *)
Theorem run_sends_prefix (sender_email : option string)
  (db_fault : nat -> option exn) (sg_send : nat -> Mail -> SendOutcome)
  (validate_email : string -> exn + string)
  (validation_message : list exn -> exn)
  (cid : string) (test_mode : bool) (w : World) (c : Campaign) :
  find (has_campaign_id cid) (campaigns w) = Some c ->
  exists k : nat,
    sends (trace (fst (process_bulk_email_campaign sender_email db_fault
                         sg_send validate_email validation_message
                         cid test_mode w)))
    = (sends (trace w)
       ++ map (fun r => message_for sender_email
                          (model_of validate_email r) c)
              (firstn k (selected_of cid test_mode w)))%list.
Proof.
  intros Found.
  destruct (process_bulk_email_campaign sender_email db_fault sg_send validate_email
              validation_message cid
              test_mode w) as [w' r] eqn:H.
  unfold process_bulk_email_campaign in H.
  destruct (try_catch_inv _ _ _ _ _ H) as [(a & B & _)|(w1 & e & B & Hh)].
  - exact (campaign_run_prefix sender_email db_fault sg_send validate_email
             validation_message cid test_mode _ _ _ c Found B).
  - destruct (campaign_run_prefix sender_email db_fault sg_send validate_email
                validation_message cid test_mode _ _ _ c Found B) as (k & Hk).
    exists k. cbn [fst]. rewrite <- Hk.
    exact (respects_on_fault db_fault no_send no_send_trans no_send_idle
             cid e _ _ _ Hh).
Qed.

Lemma run_sends_prefix_witness :
  find (has_campaign_id "c1") (campaigns Sample.world) = Some Sample.campaign
  /\ exists k : nat,
       sends (trace (fst (process_bulk_email_campaign None
                            (Sample.store_faults_at 4) Sample.provider_ok Sample.validator
                            Sample.complaint
                            "c1" false Sample.world)))
       = (sends (trace Sample.world)
          ++ map (fun r => message_for None (model_of Sample.validator r)
                             Sample.campaign)
                 (firstn k (selected_of "c1" false Sample.world)))%list.
Proof.
  split; [reflexivity|].
  exact (run_sends_prefix None (Sample.store_faults_at 4) Sample.provider_ok Sample.validator Sample.complaint
           "c1" false Sample.world Sample.campaign eq_refl).
Defined.

(* ================================================================== *)
(** * Runs one after the other *)

Module ComposeLemmas.

Lemma marked_not_pending (cid : string) (ok : bool) (d : Recipient) :
  in_campaign_with_status cid "pending" (with_status (status_of ok) d) = false.
Proof.
  unfold in_campaign_with_status. cbn [with_status r_campaign_id r_status].
  destruct (r_campaign_id d); [|reflexivity].
  destruct ok; cbn; apply andb_false_r.
Qed.

Lemma filter_head_in {A} (p : A -> bool) (l rest : list A) (x : A) :
  filter p l = x :: rest -> In x l /\ p x = true.
Proof.
  intros H. apply filter_In. rewrite H. now left.
Qed.

(** With unique ids, the write on the first pending recipient of a
    campaign takes exactly that one out of the pending ones. *)
Lemma mark_first_pending (cid : string) (ok : bool) (docs rest : list Recipient)
  (r : Recipient) :
  NoDup (map r_id docs) ->
  filter (in_campaign_with_status cid "pending") docs = r :: rest ->
  filter (in_campaign_with_status cid "pending") (mark docs (r, ok)) = rest.
Proof.
  unfold mark. cbn [fst snd].
  induction docs as [|d docs IH]; intros ND H; [discriminate|].
  cbn [map] in ND. inversion ND as [|? ? Fresh ND']; subst.
  cbn [filter] in H. cbn [update_first].
  destruct (in_campaign_with_status cid "pending" d) eqn:P.
  - injection H as -> <-. unfold has_recipient_id at 1.
    rewrite String.eqb_refl. cbn [filter]. now rewrite marked_not_pending.
  - unfold has_recipient_id at 1.
    destruct (String.eqb_spec (r_id d) (r_id r)) as [E|NE].
    + exfalso. apply Fresh. rewrite E. apply in_map.
      now apply (filter_head_in _ _ _ _ H).
    + cbn [filter]. rewrite P. now apply IH.
Qed.

(** So the writes of a run take its selected recipients, the first [k]
    pending ones, out of the pending ones and leave the others. *)
Lemma mark_all_pending (cid : string) :
  forall (k : nat) (oks : list bool) (docs : list Recipient),
  NoDup (map r_id docs) ->
  List.length oks
  = List.length (firstn k (filter (in_campaign_with_status cid "pending") docs)) ->
  filter (in_campaign_with_status cid "pending")
         (mark_all (combine (firstn k (filter (in_campaign_with_status cid
                                                 "pending") docs)) oks) docs)
  = skipn k (filter (in_campaign_with_status cid "pending") docs).
Proof.
  induction k as [|k IH]; intros oks docs ND L; [reflexivity|].
  destruct (filter (in_campaign_with_status cid "pending") docs)
    as [|r rest] eqn:F.
  - cbn. exact F.
  - destruct oks as [|ok oks]; [discriminate|].
    cbn [firstn combine mark_all fold_left skipn].
    fold (mark_all (combine (firstn k rest) oks) (mark docs (r, ok))).
    pose proof (mark_first_pending cid ok docs rest r ND F) as F1.
    rewrite <- F1. apply IH.
    + unfold mark. now rewrite update_first_ids.
    + rewrite F1. cbn in L. now injection L.
Qed.

Lemma firstn_length_self {A} (l : list A) : firstn (List.length l) l = l.
Proof. apply firstn_all. Qed.

End ComposeLemmas.
Import ComposeLemmas.

(** X3: after a run on an existing campaign during which the store does
    not fault and the address of every pending document of the campaign
    validates, with recipient ids unique in the store, the pending
    recipients of the campaign are the former ones without those the run
    selected: none is left after a full run, and a test run leaves all
    but the first five. *)
Theorem pending_after_run (sender_email : option string)
  (db_fault : nat -> option exn) (sg_send : nat -> Mail -> SendOutcome)
  (validate_email : string -> exn + string)
  (validation_message : list exn -> exn)
  (cid : string) (test_mode : bool) (w : World) (c : Campaign) :
  store_up db_fault ->
  find (has_campaign_id cid) (campaigns w) = Some c ->
  forallb (doc_valid validate_email) (pending_of cid w) = true ->
  NoDup (map r_id (recipients w)) ->
  pending_of cid (fst (process_bulk_email_campaign sender_email db_fault
                         sg_send validate_email validation_message
                         cid test_mode w))
  = if test_mode then skipn 5 (pending_of cid w) else [].
Proof.
  intros Up Found Valid ND.
  destruct (campaign_run_up sender_email db_fault sg_send validate_email
              validation_message Up cid test_mode w c
              Found Valid) as (w' & E & _ & R & _).
  rewrite (process_up _ _ _ _ _ _ _ _ _ E). cbn [fst].
  cbv zeta in R. unfold pending_of at 1. rewrite R.
  unfold selected_of, select_recipients, pending_of, slice.
  destruct test_mode.
  - cbn [skipn Nat.sub]. apply mark_all_pending; [assumption|].
    now rewrite send_oks_length, length_map.
  - set (L := filter (in_campaign_with_status cid "pending") (recipients w)).
    set (oks := send_oks sender_email sg_send c (sg_calls w)
                  (map (model_of validate_email) L)).
    pose proof (mark_all_pending cid (List.length L) oks (recipients w) ND)
      as P.
    fold L in P. rewrite firstn_length_self in P. rewrite P.
    + apply skipn_all.
    + unfold oks. now rewrite send_oks_length, length_map.
Qed.

Lemma pending_after_run_witness :
  store_up Sample.store_ok
  /\ find (has_campaign_id "c1") (campaigns Sample.world) = Some Sample.campaign
  /\ forallb (doc_valid Sample.validator) (pending_of "c1" Sample.world)
     = true
  /\ NoDup (map r_id (recipients Sample.world))
  /\ pending_of "c1" (fst (process_bulk_email_campaign None Sample.store_ok
                             Sample.provider_faults_first Sample.validator
                             Sample.complaint "c1" false
                             Sample.world))
     = [].
Proof.
  assert (Up : store_up Sample.store_ok) by (intros n; reflexivity).
  assert (ND : NoDup (map r_id (recipients Sample.world))).
  { cbn. repeat constructor; cbn; intuition discriminate. }
  split; [exact Up|]. split; [reflexivity|]. split; [reflexivity|].
  split; [exact ND|].
  exact (pending_after_run None Sample.store_ok Sample.provider_faults_first
           Sample.validator Sample.complaint "c1" false Sample.world
           Sample.campaign Up eq_refl eq_refl ND).
Defined.

(** X4: after a full run as in X3 (no store fault, every pending address
    validates, unique ids), a further run on the same campaign,
    in either mode, calls the provider for nobody and writes no
    recipient, and it overwrites the stored counters: the campaign ends
    with sent_count 0, failed_count 0 and status completed, whatever the
    first run had counted. *)
Theorem rerun_sends_nothing (sender_email : option string)
  (db_fault : nat -> option exn) (sg_send : nat -> Mail -> SendOutcome)
  (validate_email : string -> exn + string)
  (validation_message : list exn -> exn)
  (cid : string) (test_mode : bool) (w : World) (c : Campaign) :
  store_up db_fault ->
  find (has_campaign_id cid) (campaigns w) = Some c ->
  forallb (doc_valid validate_email) (pending_of cid w) = true ->
  NoDup (map r_id (recipients w)) ->
  let w1 := fst (process_bulk_email_campaign sender_email db_fault sg_send
                   validate_email validation_message cid false w) in
  let w2 := fst (process_bulk_email_campaign sender_email db_fault sg_send
                   validate_email validation_message cid test_mode w1) in
  sends (trace w2) = sends (trace w1)
  /\ recipients w2 = recipients w1
  /\ exists c2 : Campaign,
       find (has_campaign_id cid) (campaigns w2) = Some c2
       /\ c_status c2 = "completed"
       /\ c_sent_count c2 = 0%Z
       /\ c_failed_count c2 = 0%Z.
Proof.
  intros Up Found Valid ND w1 w2.
  assert (NoPending : pending_of cid w1 = []).
  { destruct (campaign_run_up sender_email db_fault sg_send validate_email
                validation_message Up cid false w c Found Valid)
      as (w' & E & _ & R & _).
    unfold w1. rewrite (process_up _ _ _ _ _ _ _ _ _ E). cbn [fst].
    cbv zeta in R. unfold pending_of at 1. rewrite R.
    unfold selected_of, select_recipients, pending_of.
    set (L := filter (in_campaign_with_status cid "pending") (recipients w)).
    set (oks := send_oks sender_email sg_send c (sg_calls w)
                  (map (model_of validate_email) L)).
    pose proof (mark_all_pending cid (List.length L) oks (recipients w) ND)
      as P.
    fold L in P. rewrite firstn_length_self in P. rewrite P.
    - apply skipn_all.
    - unfold oks. now rewrite send_oks_length, length_map. }
  assert (Found1 : exists c1, find (has_campaign_id cid) (campaigns w1)
                              = Some c1).
  { destruct (campaign_run_up sender_email db_fault sg_send validate_email
              validation_message Up cid false w c
                Found Valid) as (w' & E & C & _).
    unfold w1. rewrite (process_up _ _ _ _ _ _ _ _ _ E). cbn [fst].
    cbv zeta in C. rewrite C, !find_campaigns_after, Found.
    eexists. reflexivity. }
  destruct Found1 as [c1 Found1].
  assert (Valid1 : forallb (doc_valid validate_email) (pending_of cid w1)
                   = true) by now rewrite NoPending.
  destruct (campaign_run_up sender_email db_fault sg_send validate_email
              validation_message Up cid test_mode w1
              c1 Found1 Valid1) as (w' & E & C & R & _ & S & _).
  cbv zeta in C, R, S.
  assert (Sel : selected_of cid test_mode w1 = []).
  { unfold selected_of. rewrite NoPending. now destruct test_mode. }
  rewrite Sel in C, R, S. cbn [send_oks combine mark_all fold_left map] in *.
  unfold w2. rewrite (process_up _ _ _ _ _ _ _ _ _ E). cbn [fst].
  split; [now rewrite S, app_nil_r|]. split; [exact R|].
  rewrite C, !find_campaigns_after, Found1. eexists. split; [reflexivity|].
  now repeat split.
Qed.

Lemma rerun_sends_nothing_witness :
  store_up Sample.store_ok
  /\ find (has_campaign_id "c1") (campaigns Sample.world) = Some Sample.campaign
  /\ forallb (doc_valid Sample.validator) (pending_of "c1" Sample.world)
     = true
  /\ NoDup (map r_id (recipients Sample.world))
  /\ let w1 := fst (process_bulk_email_campaign None Sample.store_ok
                      Sample.provider_ok Sample.validator Sample.complaint
                      "c1" false Sample.world) in
     let w2 := fst (process_bulk_email_campaign None Sample.store_ok
                      Sample.provider_ok Sample.validator Sample.complaint
                      "c1" true w1) in
     sends (trace w2) = sends (trace w1)
     /\ recipients w2 = recipients w1
     /\ exists c2 : Campaign,
          find (has_campaign_id "c1") (campaigns w2) = Some c2
          /\ c_status c2 = "completed"
          /\ c_sent_count c2 = 0%Z
          /\ c_failed_count c2 = 0%Z.
Proof.
  assert (Up : store_up Sample.store_ok) by (intros n; reflexivity).
  assert (ND : NoDup (map r_id (recipients Sample.world))).
  { cbn. repeat constructor; cbn; intuition discriminate. }
  split; [exact Up|]. split; [reflexivity|]. split; [reflexivity|].
  split; [exact ND|].
  exact (rerun_sends_nothing None Sample.store_ok Sample.provider_ok
           Sample.validator Sample.complaint "c1" true Sample.world
           Sample.campaign Up eq_refl eq_refl ND).
Defined.

(* ================================================================== *)
(** * The routes *)

Section RouteFacts.

Variable db_fault : nat -> option exn.
Hypothesis Up : store_up db_fault.

Lemma recipients_count_documents_up (p : Recipient -> bool) (w : World) :
  recipients_count_documents db_fault p w
  = (bump w, Returned (Z.of_nat (List.length (filter p (recipients w))))).
Proof. unfold recipients_count_documents, bind, db_call. now rewrite Up. Qed.

Lemma recipients_insert_one_up (doc : Recipient) (w : World) :
  recipients_insert_one db_fault doc w
  = (mkWorld (campaigns w) (recipients w ++ [doc]) (clock w) (S (db_ops w))
             (sg_calls w) (trace w),
     Returned tt).
Proof. unfold recipients_insert_one, bind, db_call. now rewrite Up. Qed.

Lemma campaigns_insert_one_up (doc : Campaign) (w : World) :
  campaigns_insert_one db_fault doc w
  = (mkWorld (campaigns w ++ [doc]) (recipients w) (clock w) (S (db_ops w))
             (sg_calls w) (trace w),
     Returned tt).
Proof. unfold campaigns_insert_one, bind, db_call. now rewrite Up. Qed.

Lemma campaigns_inc_total_up (cid : string) (n : Z) (w : World) :
  campaigns_inc_total db_fault cid n w
  = (mkWorld (update_first (has_campaign_id cid) (add_total n) (campaigns w))
             (recipients w) (clock w) (S (db_ops w)) (sg_calls w) (trace w),
     Returned tt).
Proof. unfold campaigns_inc_total, bind, db_call. now rewrite Up. Qed.

(** The trigger with the store up, by what the store holds. *)
Lemma send_bulk_email_up (cid : string) (request : BulkEmailRequest)
  (tasks : list Task) (w : World) :
  send_bulk_email db_fault cid request tasks w
  = match find (has_campaign_id cid) (campaigns w) with
    | None => (bump w, Returned (HTTPException 404 "Campaign not found", tasks))
    | Some _ =>
        let n := Z.of_nat (List.length (filter (in_campaign cid) (recipients w))) in
        (bump (bump w),
         Returned
           (if (n =? 0)%Z
            then (HTTPException 400 "Campaign has no recipients", tasks)
            else (Respond (mkSendAck "Email campaign started" cid n
                                     (req_test_mode request) "sending"),
                  (tasks ++ [(cid, req_test_mode request)])%list)))
    end.
Proof.
  unfold send_bulk_email.
  rewrite (bind_returned _ _ _ _ _ (campaigns_find_one_up db_fault Up cid w)).
  destruct (find (has_campaign_id cid) (campaigns w)); [|reflexivity].
  rewrite (bind_returned _ _ _ _ _
             (recipients_count_documents_up (in_campaign cid) (bump w))).
  cbn [recipients bump].
  now destruct (Z.of_nat (List.length (filter (in_campaign cid) (recipients w)))
                =? 0)%Z.
Qed.

(** The four counts with the store up. *)
Lemma get_campaign_analytics_counts_up (cid : string) (w : World) (c : Campaign) :
  find (has_campaign_id cid) (campaigns w) = Some c ->
  snd (get_campaign_analytics_counts db_fault cid w)
  = Returned
      (Respond
         (mkAnalyticsCounts
            (Z.of_nat (List.length (filter (in_campaign cid) (recipients w))))
            (count_status cid "sent" (recipients w))
            (count_status cid "failed" (recipients w))
            (count_status cid "pending" (recipients w)))).
Proof.
  intros Found. unfold get_campaign_analytics_counts.
  rewrite (bind_returned _ _ _ _ _ (campaigns_find_one_up db_fault Up cid w)).
  rewrite Found.
  repeat (rewrite (bind_returned _ _ _ _ _
                     (recipients_count_documents_up _ _));
          cbn [recipients bump]).
  reflexivity.
Qed.

End RouteFacts.

Module CountLemmas.

Lemma pending_in_campaign (cid : string) (r : Recipient) :
  in_campaign_with_status cid "pending" r = true ->
  in_campaign cid r = true /\ r_status r = "pending".
Proof.
  unfold in_campaign_with_status, in_campaign.
  destruct (r_campaign_id r) as [c|]; [|discriminate].
  intros H. apply andb_prop in H as [H1 H2].
  split; [exact H1|now apply String.eqb_eq].
Qed.

Lemma selected_within_campaign (cid : string) (docs : list Recipient) :
  (List.length (filter (in_campaign_with_status cid "pending") docs)
   <= List.length (filter (in_campaign cid) docs))%nat.
Proof.
  induction docs as [|d docs IH]; [reflexivity|]. cbn [filter].
  destruct (in_campaign_with_status cid "pending" d) eqn:P.
  - destruct (pending_in_campaign cid d P) as [-> _]. cbn [List.length]. lia.
  - destruct (in_campaign cid d); cbn [List.length]; lia.
Qed.

(** The statuses are exclusive, so the three counts of a campaign stay
    within its number of recipients. *)
Lemma counts_within_total (cid : string) (docs : list Recipient) :
  (count_status cid "sent" docs + count_status cid "failed" docs
   + count_status cid "pending" docs
   <= Z.of_nat (List.length (filter (in_campaign cid) docs)))%Z.
Proof.
  unfold count_status.
  induction docs as [|d docs IH]; [cbn; lia|]. cbn [filter].
  unfold in_campaign_with_status, in_campaign in *.
  destruct (r_campaign_id d) as [c|]; [|exact IH].
  destruct (String.eqb c cid); cbn [andb]; [|exact IH].
  destruct (String.eqb_spec (r_status d) "sent") as [E|_];
    [rewrite E; cbn [String.eqb Ascii.eqb Bool.eqb andb List.length]; lia|].
  destruct (String.eqb_spec (r_status d) "failed") as [E|_];
    [rewrite E; cbn [String.eqb Ascii.eqb Bool.eqb andb List.length]; lia|].
  destruct (String.eqb (r_status d) "pending"); cbn [List.length]; lia.
Qed.


Lemma status_moved_total (cid : string) (a b : list Recipient) :
  Forall2 status_moved a b ->
  List.length (filter (in_campaign cid) b)
  = List.length (filter (in_campaign cid) a).
Proof.
  induction 1 as [|x y a b Hxy _ IH]; [reflexivity|]. cbn [filter].
  assert (E : in_campaign cid y = in_campaign cid x).
  { destruct Hxy as [-> | [-> | ->]]; reflexivity. }
  rewrite E. destruct (in_campaign cid x); cbn [List.length]; now rewrite IH.
Qed.

(** With unique ids, the write on the first pending recipient of a
    campaign moves one document into the status written. *)
Lemma mark_first_counts (cid : string) (ok : bool) (docs rest : list Recipient)
  (r : Recipient) :
  NoDup (map r_id docs) ->
  filter (in_campaign_with_status cid "pending") docs = r :: rest ->
  count_status cid "sent" (mark docs (r, ok))
  = (count_status cid "sent" docs + (if ok then 1 else 0))%Z
  /\ count_status cid "failed" (mark docs (r, ok))
     = (count_status cid "failed" docs + (if ok then 0 else 1))%Z.
Proof.
  unfold mark, count_status. cbn [fst snd].
  induction docs as [|d docs IH]; intros ND H; [discriminate|].
  cbn [map] in ND. inversion ND as [|? ? Fresh ND']; subst.
  cbn [filter] in H. cbn [update_first].
  destruct (in_campaign_with_status cid "pending" d) eqn:P.
  - injection H as -> <-. unfold has_recipient_id at 1 3.
    rewrite String.eqb_refl. cbn [filter].
    unfold in_campaign_with_status in *.
    cbn [with_status r_campaign_id r_status].
    destruct (r_campaign_id r) as [c|]; [|discriminate].
    apply andb_prop in P as [-> P]. apply String.eqb_eq in P. rewrite P.
    destruct ok; cbn [status_of String.eqb Ascii.eqb Bool.eqb andb List.length];
      split; lia.
  - unfold has_recipient_id at 1 3.
    destruct (String.eqb_spec (r_id d) (r_id r)) as [E|NE].
    + exfalso. apply Fresh. rewrite E. apply in_map.
      now apply (filter_head_in _ _ _ _ H).
    + destruct (IH ND' H) as [IH1 IH2]. cbn [filter].
      destruct (in_campaign_with_status cid "sent" d),
               (in_campaign_with_status cid "failed" d);
        cbn [List.length]; split; lia.
Qed.

Lemma mark_all_counts (cid : string) :
  forall (k : nat) (oks : list bool) (docs : list Recipient),
  NoDup (map r_id docs) ->
  List.length oks
  = List.length (firstn k (filter (in_campaign_with_status cid "pending") docs)) ->
  let marked :=
    mark_all (combine (firstn k (filter (in_campaign_with_status cid
                                           "pending") docs)) oks) docs in
  count_status cid "sent" marked
  = (count_status cid "sent" docs + count_ok oks)%Z
  /\ count_status cid "failed" marked
     = (count_status cid "failed" docs + count_failed oks)%Z.
Proof.
  induction k as [|k IH]; intros oks docs ND L.
  - destruct oks; [|discriminate]. cbn. unfold count_ok, count_failed. cbn.
    split; lia.
  - destruct (filter (in_campaign_with_status cid "pending") docs)
      as [|r rest] eqn:F.
    + destruct oks; [|discriminate]. cbn. unfold count_ok, count_failed. cbn.
      split; lia.
    + destruct oks as [|ok oks]; [discriminate|].
      cbn [firstn combine mark_all fold_left].
      fold (mark_all (combine (firstn k rest) oks) (mark docs (r, ok))).
      pose proof (mark_first_pending cid ok docs rest r ND F) as F1.
      destruct (mark_first_counts cid ok docs rest r ND F) as [C1 C2].
      rewrite <- F1.
      destruct (IH oks (mark docs (r, ok))) as [I1 I2].
      * unfold mark. now rewrite update_first_ids.
      * rewrite F1. cbn in L. now injection L.
      * cbv zeta in I1, I2. rewrite I1, I2, C1, C2.
        unfold count_ok, count_failed.
        destruct ok; cbn [filter negb List.length]; split; lia.
Qed.

End CountLemmas.
Import CountLemmas.

Lemma selected_firstn (cid : string) (test_mode : bool) (w : World) :
  selected_of cid test_mode w
  = firstn (if test_mode then 5 else List.length (pending_of cid w))
           (pending_of cid w).
Proof.
  unfold selected_of, select_recipients, slice. destruct test_mode.
  - reflexivity.
  - symmetry. apply firstn_all.
Qed.

(** X5: after a run on an existing campaign during which the store does
    not fault and the address of every pending document of the campaign
    validates, with recipient ids unique in the store, the counts that
    the analytics route reads off the recipient statuses have moved by
    exactly the counters the run stored on the campaign: sent and failed
    went up by sent_count and failed_count, pending went down by their
    sum, the total is the same, and the three never exceed it. *)
Theorem analytics_follow_run (sender_email : option string)
  (db_fault : nat -> option exn) (sg_send : nat -> Mail -> SendOutcome)
  (validate_email : string -> exn + string)
  (validation_message : list exn -> exn)
  (cid : string) (test_mode : bool) (w : World) (c : Campaign) :
  store_up db_fault ->
  find (has_campaign_id cid) (campaigns w) = Some c ->
  forallb (doc_valid validate_email) (pending_of cid w) = true ->
  NoDup (map r_id (recipients w)) ->
  let w1 := fst (process_bulk_email_campaign sender_email db_fault sg_send
                   validate_email validation_message cid test_mode w) in
  exists (c1 : Campaign) (a : AnalyticsCounts),
    find (has_campaign_id cid) (campaigns w1) = Some c1
    /\ snd (get_campaign_analytics_counts db_fault cid w1)
       = Returned (Respond a)
    /\ an_sent_count a
       = (count_status cid "sent" (recipients w) + c_sent_count c1)%Z
    /\ an_failed_count a
       = (count_status cid "failed" (recipients w) + c_failed_count c1)%Z
    /\ an_pending_count a
       = (count_status cid "pending" (recipients w)
          - (c_sent_count c1 + c_failed_count c1))%Z
    /\ an_total_recipients a
       = Z.of_nat (List.length (filter (in_campaign cid) (recipients w)))
    /\ (an_sent_count a + an_failed_count a + an_pending_count a
        <= an_total_recipients a)%Z.
Proof.
  intros Up Found Valid ND w1.
  pose proof (respects_process sender_email db_fault sg_send validate_email
                validation_message docs_moved
                docs_moved_trans docs_moved_idle (docs_moved_mark db_fault)
                (docs_moved_send sender_email sg_send) cid test_mode w
                w1 _ (surjective_pairing _)) as Moved.
  destruct (campaign_run_up sender_email db_fault sg_send validate_email
              validation_message Up cid test_mode w c
              Found Valid) as (w' & E & C & R & _).
  cbv zeta in C, R.
  assert (Ew : w1 = w') by (unfold w1; now rewrite (process_up _ _ _ _ _ _ _ _ _ E)).
  rewrite Ew in *. clear Ew w1.
  rewrite selected_firstn in R, C.
  set (k := if test_mode then 5 else List.length (pending_of cid w)) in *.
  set (oks := send_oks sender_email sg_send c (sg_calls w)
                       (map (model_of validate_email)
                            (firstn k (pending_of cid w)))) in *.
  assert (L : List.length oks = List.length (firstn k (pending_of cid w))).
  { unfold oks. now rewrite send_oks_length, length_map. }
  unfold pending_of in R, L.
  destruct (mark_all_counts cid k oks (recipients w) ND L) as [Cs Cf].
  pose proof (mark_all_pending cid k oks (recipients w) ND L) as Cp.
  cbv zeta in Cs, Cf. rewrite <- R in Cs, Cf, Cp.
  eexists _, _.
  split; [rewrite C, !find_campaigns_after, Found; reflexivity|].
  split.
  { eapply (get_campaign_analytics_counts_up db_fault Up cid w').
    rewrite C, !find_campaigns_after, Found. reflexivity. }
  cbn [an_sent_count an_failed_count an_pending_count an_total_recipients
       apply_set c_sent_count c_failed_count final_set sending_set
       set_sent_count set_failed_count or_else].
  fold (pending_of cid w) in *. fold oks.
  assert (Pend : count_status cid "pending" (recipients w')
                 = (count_status cid "pending" (recipients w)
                    - (count_ok oks + count_failed oks))%Z).
  { unfold count_status at 1. rewrite Cp, length_skipn.
    rewrite count_total, L, length_firstn. unfold count_status, pending_of.
    lia. }
  split; [exact Cs|]. split; [exact Cf|]. split; [exact Pend|].
  split; [now rewrite (status_moved_total cid _ _ Moved)|].
  apply counts_within_total.
Qed.

Lemma analytics_follow_run_witness :
  store_up Sample.store_ok
  /\ find (has_campaign_id "c1") (campaigns Sample.world_rerun)
     = Some Sample.campaign_rerun
  /\ forallb (doc_valid Sample.validator)
             (pending_of "c1" Sample.world_rerun) = true
  /\ NoDup (map r_id (recipients Sample.world_rerun))
  /\ exists (c1 : Campaign) (a : AnalyticsCounts),
       snd (get_campaign_analytics_counts Sample.store_ok "c1"
              (fst (process_bulk_email_campaign None Sample.store_ok
                      Sample.provider_faults_first Sample.validator
                      Sample.complaint "c1" false
                      Sample.world_rerun)))
       = Returned (Respond a)
       /\ an_sent_count a
          = (count_status "c1" "sent" (recipients Sample.world_rerun)
             + c_sent_count c1)%Z.
Proof.
  assert (Up : store_up Sample.store_ok) by (intros n; reflexivity).
  assert (ND : NoDup (map r_id (recipients Sample.world_rerun))).
  { cbn. repeat constructor; cbn; intuition discriminate. }
  split; [exact Up|]. split; [reflexivity|]. split; [reflexivity|].
  split; [exact ND|].
  destruct (analytics_follow_run None Sample.store_ok
              Sample.provider_faults_first Sample.validator Sample.complaint
              "c1" false Sample.world_rerun Sample.campaign_rerun Up eq_refl
              eq_refl ND)
    as (c1 & a & _ & Ha & Hs & _).
  exists c1, a. now split.
Defined.

(** X6: with the store up, a trigger answers 404 exactly when the
    campaign is missing and 400 exactly when the campaign is there but no
    recipient document names it, whatever the statuses; otherwise it
    acknowledges with the number of all recipient documents of the
    campaign and adds one task for the campaign of the path with the
    test mode of the request (the campaign id in the request body is not
    used).  A rejected trigger adds no task, and no trigger touches the
    collections or the trace. *)
Theorem trigger_outcomes (db_fault : nat -> option exn) (cid : string)
  (request : BulkEmailRequest) (tasks : list Task) (w : World) :
  store_up db_fault ->
  exists (w1 : World) (resp : response SendAck) (tasks1 : list Task),
    send_bulk_email db_fault cid request tasks w
    = (w1, Returned (resp, tasks1))
    /\ campaigns w1 = campaigns w
    /\ recipients w1 = recipients w
    /\ trace w1 = trace w
    /\ (resp = HTTPException 404 "Campaign not found"
        <-> find (has_campaign_id cid) (campaigns w) = None)
    /\ (resp = HTTPException 400 "Campaign has no recipients"
        <-> find (has_campaign_id cid) (campaigns w) <> None
            /\ filter (in_campaign cid) (recipients w) = [])
    /\ (resp = Respond (mkSendAck "Email campaign started" cid
                          (Z.of_nat (List.length (filter (in_campaign cid)
                                                         (recipients w))))
                          (req_test_mode request) "sending")
        <-> find (has_campaign_id cid) (campaigns w) <> None
            /\ filter (in_campaign cid) (recipients w) <> [])
    /\ tasks1
       = match resp with
         | Respond _ => (tasks ++ [(cid, req_test_mode request)])%list
         | HTTPException _ _ => tasks
         end.
Proof.
  intros Up. rewrite (send_bulk_email_up db_fault Up).
  destruct (find (has_campaign_id cid) (campaigns w)) as [c|].
  - cbv zeta.
    destruct (filter (in_campaign cid) (recipients w)) as [|r rest] eqn:F.
    + cbn [List.length Z.of_nat Z.eqb].
      eexists _, _, _. split; [reflexivity|]. cbn [bump campaigns recipients trace].
      repeat split; try discriminate; try congruence;
        intros [? ?]; congruence.
    + cbn [List.length].
      destruct (Z.eqb_spec (Z.of_nat (S (List.length rest))) 0) as [E|_];
        [lia|].
      eexists _, _, _. split; [reflexivity|]. cbn [bump campaigns recipients trace].
      repeat split; try discriminate; try congruence;
        intros [? ?]; congruence.
  - eexists _, _, _. split; [reflexivity|]. cbn [bump campaigns recipients trace].
    repeat split; try discriminate; try congruence;
      intros [? ?]; congruence.
Qed.

Lemma trigger_outcomes_witness :
  store_up Sample.store_ok
  /\ exists (w1 : World) (resp : response SendAck) (tasks1 : list Task),
       send_bulk_email Sample.store_ok "c1" (mkBulkEmailRequest "other" true)
         [] Sample.world
       = (w1, Returned (resp, tasks1))
       /\ tasks1
          = match resp with
            | Respond _ => [("c1", true)]
            | HTTPException _ _ => []
            end.
Proof.
  assert (Up : store_up Sample.store_ok) by (intros n; reflexivity).
  split; [exact Up|].
  destruct (trigger_outcomes Sample.store_ok "c1"
              (mkBulkEmailRequest "other" true) [] Sample.world Up)
    as (w1 & resp & tasks1 & E & _ & _ & _ & _ & _ & _ & T).
  exists w1, resp, tasks1. now split.
Defined.

(** X7: with the store up and the address of every pending document of
    the campaign validating, the task an accepted trigger adds runs to a
    terminal status: the run finds the campaign, returns, and leaves it
    completed or completed_with_errors with sent_count + failed_count at
    most the total the trigger acknowledged (the trigger counts every
    recipient of the campaign, the run only the pending ones it
    selects). *)
Theorem accepted_trigger_runs (sender_email : option string)
  (db_fault : nat -> option exn) (sg_send : nat -> Mail -> SendOutcome)
  (validate_email : string -> exn + string)
  (validation_message : list exn -> exn)
  (cid : string) (request : BulkEmailRequest) (tasks tasks1 : list Task)
  (w w1 : World) (ack : SendAck) :
  store_up db_fault ->
  forallb (doc_valid validate_email) (pending_of cid w) = true ->
  send_bulk_email db_fault cid request tasks w
  = (w1, Returned (Respond ack, tasks1)) ->
  tasks1 = (tasks ++ [(cid, req_test_mode request)])%list
  /\ exists (w2 : World) (c2 : Campaign),
       process_bulk_email_campaign sender_email db_fault sg_send
         validate_email validation_message cid (req_test_mode request) w1
       = (w2, Returned tt)
       /\ find (has_campaign_id cid) (campaigns w2) = Some c2
       /\ (c_status c2 = "completed" \/ c_status c2 = "completed_with_errors")
       /\ (c_sent_count c2 + c_failed_count c2)%Z
          = Z.of_nat (List.length (selected_of cid (req_test_mode request) w))
       /\ (c_sent_count c2 + c_failed_count c2 <= ack_total_recipients ack)%Z.
Proof.
  intros Up Valid H. rewrite (send_bulk_email_up db_fault Up) in H.
  destruct (find (has_campaign_id cid) (campaigns w)) as [c|] eqn:Found;
    [|discriminate].
  cbv zeta in H.
  destruct (Z.of_nat (List.length (filter (in_campaign cid) (recipients w)))
            =? 0)%Z; [discriminate|].
  injection H as <- <- <-. split; [reflexivity|].
  destruct (campaign_run_up sender_email db_fault sg_send validate_email
              validation_message Up cid
              (req_test_mode request) (bump (bump w)) c Found Valid)
    as (w2 & E & C & _).
  cbv zeta in C.
  change (selected_of cid (req_test_mode request) (bump (bump w)))
    with (selected_of cid (req_test_mode request) w) in C.
  set (sel := selected_of cid (req_test_mode request) w) in *.
  set (oks := send_oks sender_email sg_send c (sg_calls (bump (bump w)))
                (map (model_of validate_email) sel)) in *.
  assert (L : List.length oks = List.length sel).
  { unfold oks. now rewrite send_oks_length, length_map. }
  eexists w2, _. split; [now apply process_up|].
  split; [rewrite C, !find_campaigns_after; cbn [bump campaigns];
          rewrite Found; reflexivity|].
  cbn [apply_set c_status c_sent_count c_failed_count final_set sending_set
       set_status set_sent_count set_failed_count or_else
       ack_total_recipients].
  split; [apply final_status_cases|].
  rewrite count_total, L. split; [reflexivity|].
  apply inj_le. subst sel. rewrite selected_firstn, length_firstn.
  pose proof (selected_within_campaign cid (recipients w)) as B.
  unfold pending_of. lia.
Qed.

Lemma accepted_trigger_runs_witness :
  store_up Sample.store_ok
  /\ forallb (doc_valid Sample.validator) (pending_of "c1" Sample.world)
     = true
  /\ send_bulk_email Sample.store_ok "c1" (mkBulkEmailRequest "c1" false) []
       Sample.world
     = (bump (bump Sample.world),
        Returned (Respond (mkSendAck "Email campaign started" "c1" 3 false
                                     "sending"),
                  [("c1", false)]))
  /\ exists (w2 : World) (c2 : Campaign),
       process_bulk_email_campaign None Sample.store_ok Sample.provider_ok Sample.validator
         Sample.complaint
         "c1" false (bump (bump Sample.world)) = (w2, Returned tt)
       /\ (c_sent_count c2 + c_failed_count c2 <= 3)%Z.
Proof.
  assert (Up : store_up Sample.store_ok) by (intros n; reflexivity).
  split; [exact Up|]. split; [reflexivity|]. split; [reflexivity|].
  destruct (accepted_trigger_runs None Sample.store_ok Sample.provider_ok
              Sample.validator Sample.complaint
              "c1" (mkBulkEmailRequest "c1" false) [] _ Sample.world _ _
              Up eq_refl eq_refl)
    as (_ & w2 & c2 & E & _ & _ & _ & B).
  exists w2, c2. now split.
Defined.

(* ================================================================== *)
(** * Enrolment *)

Module EnrolLemmas.

Lemma find_app_l {A} (p : A -> bool) (l1 l2 : list A) (x : A) :
  find p l1 = Some x -> find p (l1 ++ l2) = Some x.
Proof.
  induction l1 as [|y l1 IH]; [discriminate|]. cbn [find app].
  destruct (p y); [auto|exact IH].
Qed.

Lemma find_app_r {A} (p : A -> bool) (l1 l2 : list A) :
  find p l1 = None -> find p (l1 ++ l2) = find p l2.
Proof.
  induction l1 as [|y l1 IH]; [reflexivity|]. cbn [find app].
  destruct (p y); [discriminate|exact IH].
Qed.

Lemma find_add_total (cid : string) (n : Z) (cs : list Campaign) :
  find (has_campaign_id cid)
       (update_first (has_campaign_id cid) (add_total n) cs)
  = option_map (add_total n) (find (has_campaign_id cid) cs).
Proof.
  induction cs as [|c cs IH]; [reflexivity|].
  cbn [update_first find].
  destruct (has_campaign_id cid c) eqn:E; cbn [find].
  - change (has_campaign_id cid (add_total n c)) with (has_campaign_id cid c).
    now rewrite E.
  - now rewrite E.
Qed.

Lemma row_metadata_ok (fields : list (string * option string)) :
  Forall (fun kv : string * pyval =>
            fst kv <> "email" /\ fst kv <> "name"
            /\ exists c s, snd kv = PStr (String c s))
         (row_metadata fields).
Proof.
  unfold row_metadata. apply Forall_forall. intros kv Hin.
  apply in_map_iff in Hin as ([k v] & <- & Hf).
  apply filter_In in Hf as [_ Hf]. unfold is_metadata_column in Hf.
  cbn [fst snd] in *. apply andb_prop in Hf as [Hk Hv].
  apply negb_true_iff, orb_false_elim in Hk as [K1 K2].
  apply String.eqb_neq in K1, K2.
  split; [exact K1|]. split; [exact K2|].
  destruct v as [[|c s]|]; try discriminate. now exists c, s.
Qed.

Lemma in_campaign_app_new (cid : string) (docs new : list Recipient) :
  Forall (fun r => r_campaign_id r = Some cid) new ->
  List.length (filter (in_campaign cid) (docs ++ new))
  = List.length (filter (in_campaign cid) docs) + List.length new.
Proof.
  intros H. rewrite filter_app, length_app. f_equal.
  induction H as [|r new Hr _ IH]; [reflexivity|].
  cbn [filter]. unfold in_campaign at 1. rewrite Hr, String.eqb_refl.
  cbn [List.length]. now rewrite IH.
Qed.

End EnrolLemmas.
Import EnrolLemmas.

Section EnrolFacts.

Variable db_fault : nat -> option exn.
Variable validate_email : string -> exn + string.
Variable validation_message : list exn -> exn.

Lemma build_recipient_ok (new_id email : string) (name : option string)
  (metadata : list (string * pyval)) (rest : list string) (cid : string)
  (t : timestamp) (r : Recipient) :
  build_recipient validate_email validation_message new_id email name metadata
    rest cid t = inr r ->
  exists stored,
    validate_email email = inr stored /\ rest = []
    /\ r = mkRecipient new_id stored name (Some metadata) (Some cid)
                       "pending" t.
Proof.
  unfold build_recipient.
  destruct (validate_email email) as [e|stored]; [discriminate|].
  destruct rest; [|discriminate]. cbn. intros H. injection H as <-.
  now exists stored.
Qed.

Lemma recipients_insert_one_cases (doc : Recipient) (w : World) :
  recipients_insert_one db_fault doc w
  = match db_fault (db_ops w) with
    | Some e => (bump w, Raised e)
    | None =>
        (mkWorld (campaigns w) (recipients w ++ [doc]) (clock w)
                 (S (db_ops w)) (sg_calls w) (trace w),
         Returned tt)
    end.
Proof.
  unfold recipients_insert_one, bind, db_call.
  now destruct (db_fault (db_ops w)).
Qed.

Lemma campaigns_inc_total_cases (cid : string) (n : Z) (w : World) :
  campaigns_inc_total db_fault cid n w
  = match db_fault (db_ops w) with
    | Some e => (bump w, Raised e)
    | None =>
        (mkWorld (update_first (has_campaign_id cid) (add_total n)
                               (campaigns w))
                 (recipients w) (clock w) (S (db_ops w)) (sg_calls w)
                 (trace w),
         Returned tt)
    end.
Proof.
  unfold campaigns_inc_total, bind, db_call.
  now destruct (db_fault (db_ops w)).
Qed.

(** One row never raises: it adds one well-formed recipient, or one
    error and nothing else. *)
Lemma import_row_spec (cid new_id : string) (row_num : nat) (row : CsvRow)
  (state : Z * list string) (w : World) :
  exists (w' : World) (state' : Z * list string),
    import_row db_fault validate_email validation_message cid new_id row_num
      row state w = (w', Returned state')
    /\ campaigns w' = campaigns w
    /\ trace w' = trace w
    /\ ((exists r, recipients w' = (recipients w ++ [r])%list
                   /\ imported_ok cid r /\ r_id r = new_id
                   /\ fst state' = (fst state + 1)%Z
                   /\ snd state' = snd state)
        \/ (exists msg, recipients w' = recipients w
                        /\ fst state' = fst state
                        /\ snd state' = (snd state ++ [msg])%list)).
Proof.
  unfold import_row, try_catch.
  destruct (row_get "email" (row_fields row)) as [[[|a email']|]|];
    try (cbn [ret]; eexists _, _; split; [reflexivity|];
         split; [reflexivity|]; split; [reflexivity|];
         right; eexists; cbn [fst snd]; now repeat split).
  rewrite (bind_returned now _ w (tick w) (clock w) eq_refl).
  set (name := or_else (row_get "name" (row_fields row)) (Some EmptyString)).
  destruct (build_recipient validate_email validation_message new_id
              (String a email') (if truthy name then name else None)
              (row_metadata (row_fields row)) (row_rest row) cid (clock w))
    as [e|r] eqn:B.
  - cbn [ret]. eexists _, _. split; [reflexivity|].
    split; [reflexivity|]. split; [reflexivity|].
    right. eexists. cbn [fst snd recipients tick]. now repeat split.
  - destruct (build_recipient_ok _ _ _ _ _ _ _ _ B) as (stored & _ & _ & ->).
    unfold bind. rewrite recipients_insert_one_cases. cbn [db_ops tick].
    destruct (db_fault (db_ops w)) as [e|].
    + cbn [ret]. eexists _, _. split; [reflexivity|].
      split; [reflexivity|]. split; [reflexivity|].
      right. eexists. cbn [fst snd recipients]. now repeat split.
    + cbn [ret]. eexists _, _. split; [reflexivity|].
      split; [reflexivity|]. split; [reflexivity|].
      left. eexists. cbn [fst snd recipients]. split; [reflexivity|].
      split; [|now repeat split].
      unfold imported_ok. cbn [r_campaign_id r_status r_name r_metadata].
      split; [reflexivity|]. split; [reflexivity|]. split.
      * destruct name as [[|c s]|]; cbn; discriminate.
      * eexists. split; [reflexivity|apply row_metadata_ok].
Qed.

(** The loop never raises, and every row gives one recipient or one
    error. *)
Lemma import_rows_spec (cid : string) (new_ids : nat -> string)
  (rows : list CsvRow) :
  forall (row_num : nat) (state : Z * list string) (w : World),
  exists (w' : World) (state' : Z * list string) (new : list Recipient),
    import_rows db_fault validate_email validation_message cid new_ids row_num
      rows state w = (w', Returned state')
    /\ campaigns w' = campaigns w
    /\ trace w' = trace w
    /\ recipients w' = (recipients w ++ new)%list
    /\ Forall (imported_ok cid) new
    /\ fst state' = (fst state + Z.of_nat (List.length new))%Z
    /\ List.length (snd state') + List.length new
       = List.length (snd state) + List.length rows.
Proof.
  induction rows as [|row rows IH]; intros row_num state w.
  - exists w, state, []. cbn. rewrite app_nil_r, Z.add_0_r.
    repeat split; try reflexivity. constructor.
  - destruct (import_row_spec cid (new_ids row_num) row_num row state w)
      as (w1 & state1 & E1 & C1 & T1 & Step).
    destruct (IH (S row_num) state1 w1)
      as (w' & state' & new & E & C & T & Rn & Ok & Fs & Ln).
    cbn [import_rows]. rewrite (bind_returned _ _ _ _ _ E1).
    destruct Step as [(r & R1 & Okr & _ & F1 & S1)|(msg & R1 & F1 & S1)].
    + exists w', state', (r :: new). split; [exact E|].
      split; [congruence|]. split; [congruence|].
      split; [rewrite Rn, R1, <- app_assoc; reflexivity|].
      split; [now constructor|].
      cbn [List.length]. rewrite S1 in Ln. split; lia.
    + exists w', state', new. split; [exact E|].
      split; [congruence|]. split; [congruence|].
      split; [now rewrite Rn, R1|]. split; [exact Ok|].
      rewrite S1, length_app in Ln. cbn [List.length] in *. split; lia.
Qed.

End EnrolFacts.

Section UploadFacts.

Variable db_fault : nat -> option exn.
Variable validate_email : string -> exn + string.
Variable validation_message : list exn -> exn.

(** How an upload can end. *)
Lemma upload_cases (cid filename : string) (rows : list CsvRow)
  (reader_fault : option exn) (new_ids : nat -> string) (w w' : World)
  (r : result (response CsvReport)) :
  upload_recipients_csv db_fault validate_email validation_message cid
    filename rows reader_fault new_ids w = (w', r) ->
  (exists e, db_fault (db_ops w) = Some e /\ r = Raised e /\ w' = bump w)
  \/ (db_fault (db_ops w) = None
      /\ find (has_campaign_id cid) (campaigns w) = None
      /\ r = Returned (HTTPException 404 "Campaign not found")
      /\ w' = bump w)
  \/ (db_fault (db_ops w) = None
      /\ find (has_campaign_id cid) (campaigns w) <> None
      /\ ends_with ".csv" filename = false
      /\ r = Returned (HTTPException 400 "File must be a CSV")
      /\ w' = bump w)
  \/ (db_fault (db_ops w) = None
      /\ find (has_campaign_id cid) (campaigns w) <> None
      /\ ends_with ".csv" filename = true
      /\ exists (new : list Recipient) (added : Z) (errs : list string),
           recipients w' = (recipients w ++ new)%list
           /\ Forall (imported_ok cid) new
           /\ added = Z.of_nat (List.length new)
           /\ List.length errs + List.length new = List.length rows
           /\ ((exists detail, r = Returned (HTTPException 500 detail)
                               /\ campaigns w' = campaigns w)
               \/ (reader_fault = None
                   /\ r = Returned (Respond (mkCsvReport added errs
                                               (Z.of_nat (List.length errs))))
                   /\ campaigns w'
                      = update_first (has_campaign_id cid) (add_total added)
                                     (campaigns w)))).
Proof.
  unfold upload_recipients_csv. intros H.
  destruct (bind_inv _ _ _ _ _ H) as [(w1 & doc & H1 & H2)|(e & H1 & ->)];
    clear H;
    destruct (campaigns_find_one_inv _ _ _ _ _ H1)
      as [-> [(e0 & F0 & E0)|(F0 & E0)]]; try discriminate.
  2:{ injection E0 as <-. left. now exists e. }
  injection E0 as ->. right.
  destruct (find (has_campaign_id cid) (campaigns w)) as [c|] eqn:Found.
  2:{ left. unfold ret in H2. injection H2 as <- <-. now repeat split. }
  right.
  destruct (ends_with ".csv" filename) eqn:Csv; cbn [negb] in H2.
  2:{ left. unfold ret in H2. injection H2 as <- <-.
      repeat split; try assumption. discriminate. }
  right. split; [exact F0|]. split; [discriminate|]. split; [reflexivity|].
  unfold try_catch in H2.
  destruct (import_rows_spec db_fault validate_email validation_message cid
              new_ids rows 1 (0%Z, []) (bump w))
    as (w2 & state' & new & E & C & T & Rn & Ok & Fs & Ln).
  rewrite (bind_returned _ _ _ _ _ E) in H2.
  cbn [fst snd List.length bump campaigns recipients] in *.
  exists new, (fst state'), (snd state').
  assert (Facts : forall w3, recipients w3 = recipients w2 ->
            recipients w3 = (recipients w ++ new)%list
            /\ Forall (imported_ok cid) new
            /\ fst state' = Z.of_nat (List.length new)
            /\ List.length (snd state') + List.length new = List.length rows).
  { intros w3 ->. repeat split; try assumption; lia. }
  destruct reader_fault as [e|].
  - unfold ret in H2. injection H2 as <- <-.
    destruct (Facts w2 eq_refl) as (A & B & D & G).
    repeat split; try assumption. left. eexists. split; [reflexivity|exact C].
  - unfold bind in H2. rewrite campaigns_inc_total_cases in H2.
    destruct (db_fault (db_ops w2)) as [e|].
    + unfold ret in H2. injection H2 as <- <-.
      destruct (Facts (bump w2) eq_refl) as (A & B & D & G).
      repeat split; try assumption. left. eexists.
      split; [reflexivity|exact C].
    + unfold ret in H2. injection H2 as <- <-.
      destruct (Facts w2 eq_refl) as (A & B & D & G).
      cbn [recipients campaigns].
      repeat split; try assumption. right.
      split; [reflexivity|]. split; [reflexivity|]. now rewrite C.
Qed.

End UploadFacts.

(** X8: with the store up, adding a recipient to a missing campaign
    answers 404 and changes neither collection; adding one to an existing
    campaign appends one pending recipient of that campaign to the store,
    makes it the last pending recipient of the campaign, raises the
    campaign's total_recipients by exactly one, and so keeps the
    difference between total_recipients and the number of recipient
    documents of the campaign. *)
Theorem add_recipient_enrols (db_fault : nat -> option exn) (cid : string)
  (recipient : RecipientCreate) (new_id : string) (w : World) :
  store_up db_fault ->
  match find (has_campaign_id cid) (campaigns w) with
  | None =>
      add_recipient db_fault cid recipient new_id w
      = (bump w, Returned (HTTPException 404 "Campaign not found"))
  | Some c =>
      let new := mkRecipient new_id (rc_email recipient) (rc_name recipient)
                             (rc_metadata recipient) (Some cid) "pending"
                             (clock w) in
      exists w1 : World,
        add_recipient db_fault cid recipient new_id w
        = (w1, Returned (Respond new))
        /\ recipients w1 = (recipients w ++ [new])%list
        /\ pending_of cid w1 = (pending_of cid w ++ [new])%list
        /\ find (has_campaign_id cid) (campaigns w1)
           = Some (add_total 1 c)
        /\ c_total_recipients (add_total 1 c)
           = (c_total_recipients c + 1)%Z
        /\ enrolment_gap cid w1 = enrolment_gap cid w
  end.
Proof.
  intros Up. unfold add_recipient.
  rewrite (bind_returned _ _ _ _ _ (campaigns_find_one_up db_fault Up cid w)).
  destruct (find (has_campaign_id cid) (campaigns w)) as [c|] eqn:Found;
    [|reflexivity].
  cbv zeta.
  set (new := mkRecipient new_id (rc_email recipient) (rc_name recipient)
                          (rc_metadata recipient) (Some cid) "pending"
                          (clock w)).
  rewrite (bind_returned now _ (bump w) (tick (bump w)) (clock w) eq_refl).
  rewrite (bind_returned _ _ _ _ _ (recipients_insert_one_up db_fault Up _ _)).
  rewrite (bind_returned _ _ _ _ _ (campaigns_inc_total_up db_fault Up _ _ _)).
  eexists. split; [reflexivity|].
  cbn [recipients campaigns tick bump].
  split; [reflexivity|].
  assert (P : in_campaign_with_status cid "pending" new = true).
  { unfold in_campaign_with_status. cbn. now rewrite String.eqb_refl. }
  split.
  { unfold pending_of. cbn [recipients]. rewrite filter_app. f_equal.
    cbn [filter]. fold new. now rewrite P. }
  split; [now rewrite find_add_total, Found|].
  split; [reflexivity|].
  unfold enrolment_gap. cbn [campaigns recipients]. fold new.
  rewrite find_add_total, Found. cbn [option_map add_total c_total_recipients].
  rewrite (in_campaign_app_new cid (recipients w) [new])
    by (constructor; [reflexivity|constructor]).
  cbn [List.length]. f_equal. lia.
Qed.

Lemma add_recipient_enrols_witness :
  store_up Sample.store_ok
  /\ exists w1 : World,
       add_recipient Sample.store_ok "c1"
         (mkRecipientCreate "dee@example.org" None None) "r7" Sample.world
       = (w1, Returned (Respond (mkRecipient "r7" "dee@example.org" None None
                                             (Some "c1") "pending" 100)))
       /\ enrolment_gap "c1" w1 = enrolment_gap "c1" Sample.world.
Proof.
  assert (Up : store_up Sample.store_ok) by (intros n; reflexivity).
  split; [exact Up|].
  destruct (add_recipient_enrols Sample.store_ok "c1"
              (mkRecipientCreate "dee@example.org" None None) "r7"
              Sample.world Up)
    as (w1 & E & _ & _ & _ & _ & G).
  exists w1. now split.
Defined.

(** X9: with the store up, a recipient added to an existing campaign is
    sent to by the next full run when its address and those of the
    documents pending before validate: the provider calls of that run
    are the messages of the recipients that were pending before,
    followed by the message of the new one. *)
Theorem enrolled_recipient_is_sent (sender_email : option string)
  (db_fault : nat -> option exn) (sg_send : nat -> Mail -> SendOutcome)
  (validate_email : string -> exn + string)
  (validation_message : list exn -> exn)
  (cid : string) (recipient : RecipientCreate) (new_id : string) (w : World)
  (c : Campaign) :
  store_up db_fault ->
  find (has_campaign_id cid) (campaigns w) = Some c ->
  let new := mkRecipient new_id (rc_email recipient) (rc_name recipient)
                         (rc_metadata recipient) (Some cid) "pending"
                         (clock w) in
  forallb (doc_valid validate_email) (pending_of cid w) = true ->
  doc_valid validate_email new = true ->
  let w1 := fst (add_recipient db_fault cid recipient new_id w) in
  let w2 := fst (process_bulk_email_campaign sender_email db_fault sg_send
                   validate_email validation_message cid false w1) in
  sends (trace w2)
  = (sends (trace w)
     ++ map (fun r => message_for sender_email (model_of validate_email r) c)
            (pending_of cid w)
     ++ [message_for sender_email (model_of validate_email new) c])%list.
Proof.
  intros Up Found new Valid Vnew w1 w2.
  assert (E1 : w1 = mkWorld (update_first (has_campaign_id cid) (add_total 1)
                                          (campaigns w))
                            (recipients w ++ [new]) (S (clock w))
                            (S (S (S (db_ops w)))) (sg_calls w) (trace w)).
  { unfold w1, add_recipient.
    rewrite (bind_returned _ _ _ _ _ (campaigns_find_one_up db_fault Up cid w)).
    rewrite Found.
    rewrite (bind_returned now _ (bump w) (tick (bump w)) (clock w) eq_refl).
    rewrite (bind_returned _ _ _ _ _
               (recipients_insert_one_up db_fault Up _ _)).
    rewrite (bind_returned _ _ _ _ _
               (campaigns_inc_total_up db_fault Up _ _ _)).
    reflexivity. }
  assert (Found1 : find (has_campaign_id cid) (campaigns w1)
                   = Some (add_total 1 c)).
  { rewrite E1. cbn [campaigns]. now rewrite find_add_total, Found. }
  assert (Sel : selected_of cid false w1 = (pending_of cid w ++ [new])%list).
  { unfold selected_of, select_recipients, pending_of. rewrite E1.
    cbn [recipients]. rewrite filter_app. cbn [filter].
    unfold in_campaign_with_status at 2. cbn. now rewrite String.eqb_refl. }
  assert (Valid1 : forallb (doc_valid validate_email) (pending_of cid w1)
                   = true).
  { change (pending_of cid w1) with (selected_of cid false w1).
    rewrite Sel, forallb_app, Valid. cbn [forallb]. now rewrite Vnew. }
  destruct (campaign_run_up sender_email db_fault sg_send validate_email
              validation_message Up cid false w1 _
              Found1 Valid1) as (w' & E & _ & _ & _ & S & _).
  cbv zeta in S.
  unfold w2. rewrite (process_up _ _ _ _ _ _ _ _ _ E). cbn [fst]. rewrite S.
  rewrite Sel, map_app, E1. cbn [trace map]. reflexivity.
Qed.

Lemma enrolled_recipient_is_sent_witness :
  store_up Sample.store_ok
  /\ find (has_campaign_id "c1") (campaigns Sample.world) = Some Sample.campaign
  /\ forallb (doc_valid Sample.validator) (pending_of "c1" Sample.world)
     = true
  /\ doc_valid Sample.validator
       (mkRecipient "r7" "dee@example.org" None None (Some "c1") "pending"
                    (clock Sample.world)) = true
  /\ List.length
       (sends (trace (fst (process_bulk_email_campaign None Sample.store_ok
                             Sample.provider_ok Sample.validator
                             Sample.complaint "c1" false
                             (fst (add_recipient Sample.store_ok "c1"
                                     (mkRecipientCreate "dee@example.org"
                                        None None) "r7" Sample.world))))))
     = 4.
Proof.
  assert (Up : store_up Sample.store_ok) by (intros n; reflexivity).
  split; [exact Up|]. split; [reflexivity|]. split; [reflexivity|].
  split; [reflexivity|].
  rewrite (enrolled_recipient_is_sent None Sample.store_ok Sample.provider_ok
             Sample.validator Sample.complaint
             "c1" (mkRecipientCreate "dee@example.org" None None) "r7"
             Sample.world Sample.campaign Up eq_refl eq_refl eq_refl).
  reflexivity.
Defined.

(** X10: with the store up and an id that no stored campaign has, a
    created campaign is what a lookup of that id returns: a draft with
    all three counters at 0; the lookups of the other ids and the
    recipients are as before; and as long as no recipient names the new
    campaign, a trigger on it answers 400 and adds no task. *)
Theorem create_then_get (db_fault : nat -> option exn)
  (campaign : CampaignCreate) (new_id : string) (request : BulkEmailRequest)
  (tasks : list Task) (w : World) :
  store_up db_fault ->
  find (has_campaign_id new_id) (campaigns w) = None ->
  let c := mkCampaign new_id (cc_name campaign) (cc_subject campaign)
                      (cc_content campaign) (cc_sender_name campaign) "draft"
                      0 0 0 (cc_template_id campaign) false (clock w)
                      (S (clock w)) in
  let w1 := fst (create_campaign db_fault campaign new_id w) in
  snd (create_campaign db_fault campaign new_id w) = Returned c
  /\ snd (get_campaign db_fault new_id w1) = Returned (Respond c)
  /\ (forall cid, cid <> new_id ->
        find (has_campaign_id cid) (campaigns w1)
        = find (has_campaign_id cid) (campaigns w))
  /\ recipients w1 = recipients w
  /\ (filter (in_campaign new_id) (recipients w) = [] ->
      snd (send_bulk_email db_fault new_id request tasks w1)
      = Returned (HTTPException 400 "Campaign has no recipients", tasks)).
Proof.
  intros Up Fresh c w1.
  assert (E : create_campaign db_fault campaign new_id w
              = (mkWorld (campaigns w ++ [c]) (recipients w) (S (S (clock w)))
                         (S (db_ops w)) (sg_calls w) (trace w),
                 Returned c)).
  { unfold create_campaign.
    rewrite (bind_returned now _ w (tick w) (clock w) eq_refl).
    rewrite (bind_returned now _ (tick w) (tick (tick w)) (S (clock w))
               eq_refl).
    rewrite (bind_returned _ _ _ _ _ (campaigns_insert_one_up db_fault Up _ _)).
    reflexivity. }
  assert (Found1 : find (has_campaign_id new_id) (campaigns w1) = Some c).
  { unfold w1. rewrite E. cbn [fst campaigns].
    rewrite (find_app_r _ _ _ Fresh). cbn [find].
    unfold has_campaign_id. cbn [c_id c]. now rewrite String.eqb_refl. }
  split; [now rewrite E|]. split.
  { unfold get_campaign.
    rewrite (bind_returned _ _ _ _ _
               (campaigns_find_one_up db_fault Up new_id w1)).
    now rewrite Found1. }
  split.
  { intros cid D. unfold w1. rewrite E. cbn [fst campaigns].
    destruct (find (has_campaign_id cid) (campaigns w)) as [x|] eqn:F.
    - now apply find_app_l.
    - rewrite (find_app_r _ _ _ F). cbn [find]. unfold has_campaign_id.
      cbn [c_id c]. destruct (String.eqb_spec new_id cid); congruence. }
  split; [unfold w1; now rewrite E|].
  intros NoRecipient. rewrite (send_bulk_email_up db_fault Up), Found1.
  unfold w1. rewrite E. cbn [fst recipients]. now rewrite NoRecipient.
Qed.

Lemma create_then_get_witness :
  store_up Sample.store_ok
  /\ find (has_campaign_id "c2") (campaigns Sample.world) = None
  /\ snd (get_campaign Sample.store_ok "c2"
            (fst (create_campaign Sample.store_ok
                    (mkCampaignCreate "Spring" "Hello" "Body" "Mass Mailer"
                                      None) "c2" Sample.world)))
     = Returned (Respond (mkCampaign "c2" "Spring" "Hello" "Body"
                                     "Mass Mailer" "draft" 0 0 0 None false
                                     100 101)).
Proof.
  assert (Up : store_up Sample.store_ok) by (intros n; reflexivity).
  split; [exact Up|]. split; [reflexivity|].
  exact (proj1 (proj2 (create_then_get Sample.store_ok
                         (mkCampaignCreate "Spring" "Hello" "Body"
                                           "Mass Mailer" None) "c2"
                         (mkBulkEmailRequest "c2" false) [] Sample.world
                         Up eq_refl))).
Defined.

(** X11: whatever store operations fault, when an upload answers with its
    report, every row of the file is counted exactly once (as an added
    recipient or as an error); the added recipients are appended to the
    store, each pending, of this campaign, with a name that
    is absent or non-empty and with metadata that holds neither the email
    nor the name column nor an empty value; and the campaign's
    total_recipients went up by exactly the number added, so the
    difference between it and the number of recipient documents of the
    campaign is kept. *)
Theorem csv_import_accounts (db_fault : nat -> option exn)
  (validate_email : string -> exn + string)
  (validation_message : list exn -> exn) (cid filename : string)
  (rows : list CsvRow) (reader_fault : option exn) (new_ids : nat -> string)
  (w w' : World) (report : CsvReport) :
  upload_recipients_csv db_fault validate_email validation_message cid
    filename rows reader_fault new_ids w = (w', Returned (Respond report)) ->
  (recipients_added report + total_errors report)%Z
  = Z.of_nat (List.length rows)
  /\ total_errors report = Z.of_nat (List.length (errors report))
  /\ (exists new : list Recipient,
        recipients w' = (recipients w ++ new)%list
        /\ Z.of_nat (List.length new) = recipients_added report
        /\ Forall (imported_ok cid) new)
  /\ (exists c : Campaign,
        find (has_campaign_id cid) (campaigns w) = Some c
        /\ find (has_campaign_id cid) (campaigns w')
           = Some (add_total (recipients_added report) c))
  /\ enrolment_gap cid w' = enrolment_gap cid w.
Proof.
  intros H.
  destruct (upload_cases _ _ _ _ _ _ _ _ _ _ _ H)
    as [(e & _ & E & _)|[(_ & _ & E & _)|[(_ & _ & _ & E & _)
       |(_ & Found & _ & new & added & errs & Rn & Ok & Ea & Ln & Last)]]];
    try discriminate.
  destruct Last as [(detail & E & _)|(_ & E & C)]; [discriminate|].
  injection E as ->. cbn [recipients_added errors total_errors].
  destruct (find (has_campaign_id cid) (campaigns w)) as [c|] eqn:Fc;
    [|congruence].
  split; [lia|]. split; [reflexivity|].
  split; [exists new; now repeat split|].
  split; [exists c; split; [reflexivity|]; now rewrite C, find_add_total, Fc|].
  unfold enrolment_gap. rewrite C, find_add_total, Fc, Rn.
  cbn [option_map add_total c_total_recipients].
  rewrite (in_campaign_app_new cid (recipients w) new).
  - f_equal. lia.
  - eapply Forall_impl; [|exact Ok]. now intros r (Hc & _).
Qed.

Lemma csv_import_accounts_witness :
  let rows :=
    [mkCsvRow [("email", Some "a@x.org"); ("name", Some "Ann");
               ("city", Some "Rome")] [];
     mkCsvRow [("email", Some EmptyString); ("name", Some "Bob");
               ("city", Some "Oslo")] [];
     mkCsvRow [("email", Some "d@x.org"); ("name", Some EmptyString);
               ("city", None)] ["extra"]] in
  let run :=
    upload_recipients_csv Sample.store_ok (fun s => inr s)
      (fun complaints => String.concat "; " complaints) "c1" "list.csv" rows
      None (fun n => py_str (PInt (Z.of_nat n))) Sample.world in
  snd run
  = Returned (Respond (mkCsvReport 1 ["Row 2: Missing email";
                                      "Row 3: none is not an allowed value"]
                                   2))
  /\ enrolment_gap "c1" (fst run) = enrolment_gap "c1" Sample.world.
Proof.
  intros rows run.
  assert (E : run = (fst run,
                     Returned (Respond (mkCsvReport 1
                                 ["Row 2: Missing email";
                                  "Row 3: none is not an allowed value"] 2)))).
  { exact (eq_trans (surjective_pairing run)
                    (f_equal (pair (fst run)) eq_refl)). }
  split; [reflexivity|].
  exact (proj2 (proj2 (proj2 (proj2
           (csv_import_accounts Sample.store_ok (fun s => inr s)
              (fun complaints => String.concat "; " complaints) "c1"
              "list.csv" rows None (fun n => py_str (PInt (Z.of_nat n)))
              Sample.world (fst run) _ E))))).
Defined.

(** X12: whatever store operations fault, when an upload answers 500
    (the reader faulted, or the write of total_recipients did), the
    recipients of the rows read until then stay in the store, and no
    campaign document is changed: total_recipients is not raised for
    them. *)
Theorem csv_failure_not_rolled_back (db_fault : nat -> option exn)
  (validate_email : string -> exn + string)
  (validation_message : list exn -> exn) (cid filename : string)
  (rows : list CsvRow) (reader_fault : option exn) (new_ids : nat -> string)
  (w w' : World) (detail : string) :
  upload_recipients_csv db_fault validate_email validation_message cid
    filename rows reader_fault new_ids w
  = (w', Returned (HTTPException 500 detail)) ->
  campaigns w' = campaigns w
  /\ exists (new : list Recipient) (errs : list string),
       recipients w' = (recipients w ++ new)%list
       /\ Forall (imported_ok cid) new
       /\ List.length errs + List.length new = List.length rows.
Proof.
  intros H.
  destruct (upload_cases _ _ _ _ _ _ _ _ _ _ _ H)
    as [(e & _ & E & _)|[(_ & _ & E & _)|[(_ & _ & _ & E & _)
       |(_ & Found & _ & new & added & errs & Rn & Ok & Ea & Ln & Last)]]];
    try discriminate.
  destruct Last as [(d & _ & C)|(_ & E & _)]; [|discriminate].
  split; [exact C|]. now exists new, errs.
Qed.

Lemma csv_failure_not_rolled_back_witness :
  let rows :=
    [mkCsvRow [("email", Some "a@x.org"); ("name", Some "Ann")] []] in
  let run :=
    upload_recipients_csv Sample.store_ok (fun s => inr s)
      (fun complaints => String.concat "; " complaints) "c1" "list.csv" rows
      (Some "line contains NUL") (fun n => py_str (PInt (Z.of_nat n)))
      Sample.world in
  snd run
  = Returned (HTTPException 500 "Error processing CSV: line contains NUL")
  /\ List.length (recipients (fst run)) = 4
  /\ campaigns (fst run) = campaigns Sample.world.
Proof.
  intros rows run.
  assert (E : run = (fst run,
                     Returned (HTTPException 500
                                 "Error processing CSV: line contains NUL"))).
  { exact (eq_trans (surjective_pairing run)
                    (f_equal (pair (fst run)) eq_refl)). }
  split; [reflexivity|]. split; [reflexivity|].
  exact (proj1 (csv_failure_not_rolled_back Sample.store_ok (fun s => inr s)
                  (fun complaints => String.concat "; " complaints) "c1"
                  "list.csv" rows (Some "line contains NUL")
                  (fun n => py_str (PInt (Z.of_nat n))) Sample.world
                  (fst run) _ E)).
Defined.

(** X13: once the lookup of the campaign did not fault, an upload never
    raises, whatever the later store operations and the reader do: it
    answers 404 exactly when the campaign is missing, 400 exactly when
    the campaign is there and the file name does not end in .csv, and in
    both cases changes neither collection. *)
Theorem csv_upload_answers (db_fault : nat -> option exn)
  (validate_email : string -> exn + string)
  (validation_message : list exn -> exn) (cid filename : string)
  (rows : list CsvRow) (reader_fault : option exn) (new_ids : nat -> string)
  (w : World) :
  db_fault (db_ops w) = None ->
  exists (w' : World) (resp : response CsvReport),
    upload_recipients_csv db_fault validate_email validation_message cid
      filename rows reader_fault new_ids w = (w', Returned resp)
    /\ (resp = HTTPException 404 "Campaign not found"
        <-> find (has_campaign_id cid) (campaigns w) = None)
    /\ (resp = HTTPException 400 "File must be a CSV"
        <-> find (has_campaign_id cid) (campaigns w) <> None
            /\ ends_with ".csv" filename = false)
    /\ ((exists detail, resp = HTTPException 404 detail
                        \/ resp = HTTPException 400 detail) ->
        campaigns w' = campaigns w /\ recipients w' = recipients w).
Proof.
  intros F.
  destruct (upload_recipients_csv db_fault validate_email validation_message
              cid filename rows reader_fault new_ids w) as [w' r] eqn:H.
  destruct (upload_cases _ _ _ _ _ _ _ _ _ _ _ H)
    as [(e & F' & _)|[(_ & NF & -> & ->)|[(_ & Fd & Csv & -> & ->)
       |(_ & Fd & Csv & new & added & errs & Rn & Ok & Ea & Ln & Last)]]].
  - congruence.
  - eexists _, _. split; [reflexivity|].
    split; [tauto|]. split; [|now intros _].
    split; [discriminate|]. intros [Fd _]. contradiction.
  - eexists _, _. split; [reflexivity|].
    split; [split; [discriminate|contradiction]|].
    split; [tauto|]. now intros _.
  - destruct Last as [(d & -> & C)|(_ & -> & C)];
      (eexists _, _; split; [reflexivity|]);
      (split; [split; [discriminate|contradiction]|]);
      (split; [split; [discriminate|intros [_ Csv']; congruence]|]);
      intros (d' & [D|D]); discriminate.
Qed.

Lemma csv_upload_answers_witness :
  Sample.store_ok (db_ops Sample.world) = None
  /\ exists w' : World,
       upload_recipients_csv Sample.store_ok (fun s => inr s)
         (fun complaints => String.concat "; " complaints) "c1" "list.txt"
         [] None (fun n => py_str (PInt (Z.of_nat n))) Sample.world
       = (w', Returned (HTTPException 400 "File must be a CSV")).
Proof.
  split; [reflexivity|].
  destruct (csv_upload_answers Sample.store_ok (fun s => inr s)
              (fun complaints => String.concat "; " complaints) "c1"
              "list.txt" [] None (fun n => py_str (PInt (Z.of_nat n)))
              Sample.world eq_refl)
    as (w' & resp & E & _ & (_ & To400) & _).
  exists w'. rewrite E. do 2 f_equal.
  apply To400. split; [discriminate|reflexivity].
Defined.

(* ================================================================== *)
(** * More on what a run leaves alone *)

Module FrameLemmas.

Lemma update_first_keep (x st : string) (docs : list Recipient) (d : Recipient) :
  In d docs -> r_id d <> x ->
  In d (update_first (has_recipient_id x) (with_status st) docs).
Proof.
  induction docs as [|d0 docs IH]; intros Hin NE; [contradiction|].
  cbn [update_first]. unfold has_recipient_id at 1.
  destruct (String.eqb_spec (r_id d0) x) as [E|_].
  - destruct Hin as [<-|Hin]; [congruence|now right].
  - destruct Hin as [<-|Hin]; [now left|]. right. now apply IH.
Qed.

Lemma mark_all_keep (pairs : list (Recipient * bool)) :
  forall (docs : list Recipient) (d : Recipient),
  In d docs ->
  ~ In (r_id d) (map (fun p => r_id (fst p)) pairs) ->
  In d (mark_all pairs docs).
Proof.
  induction pairs as [|p pairs IH]; intros docs d Hin Hnot; [assumption|].
  cbn [mark_all fold_left]. fold (mark_all pairs (mark docs p)).
  cbn [map In] in Hnot. apply IH; [|tauto].
  unfold mark. apply update_first_keep; [assumption|].
  intros E. apply Hnot. now left.
Qed.

Lemma unique_by_id (docs : list Recipient) (a b : Recipient) :
  NoDup (map r_id docs) -> In a docs -> In b docs -> r_id a = r_id b -> a = b.
Proof.
  induction docs as [|d docs IH]; intros ND Ha Hb E; [contradiction|].
  cbn [map] in ND. inversion ND as [|? ? Fresh ND']; subst.
  destruct Ha as [<-|Ha], Hb as [<-|Hb].
  - reflexivity.
  - exfalso. apply Fresh. rewrite E. now apply in_map.
  - exfalso. apply Fresh. rewrite <- E. now apply in_map.
  - now apply IH.
Qed.

Lemma campaign_kept_refl (cid : string) (c : Campaign) : campaign_kept cid c c.
Proof. unfold campaign_kept. now repeat split. Qed.

Lemma campaign_kept_trans (cid : string) (a b c : Campaign) :
  campaign_kept cid a b -> campaign_kept cid b c -> campaign_kept cid a c.
Proof.
  unfold campaign_kept. intros H1 H2.
  destruct H1 as (K1 & I1 & H1). destruct H2 as (K2 & I2 & H2).
  decompose [and] H1. decompose [and] H2.
  split.
  - intros NE. rewrite <- (K1 NE). apply K2. rewrite (K1 NE). exact NE.
  - repeat split; congruence.
Qed.

Lemma Forall2_kept_refl (cid : string) (cs : list Campaign) :
  Forall2 (campaign_kept cid) cs cs.
Proof. induction cs; constructor; [apply campaign_kept_refl|assumption]. Qed.

Lemma Forall2_kept_trans (cid : string) (a b c : list Campaign) :
  Forall2 (campaign_kept cid) a b -> Forall2 (campaign_kept cid) b c ->
  Forall2 (campaign_kept cid) a c.
Proof.
  intros H; revert c; induction H as [|x y a b Hxy _ IH]; intros c Hbc;
    inversion Hbc; subst; constructor.
  - eapply campaign_kept_trans; eassumption.
  - now apply IH.
Qed.

Lemma campaigns_after_kept (cid : string) (upd : CampaignSet)
  (cs : list Campaign) :
  Forall2 (campaign_kept cid) cs (campaigns_after cid upd cs).
Proof.
  unfold campaigns_after. induction cs as [|c cs IH]; [constructor|].
  cbn [update_first]. destruct (has_campaign_id cid c) eqn:E.
  - constructor; [|apply Forall2_kept_refl].
    unfold has_campaign_id in E. apply String.eqb_eq in E.
    unfold campaign_kept. split; [intros NE; contradiction|].
    now repeat split.
  - constructor; [apply campaign_kept_refl|exact IH].
Qed.

Lemma lookup_app (key : string) (a b : list (string * string)) :
  lookup key (a ++ b)
  = match lookup key a with
    | Some v => Some v
    | None => lookup key b
    end.
Proof.
  induction a as [|[k v] a IH]; [reflexivity|]. cbn [app lookup].
  destruct (String.eqb k key); [reflexivity|exact IH].
Qed.

Lemma lookup_not_in (key : string) (l : list (string * string)) :
  ~ In key (map fst l) -> lookup key l = None.
Proof.
  induction l as [|[k v] l IH]; intros H; [reflexivity|]. cbn [lookup].
  cbn [map fst In] in H.
  destruct (String.eqb_spec k key) as [E|_]; [tauto|]. apply IH. tauto.
Qed.

(** With distinct keys a lookup does not depend on the order of the
    entries. *)
Lemma lookup_permutation (key : string) (l l' : list (string * string)) :
  Permutation l l' -> NoDup (map fst l) -> lookup key l = lookup key l'.
Proof.
  induction 1 as [|[k v] l l' P IH|[k1 v1] [k2 v2] l|l l' l'' P1 IH1 P2 IH2];
    intros ND.
  - reflexivity.
  - cbn [lookup]. cbn [map fst] in ND. inversion ND; subst.
    destruct (String.eqb k key); [reflexivity|now apply IH].
  - cbn [lookup]. cbn [map fst] in ND. inversion ND as [|? ? Fresh _]; subst.
    destruct (String.eqb_spec k1 key) as [E1|_],
             (String.eqb_spec k2 key) as [E2|_]; try reflexivity.
    exfalso. apply Fresh. left. congruence.
  - rewrite IH1 by assumption. apply IH2.
    eapply Permutation_NoDup; [|exact ND]. now apply Permutation_map.
Qed.

End FrameLemmas.
Import FrameLemmas.

(** X14: on a template made of text without an opening brace and of
    placeholders with brace-free keys, for a recipient whose name (when
    it is non-empty) holds no opening brace and whose metadata has
    distinct brace-free keys and values without an opening brace, the
    order of the metadata entries does not matter: a recipient with the
    same name whose metadata is a permutation of these gets the same
    text. *)
Theorem personalize_order_free (r r' : Recipient) (segs : list segment) :
  r_name r' = r_name r ->
  Permutation (metadata_items r) (metadata_items r') ->
  NoDup (map fst (metadata_items r)) ->
  forallb binding_ok (bindings r) = true ->
  forallb segment_ok segs = true ->
  personalize r' (flatten segs) = personalize r (flatten segs).
Proof.
  intros Hn P ND OK Hs.
  set (md := fun x : Recipient =>
               map (fun kv : string * pyval => (fst kv, py_str (snd kv)))
                   (metadata_items x)).
  assert (Pm : Permutation (md r) (md r')) by now apply Permutation_map.
  assert (NDm : NoDup (map fst (md r))).
  { unfold md. rewrite map_map. cbn [fst]. exact ND. }
  assert (Eb : forall x, bindings x
                 = ((if truthy (r_name x)
                     then match r_name x with
                          | Some n => [("name", n)]
                          | None => []
                          end
                     else []) ++ md x)%list) by reflexivity.
  assert (OK' : forallb binding_ok (bindings r') = true).
  { rewrite forallb_forall in *. intros kv Hin. apply OK.
    rewrite Eb in *. rewrite Hn in Hin.
    apply in_app_or in Hin as [Hin|Hin]; apply in_or_app; [now left|].
    right. eapply Permutation_in; [|exact Hin]. now apply Permutation_sym. }
  rewrite !personalize_replace_all, !replace_all_flatten by assumption.
  f_equal. apply map_ext. intros [s|key]; [reflexivity|]. cbn [fill].
  rewrite !Eb, !lookup_app, Hn.
  now rewrite (lookup_permutation key _ _ Pm NDm).
Qed.

Lemma personalize_order_free_witness :
  let r := mkRecipient "r8" "r8@example.org" (Some "Eli")
                       (Some [("city", PStr "Lima"); ("age", PInt 30)])
                       (Some "c1") "pending" 0 in
  let r' := mkRecipient "r8" "r8@example.org" (Some "Eli")
                        (Some [("age", PInt 30); ("city", PStr "Lima")])
                        (Some "c1") "pending" 0 in
  NoDup (map fst (metadata_items r))
  /\ personalize r' "{{name}}, {{age}}, of {{city}}"
     = personalize r "{{name}}, {{age}}, of {{city}}".
Proof.
  intros r r'.
  assert (ND : NoDup (map fst (metadata_items r))).
  { cbn. repeat constructor; cbn; intuition discriminate. }
  split; [exact ND|].
  exact (personalize_order_free r r'
           [Hole "name"; Lit ", "; Hole "age"; Lit ", of "; Hole "city"]
           eq_refl (perm_swap _ _ _) ND eq_refl eq_refl).
Defined.

(** X15: in a run on an existing campaign during which the store does
    not fault, with recipient ids unique in the store, every recipient
    document that the run did not select (one of another campaign, one
    that is not pending, one beyond the first five in test mode) is in
    the store afterwards exactly as it was. *)
Theorem run_touches_selected_only (sender_email : option string)
  (db_fault : nat -> option exn) (sg_send : nat -> Mail -> SendOutcome)
  (validate_email : string -> exn + string)
  (validation_message : list exn -> exn)
  (cid : string) (test_mode : bool) (w : World) (c : Campaign)
  (d : Recipient) :
  store_up db_fault ->
  find (has_campaign_id cid) (campaigns w) = Some c ->
  NoDup (map r_id (recipients w)) ->
  In d (recipients w) ->
  ~ In d (selected_of cid test_mode w) ->
  In d (recipients (fst (process_bulk_email_campaign sender_email db_fault
                           sg_send validate_email validation_message
                           cid test_mode w))).
Proof.
  intros Up Found ND Hd Hnot.
  destruct (forallb (doc_valid validate_email) (pending_of cid w)) eqn:Valid.
  2:{ destruct (campaign_run_stray sender_email db_fault sg_send
                  validate_email validation_message Up cid test_mode w c
                  Found Valid) as (w1 & e & B & _ & R1 & _).
      unfold process_bulk_email_campaign, try_catch. rewrite B.
      destruct (on_fault db_fault cid e w1) as [w' r] eqn:Hh. cbn [fst].
      destruct (respects_on_fault db_fault no_send_no_mark
                  no_send_no_mark_trans no_send_no_mark_idle cid e _ _ _ Hh)
        as [_ R']. now rewrite R', R1. }
  destruct (campaign_run_up sender_email db_fault sg_send validate_email
              validation_message Up cid test_mode w c
              Found Valid) as (w' & E & _ & R & _).
  rewrite (process_up _ _ _ _ _ _ _ _ _ E). cbn [fst]. cbv zeta in R. rewrite R.
  apply mark_all_keep; [assumption|].
  rewrite combine_ids by (now rewrite send_oks_length, length_map).
  intros Hin. apply in_map_iff in Hin as (r & Er & Hr).
  apply Hnot.
  rewrite <- (unique_by_id (recipients w) r d ND
                (selected_in_store cid test_mode w r Hr) Hd Er).
  exact Hr.
Qed.

Lemma run_touches_selected_only_witness :
  let sent := with_status "sent" Sample.ana in
  let w := mkWorld [Sample.campaign] [sent; Sample.bo] 100 0 0 [] in
  store_up Sample.store_ok
  /\ ~ In sent (selected_of "c1" false w)
  /\ In sent (recipients (fst (process_bulk_email_campaign None
                                 Sample.store_ok Sample.provider_ok Sample.validator
                                 Sample.complaint "c1"
                                 false w))).
Proof.
  intros sent w.
  assert (Up : store_up Sample.store_ok) by (intros n; reflexivity).
  assert (ND : NoDup (map r_id (recipients w))).
  { cbn. repeat constructor; cbn; intuition discriminate. }
  assert (Not : ~ In sent (selected_of "c1" false w)).
  { cbn. intros [H|[]]. discriminate H. }
  split; [exact Up|]. split; [exact Not|].
  exact (run_touches_selected_only None Sample.store_ok Sample.provider_ok Sample.validator Sample.complaint
           "c1" false w Sample.campaign sent Up eq_refl ND
           (or_introl eq_refl) Not).
Defined.

(** X16: whatever faults and however a run ends, it leaves the campaign
    collection in place: a campaign document of another id is unchanged,
    and of every document the id, name, subject, content, sender name,
    total_recipients, template and creation time are as before. *)
Theorem run_keeps_campaign_documents (sender_email : option string)
  (db_fault : nat -> option exn) (sg_send : nat -> Mail -> SendOutcome)
  (validate_email : string -> exn + string)
  (validation_message : list exn -> exn)
  (cid : string) (test_mode : bool) (w : World) :
  Forall2 (campaign_kept cid) (campaigns w)
    (campaigns (fst (process_bulk_email_campaign sender_email db_fault
                       sg_send validate_email validation_message
                       cid test_mode w))).
Proof.
  destruct (process_bulk_email_campaign sender_email db_fault sg_send validate_email
              validation_message cid
              test_mode w) as [w' r] eqn:H. cbn [fst].
  destruct (run_cases _ _ _ _ _ _ _ _ _ _ H) as (w1 & rb & B & Shape & Cases).
  assert (Body : Forall2 (campaign_kept cid) (campaigns w) (campaigns w1)).
  { inversion Shape as [w0 F0 NF C0 W0|w0 e F0 C0 W0
                       |w0 e F0 F1 NF C0 W0|w0 s f F0 F1 NF C0 W0]; subst;
      rewrite C0.
    - apply Forall2_kept_refl.
    - apply Forall2_kept_refl.
    - apply campaigns_after_kept.
    - eapply Forall2_kept_trans; apply campaigns_after_kept. }
  destruct Cases as [(_ & -> & _)|[(e0 & e' & _ & _ & _ & C & _)
                                  |(e0 & _ & _ & _ & C & _)]].
  - exact Body.
  - now rewrite C.
  - rewrite C. eapply Forall2_kept_trans; [exact Body|].
    apply campaigns_after_kept.
Qed.

(** X17: with the store up, a run on an existing campaign one of whose
    pending documents has an address that does not validate is over
    before the first batch, in either mode and wherever that document
    lies among the pending ones: the run writes sending, the handler
    writes failed and the run returns; the provider is not called, every
    recipient document is as before, and the stored counters keep their
    values. *)
Theorem stray_address_fails_run (sender_email : option string)
  (db_fault : nat -> option exn) (sg_send : nat -> Mail -> SendOutcome)
  (validate_email : string -> exn + string)
  (validation_message : list exn -> exn)
  (cid : string) (test_mode : bool) (w : World) (c : Campaign) :
  store_up db_fault ->
  find (has_campaign_id cid) (campaigns w) = Some c ->
  forallb (doc_valid validate_email) (pending_of cid w) = false ->
  exists (w' : World) (c' : Campaign),
    process_bulk_email_campaign sender_email db_fault sg_send validate_email
      validation_message cid test_mode w = (w', Returned tt)
    /\ sends (trace w') = sends (trace w)
    /\ recipients w' = recipients w
    /\ status_writes (trace w')
       = (status_writes (trace w) ++ ["sending"; "failed"])%list
    /\ find (has_campaign_id cid) (campaigns w') = Some c'
    /\ c_status c' = "failed"
    /\ c_sent_count c' = c_sent_count c
    /\ c_failed_count c' = c_failed_count c.
Proof.
  intros Up Found Stray.
  destruct (campaign_run_stray sender_email db_fault sg_send validate_email
              validation_message Up cid test_mode w c Found Stray)
    as (w1 & e & B & C1 & R1 & K1 & T1).
  unfold process_bulk_email_campaign, try_catch. rewrite B.
  destruct (on_fault db_fault cid e w1) as [w' r] eqn:Hh.
  destruct (respects_on_fault db_fault no_send_no_mark no_send_no_mark_trans
              no_send_no_mark_idle cid e _ _ _ Hh) as [S' R'].
  destruct (on_fault_inv _ _ _ _ _ _ Hh)
    as [(e' & F & _)|(_ & -> & C & T)]; [now rewrite Up in F|].
  eexists w', _. split; [reflexivity|].
  split.
  { rewrite S', T1, sends_app. cbn. apply app_nil_r. }
  split; [now rewrite R', R1|].
  split.
  { apply (status_writes_extend _ _ [(cid, sending_set (clock w));
                                     (cid, failed_set (clock w1))]).
    rewrite T, campaign_writes_app, T1, campaign_writes_app.
    now rewrite <- app_assoc. }
  split; [rewrite C, C1, !find_campaigns_after, Found; reflexivity|].
  now repeat split.
Qed.

Lemma stray_address_fails_run_witness :
  store_up Sample.store_ok
  /\ find (has_campaign_id "c1") (campaigns Sample.world_stray)
     = Some Sample.campaign
  /\ forallb (doc_valid Sample.validator)
             (pending_of "c1" Sample.world_stray) = false
  /\ exists (w' : World) (c' : Campaign),
       process_bulk_email_campaign None Sample.store_ok Sample.provider_ok
         Sample.validator Sample.complaint "c1" true Sample.world_stray
       = (w', Returned tt)
       /\ sends (trace w') = sends (trace Sample.world_stray)
       /\ recipients w' = recipients Sample.world_stray
       /\ find (has_campaign_id "c1") (campaigns w') = Some c'
       /\ c_status c' = "failed".
Proof.
  assert (Up : store_up Sample.store_ok) by (intros n; reflexivity).
  split; [exact Up|]. split; [reflexivity|]. split; [reflexivity|].
  destruct (stray_address_fails_run None Sample.store_ok Sample.provider_ok
              Sample.validator Sample.complaint "c1" true Sample.world_stray
              Sample.campaign Up eq_refl eq_refl)
    as (w' & c' & E & S & R & _ & F & St & _).
  exists w', c'. now repeat split.
Defined.

(** The same store with the stray document in sixth place: a test run,
    which would send to the first five only, fails as well. *)
Example stray_beyond_the_first_five :
  let w := mkWorld [Sample.campaign] (Sample.crowd 5 ++ [Sample.stray])
                   100 0 0 [] in
  let w' := fst (process_bulk_email_campaign None Sample.store_ok
                   Sample.provider_ok Sample.validator Sample.complaint
                   "c1" true w) in
  map c_status (campaigns w') = ["failed"]
  /\ sends (trace w') = []
  /\ recipients w' = recipients w.
Proof. repeat split; vm_compute; reflexivity. Qed.
